(** * plv8_type.cc: converters between database values and engine values

    A shallow embedding of the conversion layer of plv8 (src/plv8_type.cc).
    The database backend and the scripting engine are outside the file: what
    the converters call in them is collected in the records [Host] and
    [Engine], and the build-time switches of the file in [Config].

    Part I holds the definitions, Part II the theorems. *)

From Stdlib Require Import ZArith List String Ascii Bool Lia Floats DecimalString.
From Stdlib.Strings Require Import Byte.
From Stdlib Require DecimalZ DecimalPos.
Import ListNotations.

Set Warnings "-register-all".

Open Scope Z_scope.

(** ** Part I. Definitions *)

(** *** Outcomes

    The converters leave in six ways besides returning: a script-side
    exception ([throw js_error(...)]), a database error caught by
    [PG_TRY] and rethrown ([throw pg_error()]), a database error raised
    where nothing catches it ([ereport(ERROR)] under a direct function
    call), an abort of the process by the engine, an empty handle
    returned where the engine already holds a pending exception, and
    behaviour C leaves undefined. *)

Inductive Error : Type :=
| js_error (msg : string)
| pg_error (msg : string)
| ereport_ERROR (msg : string)
| engine_abort (msg : string)
| empty_handle
| undefined_behaviour (what : string).

Definition Result (A : Type) : Type := (Error + A)%type.

Definition Ok {A : Type} (a : A) : Result A := inr a.
Definition Raise {A : Type} (e : Error) : Result A := inl e.

Definition bind {A B : Type} (r : Result A) (k : A -> Result B) : Result B :=
  match r with
  | inl e => inl e
  | inr a => k a
  end.

Notation "x <- r ;; k" := (bind r (fun x => k))
  (at level 61, r at next level, right associativity).
Notation "' pat <- r ;; k" := (bind r (fun x => match x with pat => k end))
  (at level 61, pat pattern, r at next level, right associativity).

(** [PG_TRY(); { body } PG_CATCH(); { throw pg_error(); } PG_END_TRY();]:
    a database error raised by the body is rethrown as [pg_error], which
    carries the message of the error it wraps. *)
Definition PG_TRY {A : Type} (body : Result A) : Result A :=
  match body with
  | inl (ereport_ERROR msg) => inl (pg_error msg)
  | other => other
  end.

Definition is_error {A : Type} (r : Result A) : bool :=
  match r with
  | inl _ => true
  | inr _ => false
  end.

Fixpoint mapM {A B : Type} (f : A -> Result B) (l : list A) : Result (list B) :=
  match l with
  | [] => Ok []
  | a :: rest =>
      b <- f a ;;
      bs <- mapM f rest ;;
      Ok (b :: bs)
  end.

(** *** Machine numbers

    [double] is IEEE binary64, the kernel's [float]; the integer types
    are [Z] with their ranges written out. *)

Module Cnum.

Definition INT16_MIN : Z := - 2 ^ 15.
Definition INT16_MAX : Z := 2 ^ 15 - 1.
Definition INT32_MIN : Z := - 2 ^ 31.
Definition INT32_MAX : Z := 2 ^ 31 - 1.
Definition INT64_MIN : Z := - 2 ^ 63.
Definition INT64_MAX : Z := 2 ^ 63 - 1.

(** Two's complement wrap-around to [w] bits, signed and unsigned. *)
Definition wrap_unsigned (w : Z) (z : Z) : Z := z mod 2 ^ w.
Definition wrap_signed (w : Z) (z : Z) : Z :=
  (z + 2 ^ (w - 1)) mod 2 ^ w - 2 ^ (w - 1).

(** [(double) z]: the integer rounded to the nearest binary64, ties to
    even. *)
Definition double_of_Z (z : Z) : float :=
  SF2Prim (binary_normalize prec emax z 0 false).

(** The integer part of a finite double, rounding toward zero. *)
Definition truncate (d : float) : option Z :=
  match Prim2SF d with
  | S754_zero _ => Some 0
  | S754_finite s m e =>
      Some (cond_Zopp s (if 0 <=? e then Z.pos m * 2 ^ e
                         else Z.pos m / 2 ^ (- e)))
  | S754_infinity _ | S754_nan => None
  end.

(** [(T) d] for a signed integer type [T] of [w] bits: the value
    truncated toward zero; undefined when it is not finite or does not
    fit. *)
Definition cast_double_signed (w : Z) (what : string) (d : float)
  : Result Z :=
  match truncate d with
  | Some z =>
      if (- 2 ^ (w - 1) <=? z) && (z <=? 2 ^ (w - 1) - 1) then Ok z
      else Raise (undefined_behaviour what)
  | None => Raise (undefined_behaviour what)
  end.

(** [(float4) d], kept as the double of the same value: rounding to
    binary32 (24 bits of mantissa, infinities at exponent 128). *)
Definition float4_of_double (d : float) : float :=
  match Prim2SF d with
  | S754_finite s m e => SF2Prim (binary_round 24 128 s m e)
  | _ => d
  end.

(** [modf(d, &integral)]: the fractional part. *)
Definition modf_fractional (d : float) : float :=
  match truncate d with
  | Some z => (d - double_of_Z z)%float
  | None => if is_nan d then d else 0%float
  end.

(** ECMAScript's ToInt32 and ToUint32 (the engine's [Int32Value] and
    [Uint32Value] on a Number), and its [IntegerValue], which
    saturates. *)
Definition ToUint32 (d : float) : Z :=
  match truncate d with
  | Some z => wrap_unsigned 32 z
  | None => 0
  end.

Definition ToInt32 (d : float) : Z :=
  match truncate d with
  | Some z => wrap_signed 32 z
  | None => 0
  end.

Definition IntegerValue (d : float) : Z :=
  match Prim2SF d with
  | S754_nan => 0
  | S754_infinity s => if s then INT64_MIN else INT64_MAX
  | _ =>
      match truncate d with
      | Some z => Z.max INT64_MIN (Z.min INT64_MAX z)
      | None => 0
      end
  end.

(** The engine's [IsInt32] and [IsUint32] on a Number: an integral
    value of the range that is not the negative zero. *)
Definition is_negative_zero (d : float) : bool :=
  match Prim2SF d with
  | S754_zero s => s
  | _ => false
  end.

Definition is_integral_in (lo hi : Z) (d : float) : bool :=
  match truncate d with
  | Some z =>
      PrimFloat.eqb d (double_of_Z z) && negb (is_negative_zero d)
      && (lo <=? z) && (z <=? hi)
  | None => false
  end.

(** [sprintf(buf, "%ld", v)] and friends: the decimal text of an
    integer. *)
Definition decimal (z : Z) : string :=
  NilZero.string_of_int (Z.to_int z).

End Cnum.

(** *** Build-time configuration

    The preprocessor switches the file is compiled under. *)

Record Config : Type := {
  PG_VERSION_NUM : Z;
  JSONB_DIRECT_CONVERSION : bool;
  BIGINT_GRACEFUL : bool;
  CHECK_INTEGER_OVERFLOW : bool;
  HAVE_INT64_TIMESTAMP : bool
}.

(** *** Type identifiers and constants of the host's headers

    These come from catalog/pg_type.h, utils/array.h and
    datatype/timestamp.h of the database, none of which is part of the
    repository. *)

Definition Oid : Type := Z.

Definition InvalidOid : Oid := 0.
Definition BOOLOID : Oid := 16.
Definition BYTEAOID : Oid := 17.
Definition INT8OID : Oid := 20.
Definition INT2OID : Oid := 21.
Definition INT4OID : Oid := 23.
Definition TEXTOID : Oid := 25.
Definition OIDOID : Oid := 26.
Definition JSONOID : Oid := 114.
Definition XMLOID : Oid := 142.
Definition FLOAT4OID : Oid := 700.
Definition FLOAT8OID : Oid := 701.
Definition BPCHAROID : Oid := 1042.
Definition VARCHAROID : Oid := 1043.
Definition DATEOID : Oid := 1082.
Definition TIMESTAMPOID : Oid := 1114.
Definition TIMESTAMPTZOID : Oid := 1184.
Definition NUMERICOID : Oid := 1700.
Definition RECORDOID : Oid := 2249.
Definition RECORDARRAYOID : Oid := 2287.
Definition JSONBOID : Oid := 3802.

Definition TYPCATEGORY_ARRAY : ascii := "A"%char.
Definition TYPCATEGORY_COMPOSITE : ascii := "C"%char.
Definition TYPTYPE_DOMAIN : ascii := "d"%char.

Definition PG_UTF8 : Z := 6.

(** Julian day numbers of 2000-01-01 and 1970-01-01. *)
Definition POSTGRES_EPOCH_JDATE : Z := 2451545.
Definition UNIX_EPOCH_JDATE : Z := 2440588.
Definition USECS_PER_DAY : Z := 86400000000.
Definition SECS_PER_DAY : Z := 86400.

(** The host's [date2j]: the Julian day number of a calendar date, by
    which the two epoch constants above are defined in its header. *)
Definition date2j (y m d : Z) : Z :=
  let '(y, m) := if 2 <? m then (y + 4800, m + 1) else (y + 4799, m + 13) in
  let century := y / 100 in
  y * 365 - 32167 + (y / 4 - century + century / 4) + 7834 * m / 256 + d.

Definition VARHDRSZ : Z := 4.
Definition MAXALIGN (n : Z) : Z := (n + 7) / 8 * 8.
(** [sizeof(ArrayType)] is 16; each dimension adds a length and a lower
    bound. *)
Definition ARR_OVERHEAD_NONULLS (ndims : Z) : Z := MAXALIGN (16 + 2 * 4 * ndims).

(** *** Database values *)

(** An arbitrary-precision decimal of the host, held as its text. *)
Definition Numeric : Type := string.

(** A node of the host's JSON tree. *)
Inductive JsonbValue : Type :=
| jbvNull
| jbvString (s : string)
| jbvNumeric (n : Numeric)
| jbvBool (b : bool)
| jbvArray (elems : list JsonbValue)
| jbvObject (pairs : list (string * JsonbValue)).

(** The header of an array and its elements in storage order, each with
    its null flag. [arr_hasnull] is [ARR_HASNULL]: a null bitmap is
    present. *)
Record ArrayType (D : Type) : Type := {
  arr_ndim : Z;
  arr_hasnull : bool;
  arr_elemtype : Oid;
  arr_dims : list Z;
  arr_lbound : list Z;
  arr_elems : list (D * bool)
}.

Arguments arr_ndim {D} _.
Arguments arr_hasnull {D} _.
Arguments arr_elemtype {D} _.
Arguments arr_dims {D} _.
Arguments arr_lbound {D} _.
Arguments arr_elems {D} _.

(** A [Datum] is one machine word: a value of a pass-by-value type, or a
    pointer to a value of another type, which stands here for the value
    itself. A value of variable length is at hand ([DatumVarlena]) or
    kept out of line ([DatumToasted]); fetching the latter gives its
    bytes or raises a database error with a message. *)
Inductive Datum : Type :=
| DatumWord (w : Z)
| DatumFloat (d : float)
| DatumNumeric (n : Numeric)
| DatumVarlena (payload : list byte)
| DatumToasted (fetched : string + list byte)
| DatumJsonb (root : JsonbValue)
| DatumArray (a : ArrayType Datum)
| DatumHeapTuple (tupType : Oid) (tupTypmod : Z) (attrs : list (Datum * bool))
| DatumOther (typid : Oid) (repr : string).

(** [(Datum) 0]. *)
Definition Datum0 : Datum := DatumWord 0.

Record Attribute : Type := {
  attname : string;
  atttypid : Oid;
  attisdropped : bool
}.

Record TupleDesc : Type := {
  tdtypeid : Oid;
  tdtypmod : Z;
  tdattrs : list Attribute
}.

(** Modelled from the spec: [plv8_external_array_type] and [plv8_type]
    are declared in plv8.h, which is not among the sources; the kinds
    are those of the spec's externalBufferKind (section 3) under the
    names the switch of [CreateExternalArray] uses, and the absence of
    a kind (the value 0 that [if (type->ext_array)] tests) is [None]. *)
Inductive plv8_external_array_type : Type :=
| kExternalByteArray
| kExternalUnsignedByteArray
| kExternalShortArray
| kExternalUnsignedShortArray
| kExternalIntArray
| kExternalUnsignedIntArray
| kExternalFloatArray
| kExternalDoubleArray
| kExternalInt64Array.

(** [fn_input] and [fn_output] hold the function a [FmgrInfo] was filled
    with, [None] while its [fn_addr] is [NULL]. *)
Record plv8_type : Type := {
  typid : Oid;
  ioparam : Oid;
  len : Z;
  byval : bool;
  align : ascii;
  category : ascii;
  is_composite : bool;
  fn_input : option Oid;
  fn_output : option Oid;
  ext_array : option plv8_external_array_type
}.

(** *** Engine values *)

Inductive TypedArrayKind : Type :=
| Int8Array | Uint8Array | Uint8ClampedArray
| Int16Array | Uint16Array
| Int32Array | Uint32Array
| Float32Array | Float64Array
| BigInt64Array | BigUint64Array.

(** A value of the scripting engine. A Number and the time value of a
    Date are doubles; a String is held as its UTF-8 text; an Object as
    its own enumerable properties in enumeration order, under distinct
    names; a typed array as the bytes of its buffer and the database
    value its internal field 0 points to, if any. *)
Inductive Value : Type :=
| VUndefined
| VNull
| VBoolean (b : bool)
| VNumber (d : float)
| VBigInt (n : Z)
| VString (s : string)
| VSymbol (description : string)
| VDate (time : float)
| VTypedArray (kind : TypedArrayKind) (contents : list byte)
              (internal : option Datum)
| VArrayBuffer (contents : list byte)
| VArray (elems : list Value)
| VObject (props : list (string * Value))
| VFunction (name : string).

Definition IsUndefined (v : Value) : bool :=
  match v with VUndefined => true | _ => false end.
Definition IsNull (v : Value) : bool :=
  match v with VNull => true | _ => false end.
Definition IsBoolean (v : Value) : bool :=
  match v with VBoolean _ => true | _ => false end.
Definition IsNumber (v : Value) : bool :=
  match v with VNumber _ => true | _ => false end.
Definition IsInt32 (v : Value) : bool :=
  match v with
  | VNumber d => Cnum.is_integral_in Cnum.INT32_MIN Cnum.INT32_MAX d
  | _ => false
  end.
Definition IsUint32 (v : Value) : bool :=
  match v with
  | VNumber d => Cnum.is_integral_in 0 (2 ^ 32 - 1) d
  | _ => false
  end.
Definition IsBigInt (v : Value) : bool :=
  match v with VBigInt _ => true | _ => false end.
Definition IsString (v : Value) : bool :=
  match v with VString _ => true | _ => false end.
Definition IsDate (v : Value) : bool :=
  match v with VDate _ => true | _ => false end.
Definition IsArray (v : Value) : bool :=
  match v with VArray _ => true | _ => false end.
Definition IsObject (v : Value) : bool :=
  match v with
  | VDate _ | VTypedArray _ _ _ | VArrayBuffer _ | VArray _ | VObject _
  | VFunction _ => true
  | _ => false
  end.
Definition IsTypedArray (v : Value) : bool :=
  match v with VTypedArray _ _ _ => true | _ => false end.
Definition IsArrayBuffer (v : Value) : bool :=
  match v with VArrayBuffer _ => true | _ => false end.

Definition kind_eqb (a b : TypedArrayKind) : bool :=
  match a, b with
  | Int8Array, Int8Array | Uint8Array, Uint8Array
  | Uint8ClampedArray, Uint8ClampedArray
  | Int16Array, Int16Array | Uint16Array, Uint16Array
  | Int32Array, Int32Array | Uint32Array, Uint32Array
  | Float32Array, Float32Array | Float64Array, Float64Array
  | BigInt64Array, BigInt64Array | BigUint64Array, BigUint64Array => true
  | _, _ => false
  end.

Definition IsKind (k : TypedArrayKind) (v : Value) : bool :=
  match v with
  | VTypedArray k' _ _ => kind_eqb k k'
  | _ => false
  end.

(** The width in bytes of an element of a typed array, and the
    [Length()] of a view over the whole of its buffer. *)
Definition element_size (k : TypedArrayKind) : Z :=
  match k with
  | Int8Array | Uint8Array | Uint8ClampedArray => 1
  | Int16Array | Uint16Array => 2
  | Int32Array | Uint32Array | Float32Array => 4
  | Float64Array | BigInt64Array | BigUint64Array => 8
  end.

Definition byte_length (contents : list byte) : Z :=
  Z.of_nat (List.length contents).

(** *** The database backend

    What the converters call in the backend. A function that can raise a
    database error returns a [Result]; the error is [ereport_ERROR] with
    the message. *)

Record Host : Type := {
  (** mb/pg_wchar.h *)
  GetDatabaseEncoding : Z;
  pg_do_encoding_conversion : string -> Z -> Z -> Result string;
  (** utils/lsyscache.h, parser/parse_coerce.h, utils/syscache.h *)
  get_type_category_preferred : Oid -> Result ascii;
  get_typlenbyvalalign : Oid -> Result (Z * bool * ascii);
  get_typtype : Oid -> ascii;
  typname_of : Oid -> option string;
  get_element_type : Oid -> Oid;
  TypeCategory : Oid -> Result ascii;
  getTypeInputInfo : Oid -> Result (Oid * Oid);
  getTypeOutputInfo : Oid -> Result Oid;
  (** fmgr.h *)
  InputFunctionCall : Oid -> option string -> Oid -> Z -> Result Datum;
  OutputFunctionCall : Oid -> Datum -> Result string;
  (** utils/typcache.h *)
  lookup_rowtype_tupdesc : Oid -> Z -> Result TupleDesc;
  (** utils/builtins.h, utils/jsonb.h *)
  float8_numeric : float -> Result Numeric;
  numeric_float8 : Numeric -> Result float;
  numeric_in : option string -> Result Numeric;
  jsonb_in : option string -> Result JsonbValue;
  (** utils/array.h: the bytes [ARR_DATA_PTR] points to, the elements
      packed by the length, by-value flag and alignment of their type. *)
  ARR_DATA : ArrayType Datum -> list byte;
  (** time.h: [strftime(tmp, 25, "%Y-%m-%dT%H:%M:%S", gmtime(&t))]. *)
  strftime_gmtime : Z -> string
}.

(** *** The scripting engine and the rest of the extension

    [Utf8Value] is the engine's [String::Utf8Value]: the value coerced
    to a String and encoded, [None] when the coercion throws and the
    object holds a null pointer. [JSON_Stringify] and [JSON_Parse] are
    the methods of the extension's [JSONObject] and [Converter_ToDatum]
    and [Converter_ToValue] those of its [Converter] (plv8.h, plv8.cc),
    which are not among the sources and are taken as given. *)

Record Engine : Type := {
  Utf8Value : Value -> option string;
  JSON_Stringify : Value -> Value;
  JSON_Parse : Value -> Value;
  Converter_ToDatum : TupleDesc -> Value -> Result Datum;
  Converter_ToValue : TupleDesc -> Datum -> Result Value
}.

(** *** Datum accessors of the host (postgres.h)

    Writing a value into a [Datum] and reading it back at the same type
    gives the value; reading a [Datum] at a type it was not written at
    is not given a meaning. *)

Definition Int16GetDatum (z : Z) : Datum := DatumWord z.
Definition Int32GetDatum (z : Z) : Datum := DatumWord z.
Definition Int64GetDatum (z : Z) : Datum := DatumWord z.
Definition ObjectIdGetDatum (z : Z) : Datum := DatumWord z.
Definition BoolGetDatum (b : bool) : Datum := DatumWord (if b then 1 else 0).
Definition Float4GetDatum (d : float) : Datum := DatumFloat d.
Definition Float8GetDatum (d : float) : Datum := DatumFloat d.
Definition DateADTGetDatum (z : Z) : Datum := DatumWord z.

Definition DatumGetWord (what : string) (datum : Datum) : Result Z :=
  match datum with
  | DatumWord w => Ok w
  | _ => Raise (undefined_behaviour what)
  end.

Definition DatumGetFloat (what : string) (datum : Datum) : Result float :=
  match datum with
  | DatumFloat d => Ok d
  | _ => Raise (undefined_behaviour what)
  end.

(** [PG_DETOAST_DATUM_PACKED(datum)] or [PG_DETOAST_DATUM_COPY(datum)]
    and [VARDATA_ANY]: the bytes of a value of variable length, fetched
    when they are kept out of line. *)
Definition DatumGetVarlena (what : string) (datum : Datum)
  : Result (list byte) :=
  match datum with
  | DatumVarlena payload => Ok payload
  | DatumToasted (inr payload) => Ok payload
  | DatumToasted (inl msg) => Raise (ereport_ERROR msg)
  | _ => Raise (undefined_behaviour what)
  end.

(** [TimestampTz] is [int64] under [HAVE_INT64_TIMESTAMP] and [double]
    otherwise. *)
Inductive TimestampTz : Type :=
| TimestampInt64 (tm : Z)
| TimestampFloat8 (tm : float).

Definition DatumGetTimestampTz (cfg : Config) (datum : Datum)
  : Result TimestampTz :=
  if HAVE_INT64_TIMESTAMP cfg
  then tm <- DatumGetWord "DatumGetTimestampTz" datum ;; Ok (TimestampInt64 tm)
  else tm <- DatumGetFloat "DatumGetTimestampTz" datum ;; Ok (TimestampFloat8 tm).

(** Signed multiplication in [int64]; an overflow is undefined. *)
Definition int64_mul (a b : Z) : Result Z :=
  let p := a * b in
  if (Cnum.INT64_MIN <=? p) && (p <=? Cnum.INT64_MAX) then Ok p
  else Raise (undefined_behaviour "signed overflow").

(** The host's [int82] and [int84], reached under
    [CHECK_INTEGER_OVERFLOW]. *)
Definition int82 (z : Z) : Result Z :=
  if (Cnum.INT16_MIN <=? z) && (z <=? Cnum.INT16_MAX) then Ok z
  else Raise (ereport_ERROR "smallint out of range").

Definition int84 (z : Z) : Result Z :=
  if (Cnum.INT32_MIN <=? z) && (z <=? Cnum.INT32_MAX) then Ok z
  else Raise (ereport_ERROR "integer out of range").

(** [int4_numeric] and [int8_numeric]. *)
Definition int_numeric (z : Z) : Numeric := Cnum.decimal z.

Definition bytes_of_string (s : string) : list byte := list_byte_of_string s.
Definition string_of_bytes (b : list byte) : string := string_of_list_byte b.

(** *** Epoch conversions *)

Section Epoch.

Variable cfg : Config.

(** [(POSTGRES_EPOCH_JDATE - UNIX_EPOCH_JDATE) * 86400000.0] *)
Definition epoch_shift : float :=
  (Cnum.double_of_Z (POSTGRES_EPOCH_JDATE - UNIX_EPOCH_JDATE) * 86400000)%float.

Definition TimestampTzToEpoch (tm : TimestampTz) : float :=
  let epoch :=
    match tm with
    | TimestampInt64 tm => (Cnum.double_of_Z tm / 1000)%float
    | TimestampFloat8 tm => (tm * 1000)%float
    end in
  (epoch + epoch_shift)%float.

Definition EpochToTimestampTz (epoch : float) : Result Datum :=
  let epoch := (epoch - epoch_shift)%float in
  if HAVE_INT64_TIMESTAMP cfg
  then
    whole <- Cnum.cast_double_signed 64 "(int64) epoch" epoch ;;
    tm <- int64_mul whole 1000 ;;
    Ok (Int64GetDatum tm)
  else Ok (Float8GetDatum (epoch / 1000)%float).

Definition DateToEpoch (date : Z) : float :=
  let epoch :=
    if HAVE_INT64_TIMESTAMP cfg
    then (Cnum.double_of_Z date * Cnum.double_of_Z USECS_PER_DAY / 1000)%float
    else (Cnum.double_of_Z date * Cnum.double_of_Z SECS_PER_DAY * 1000)%float in
  (epoch + epoch_shift)%float.

Definition EpochToDate (epoch : float) : Result Datum :=
  let epoch := (epoch - epoch_shift)%float in
  let epoch :=
    if HAVE_INT64_TIMESTAMP cfg
    then (epoch * 1000 / Cnum.double_of_Z USECS_PER_DAY)%float
    else (epoch / 1000 / Cnum.double_of_Z SECS_PER_DAY)%float in
  date <- Cnum.cast_double_signed 32 "(DateADT) epoch" epoch ;;
  Ok (DateADTGetDatum date).

End Epoch.

(** *** Type inference *)

(** Return the database type inferred by the JS value type. If none
    looks appropriate, InvalidOid is returned (currently, objects and
    arrays are in this case). *)
Definition inferred_datum_type (value : Value) : Oid :=
  if IsUndefined value || IsNull value then TEXTOID
  else if IsBoolean value then BOOLOID
  else if IsInt32 value then INT4OID
  else if IsUint32 value then INT8OID
  else if IsBigInt value then INT8OID
  else if IsNumber value then FLOAT8OID
  else if IsString value then TEXTOID
  else if IsDate value then TIMESTAMPOID
  else InvalidOid.

(** *** Text between the database encoding and UTF-8 *)

(** What a [char *] holds of a text: the characters before its first
    NUL. *)
Fixpoint c_str (s : string) : string :=
  match s with
  | EmptyString => EmptyString
  | String c rest =>
      if Ascii.eqb c Ascii.zero then EmptyString else String c (c_str rest)
  end.

Section Text.

Variable pg : Host.
Variable js : Engine.

(** [ToString(const char *str, int len, int encoding)]; [str] is here
    the [len] bytes the call passes, or [None] for a null pointer. *)
Definition ToString (str : option string) (encoding : Z) : Result string :=
  match str with
  | None => Ok "(null)"%string
  | Some str =>
      PG_TRY (pg_do_encoding_conversion pg str encoding PG_UTF8)
  end.

(** [ToString(Datum value, plv8_type *type)]: the text the output
    function of the type gives. *)
Definition ToString_Datum (value : Datum) (type : plv8_type) : Result string :=
  let encoding := GetDatabaseEncoding pg in
  str <- PG_TRY (
    output_func <- match fn_output type with
                   | Some f => Ok f
                   | None => getTypeOutputInfo pg (typid type)
                   end ;;
    OutputFunctionCall pg output_func value) ;;
  if encoding =? PG_UTF8 then Ok str
  else ToString (Some str) encoding.

(** Convert utf8 text to database encoded text. *)
Definition ToCString (value : option string) : Result (option string) :=
  match value with
  | None => Ok None
  | Some str =>
      let encoding := GetDatabaseEncoding pg in
      if encoding =? PG_UTF8 then Ok (Some str)
      else
        str <- PG_TRY (pg_do_encoding_conversion pg str PG_UTF8 encoding) ;;
        Ok (Some str)
  end.

(** Convert utf8 text to database encoded text. The result is always
    palloc'ed one. The text is taken up to [strlen(utf8)], and what
    comes back is a [char *]. *)
Definition ToCStringCopy (value : option string) : Result (option string) :=
  match value with
  | None => Ok None
  | Some utf8 =>
      str <- PG_TRY (pg_do_encoding_conversion pg (c_str utf8) PG_UTF8
                       (GetDatabaseEncoding pg)) ;;
      Ok (Some (c_str str))
  end.

(** [CString::CString(value)]: [m_utf8] is the value as UTF-8 text,
    [m_str] its conversion. *)
Definition CString (value : Value) : Result (option string) :=
  ToCString (Utf8Value js value).

End Text.

(** *** Reading an engine value *)

(** The engine's [BooleanValue], [NumberValue], [Int32Value],
    [Uint32Value] and [IntegerValue], on the kinds the converters call
    them on: a Boolean, and a Number or a Date. *)
Definition BooleanValue (v : Value) : bool :=
  match v with VBoolean b => b | _ => false end.
Definition NumberValue (v : Value) : float :=
  match v with VNumber d => d | VDate t => t | _ => nan end.
Definition Int32Value (v : Value) : Z := Cnum.ToInt32 (NumberValue v).
Definition Uint32Value (v : Value) : Z := Cnum.ToUint32 (NumberValue v).
Definition IntegerValue (v : Value) : Z := Cnum.IntegerValue (NumberValue v).
(** [BigInt::Int64Value()]: the low 64 bits, signed. *)
Definition Int64Value (v : Value) : Z :=
  match v with VBigInt n => Cnum.wrap_signed 64 n | _ => 0 end.

Fixpoint foldM {S A : Type} (f : S -> A -> Result S) (l : list A) (s : S)
  : Result S :=
  match l with
  | [] => Ok s
  | a :: rest => s' <- f s a ;; foldM f rest s'
  end.

(** *** The host's JSON tree builder (utils/adt/jsonb_util.c)

    [pushJsonbValue] keeps a stack of the containers under construction.
    In an object, the token [WJB_KEY] writes the key into the next free
    pair without taking the pair ([appendKey]), and [WJB_VALUE] writes
    the value beside it and takes the pair ([appendValue]). Closing a
    container appends it to its parent as an element or as a value;
    closing an object first sorts its pairs by key and drops duplicate
    keys ([uniqueifyJsonbObject]). *)

Inductive JsonbIteratorToken : Type :=
| WJB_DONE
| WJB_KEY
| WJB_VALUE
| WJB_ELEM
| WJB_BEGIN_ARRAY
| WJB_END_ARRAY
| WJB_BEGIN_OBJECT
| WJB_END_OBJECT.

Inductive Container : Type :=
| ArrayUnderway (elems : list JsonbValue)
| ObjectUnderway (pairs : list (string * JsonbValue)) (key : option string).

(** The innermost container first; the empty list is the null state. *)
Definition JsonbParseState : Type := list Container.

Definition lengthCompareJsonbStringValue (a b : string) : comparison :=
  match Nat.compare (String.length a) (String.length b) with
  | Eq => String.compare a b
  | c => c
  end.

Fixpoint insert_pair (p : string * JsonbValue)
  (sorted : list (string * JsonbValue)) : list (string * JsonbValue) :=
  match sorted with
  | [] => [p]
  | q :: rest =>
      match lengthCompareJsonbStringValue (fst p) (fst q) with
      | Lt => p :: q :: rest
      | Eq => p :: rest
      | Gt => q :: insert_pair p rest
      end
  end.

Definition uniqueifyJsonbObject (pairs : list (string * JsonbValue))
  : list (string * JsonbValue) :=
  fold_left (fun sorted p => insert_pair p sorted) pairs [].

Definition appendElement (pstate : JsonbParseState) (v : JsonbValue)
  : Result JsonbParseState :=
  match pstate with
  | ArrayUnderway elems :: next => Ok (ArrayUnderway (elems ++ [v]) :: next)
  | _ => Raise (undefined_behaviour "appendElement")
  end.

Definition appendKey (pstate : JsonbParseState) (v : JsonbValue)
  : Result JsonbParseState :=
  match pstate, v with
  | ObjectUnderway pairs _ :: next, jbvString k =>
      Ok (ObjectUnderway pairs (Some k) :: next)
  | _, _ => Raise (undefined_behaviour "appendKey")
  end.

Definition appendValue (pstate : JsonbParseState) (v : JsonbValue)
  : Result JsonbParseState :=
  match pstate with
  | ObjectUnderway pairs (Some k) :: next =>
      Ok (ObjectUnderway (pairs ++ [(k, v)]) None :: next)
  | _ => Raise (undefined_behaviour "appendValue")
  end.

(** Close the innermost container [done]: pop it and append it to its
    parent, if it has one. *)
Definition closeContainer (done : JsonbValue) (next : JsonbParseState)
  : Result (JsonbParseState * option JsonbValue) :=
  match next with
  | [] => Ok ([], Some done)
  | ArrayUnderway _ :: _ =>
      pstate <- appendElement next done ;; Ok (pstate, Some done)
  | ObjectUnderway _ _ :: _ =>
      pstate <- appendValue next done ;; Ok (pstate, Some done)
  end.

Definition pushJsonbValue (pstate : JsonbParseState) (seq : JsonbIteratorToken)
  (scalarVal : option JsonbValue)
  : Result (JsonbParseState * option JsonbValue) :=
  match seq, scalarVal with
  | WJB_BEGIN_ARRAY, None =>
      Ok (ArrayUnderway [] :: pstate, Some (jbvArray []))
  | WJB_BEGIN_OBJECT, None =>
      Ok (ObjectUnderway [] None :: pstate, Some (jbvObject []))
  | WJB_KEY, Some v => pstate <- appendKey pstate v ;; Ok (pstate, None)
  | WJB_VALUE, Some v => pstate <- appendValue pstate v ;; Ok (pstate, None)
  | WJB_ELEM, Some v => pstate <- appendElement pstate v ;; Ok (pstate, None)
  | WJB_END_OBJECT, None =>
      match pstate with
      | ObjectUnderway pairs _ :: next =>
          closeContainer (jbvObject (uniqueifyJsonbObject pairs)) next
      | _ => Raise (undefined_behaviour "pushJsonbValue")
      end
  | WJB_END_ARRAY, None =>
      match pstate with
      | ArrayUnderway elems :: next => closeContainer (jbvArray elems) next
      | _ => Raise (undefined_behaviour "pushJsonbValue")
      end
  | _, _ => Raise (undefined_behaviour "pushJsonbValue")
  end.

(** *** The JSON tree walker, towards the database *)

Section JsonbEncode.

Variable pg : Host.
Variable js : Engine.

(** [printf]'s [%03d]. *)
Definition format_03d (z : Z) : string :=
  let digits := Cnum.decimal (Z.abs z) in
  let width := if z <? 0 then 2%nat else 3%nat in
  let padded :=
    (String.concat "" (repeat "0" (width - String.length digits))
       ++ digits)%string in
  if z <? 0 then ("-" ++ padded)%string else padded.

(** The text is written into a buffer of 25 bytes. *)
Definition TimeAs8601 (millis : float) : Result string :=
  t <- Cnum.cast_double_signed 64 "(time_t) (millis / 1000)"
         (millis / 1000)%float ;;
  let tmp := strftime_gmtime pg t in
  let fractional := Cnum.modf_fractional (millis / 1000)%float in
  ms <- Cnum.cast_double_signed 32 "(int) (fractional * 1000)"
          (fractional * 1000)%float ;;
  let buf := (tmp ++ "." ++ format_03d ms ++ "Z")%string in
  if (String.length buf <? 25)%nat then Ok buf
  else Raise (undefined_behaviour "sprintf past the end of buf").

(** A [jbvString] whose [val.string.val] is the [char *] [val] and
    whose [val.string.len] is [len]: the tree keeps the [len] bytes
    found at [val]. Up to the length of the text these are its first
    bytes; one more is its terminator; any further lie behind the
    terminator, where nothing has been written. *)
Definition jbvString_of (val : option string) (len : nat) : Result JsonbValue :=
  match val with
  | Some s =>
      if (len <=? String.length s)%nat then
        Ok (jbvString (String.substring 0 len s))
      else if (len =? S (String.length s))%nat then
        Ok (jbvString (s ++ String Ascii.zero EmptyString))
      else Raise (undefined_behaviour "string.len behind the end of string.val")
  | None =>
      if (len =? 0)%nat then Ok (jbvString "")
      else Raise (undefined_behaviour "string.len of a null string.val")
  end.

(** The string form of a value, as a [jbvString]: the bytes are the
    text in the database encoding, the length that of the UTF-8
    text. *)
Definition jbvString_of_value (value : Value) : Result JsonbValue :=
  let utf8 := Utf8Value js value in
  val <- ToCStringCopy pg utf8 ;;
  jbvString_of val
    match utf8 with Some s => String.length s | None => O end.

(** [LogType(value, false)] only writes notices, which are not
    represented. *)
Definition JsonbFromValue (pstate : JsonbParseState) (value : Value)
  (type : JsonbIteratorToken)
  : Result (JsonbParseState * option JsonbValue) :=
  match type with
  | WJB_KEY =>
      (* if the token type is a key, the only valid value is jbvString *)
      val <- jbvString_of_value value ;;
      pushJsonbValue pstate type (Some val)
  | _ =>
      if IsBoolean value then
        pushJsonbValue pstate type (Some (jbvBool (BooleanValue value)))
      else if IsNull value then
        pushJsonbValue pstate type (Some jbvNull)
      else if IsUndefined value then
        Ok (pstate, None)
      else if IsString value then
        val <- jbvString_of_value value ;;
        pushJsonbValue pstate type (Some val)
      else if IsNumber value then
        if IsInt32 value then
          pushJsonbValue pstate type
            (Some (jbvNumeric (int_numeric (Int32Value value))))
        else if IsUint32 value then
          pushJsonbValue pstate type
            (Some (jbvNumeric (int_numeric (Uint32Value value))))
        else
          n <- float8_numeric pg (NumberValue value) ;;
          pushJsonbValue pstate type (Some (jbvNumeric n))
      else if IsDate value then
        let t := NumberValue value in
        if is_nan t then pushJsonbValue pstate type (Some jbvNull)
        else
          buf <- TimeAs8601 t ;;
          val <- jbvString_of (Some buf) 24 ;;
          pushJsonbValue pstate type (Some val)
      else
        val <- jbvString_of_value value ;;
        pushJsonbValue pstate type (Some val)
  end.

(** The two walkers. An object is walked over the names
    [GetOwnPropertyNames] lists, each read back with [Get]: its own
    enumerable properties in order. Only a plain object is given any
    here; the index properties of a typed array are not represented. *)
Fixpoint JsonbArrayFromArray (pstate : JsonbParseState) (object : Value)
  {struct object} : Result (JsonbParseState * option JsonbValue) :=
  '(pstate, _) <- pushJsonbValue pstate WJB_BEGIN_ARRAY None ;;
  pstate <-
    match object with
    | VArray a =>
        foldM (fun pstate o =>
                 '(pstate, _) <-
                   (if IsArray o then JsonbArrayFromArray pstate o
                    else if IsObject o then JsonbObjectFromObject pstate o
                    else JsonbFromValue pstate o WJB_ELEM) ;;
                 Ok pstate) a pstate
    | _ => Ok pstate
    end ;;
  pushJsonbValue pstate WJB_END_ARRAY None

with JsonbObjectFromObject (pstate : JsonbParseState) (object : Value)
  {struct object} : Result (JsonbParseState * option JsonbValue) :=
  '(pstate, _) <- pushJsonbValue pstate WJB_BEGIN_OBJECT None ;;
  pstate <-
    match object with
    | VObject props =>
        foldM (fun pstate '(v, o) =>
                 '(pstate, _) <- JsonbFromValue pstate (VString v) WJB_KEY ;;
                 '(pstate, _) <-
                   (if IsDate o then JsonbFromValue pstate o WJB_VALUE
                    else if IsArray o then JsonbArrayFromArray pstate o
                    else if IsObject o then JsonbObjectFromObject pstate o
                    else JsonbFromValue pstate o WJB_VALUE) ;;
                 Ok pstate) props pstate
    | _ => Ok pstate
    end ;;
  pushJsonbValue pstate WJB_END_OBJECT None.

(** The body of the loop of [JsonbObjectFromObject]: the key of one
    property and then its value. *)
Definition object_property (pstate : JsonbParseState) (property : string * Value)
  : Result JsonbParseState :=
  let '(v, o) := property in
  '(pstate, _) <- JsonbFromValue pstate (VString v) WJB_KEY ;;
  '(pstate, _) <-
    (if IsDate o then JsonbFromValue pstate o WJB_VALUE
     else if IsArray o then JsonbArrayFromArray pstate o
     else if IsObject o then JsonbObjectFromObject pstate o
     else JsonbFromValue pstate o WJB_VALUE) ;;
  Ok pstate.

(** The conversion runs in a memory context of its own, which is
    deleted afterwards; [JsonbValueToJsonb] serialises the tree, which
    stands here for its serialisation. *)
Definition ConvertObject (object : Value) : Result JsonbValue :=
  let pstate : JsonbParseState := [] in
  '(_, val) <-
    (if IsArray object then JsonbArrayFromArray pstate object
     else if IsObject object then JsonbObjectFromObject pstate object
     else
       '(pstate, _) <- pushJsonbValue pstate WJB_BEGIN_ARRAY None ;;
       '(pstate, _) <- JsonbFromValue pstate object WJB_ELEM ;;
       pushJsonbValue pstate WJB_END_ARRAY None) ;;
  match val with
  | Some root => Ok root
  | None => Raise (undefined_behaviour "JsonbValueToJsonb(NULL)")
  end.

End JsonbEncode.

(** *** The JSON tree walker, towards the engine *)

(** The tokens [JsonbIteratorNext] yields over a tree, without skipping
    nested containers; a scalar at the root is iterated as an array of
    one element. The final [WJB_DONE] is the end of the list. *)
Fixpoint jsonb_tokens (j : JsonbValue) : list (JsonbIteratorToken * JsonbValue) :=
  match j with
  | jbvArray elems =>
      (WJB_BEGIN_ARRAY, jbvNull)
        :: List.concat
             (List.map (fun e =>
                          match e with
                          | jbvArray _ | jbvObject _ => jsonb_tokens e
                          | scalar => [(WJB_ELEM, scalar)]
                          end) elems)
        ++ [(WJB_END_ARRAY, jbvNull)]
  | jbvObject pairs =>
      (WJB_BEGIN_OBJECT, jbvNull)
        :: List.concat
             (List.map (fun '(k, v) =>
                          (WJB_KEY, jbvString k)
                            :: match v with
                               | jbvArray _ | jbvObject _ => jsonb_tokens v
                               | scalar => [(WJB_VALUE, scalar)]
                               end) pairs)
        ++ [(WJB_END_OBJECT, jbvNull)]
  | scalar =>
      [(WJB_BEGIN_ARRAY, jbvNull); (WJB_ELEM, scalar); (WJB_END_ARRAY, jbvNull)]
  end.

(** [container->Set(index, v)] and [container->Set(key, v)]. *)
Fixpoint set_nth (l : list Value) (i : nat) (v : Value) : list Value :=
  match l, i with
  | [], O => [v]
  | [], S i' => VUndefined :: set_nth [] i' v
  | _ :: rest, O => v :: rest
  | x :: rest, S i' => x :: set_nth rest i' v
  end.

(** The own enumerable properties of an object after [Set(key, v)],
    which runs the engine's [[Set]]. A property the object has keeps
    its place and takes the value. Else the name ["__proto__"] reaches
    the setter of [Object.prototype] and makes no property (the
    prototype it may change is not represented); an array index, the
    canonical text of a whole number from 0 to 2^32 - 2, is put among
    the array indices, which are enumerated first and in ascending
    order; any other name is put last. *)
Definition array_index (k : string) : option Z :=
  match NilZero.int_of_string k with
  | Some d =>
      let n := Z.of_int d in
      if String.eqb (Cnum.decimal n) k && (0 <=? n) && (n <=? 2 ^ 32 - 2)
      then Some n
      else None
  | None => None
  end.

Fixpoint replace_prop (props : list (string * Value)) (k : string) (v : Value)
  : list (string * Value) :=
  match props with
  | [] => []
  | (k', v') :: rest =>
      if String.eqb k k' then (k, v) :: rest
      else (k', v') :: replace_prop rest k v
  end.

Fixpoint insert_index (props : list (string * Value)) (n : Z) (k : string)
  (v : Value) : list (string * Value) :=
  match props with
  | [] => [(k, v)]
  | (k', v') :: rest =>
      match array_index k' with
      | Some n' =>
          if n' <? n then (k', v') :: insert_index rest n k v
          else (k, v) :: props
      | None => (k, v) :: props
      end
  end.

Definition set_prop (props : list (string * Value)) (k : string) (v : Value)
  : list (string * Value) :=
  if existsb (fun p => String.eqb k (fst p)) props then replace_prop props k v
  else if String.eqb k "__proto__" then props
  else
    match array_index k with
    | Some n => insert_index props n k v
    | None => props ++ [(k, v)]
    end.

Definition Set_index (container : Value) (i : Z) (v : Value) : Result Value :=
  match container with
  | VArray elems => Ok (VArray (set_nth elems (Z.to_nat i) v))
  | VObject props => Ok (VObject (set_prop props (Cnum.decimal i) v))
  | _ => Raise (undefined_behaviour "Set")
  end.

Definition Set_key (container : Value) (key : option Value) (v : Value)
  : Result Value :=
  match key, container with
  | Some (VString k), VObject props => Ok (VObject (set_prop props k v))
  | _, _ => Raise (undefined_behaviour "Set")
  end.

Section JsonbDecode.

Variable pg : Host.

Definition GetJsonbValue (scalarVal : JsonbValue) : Result Value :=
  match scalarVal with
  | jbvNull => Ok VNull
  | jbvString s =>
      (* [strncpy] into [t] and [String::NewFromUtf8(isolate, t)]: the
         text up to its first NUL *)
      Ok (VString (c_str s))
  | jbvNumeric n => d <- numeric_float8 pg n ;; Ok (VNumber d)
  | jbvBool b => Ok (VBoolean b)
  | _ => Raise (ereport_ERROR "unknown jsonb scalar type")
  end.

(** The loop of [JsonbIterate] over the tokens that remain, with its
    locals [count] and [key]; it returns the container and the tokens
    left to the caller. Every turn takes one token, so a fuel of the
    number of tokens is never used up. *)
Fixpoint JsonbIterate_loop (fuel : nat)
  (it : list (JsonbIteratorToken * JsonbValue)) (container : Value)
  (count : Z) (key : option Value)
  : Result (Value * list (JsonbIteratorToken * JsonbValue)) :=
  match fuel with
  | O => Raise (undefined_behaviour "out of fuel")
  | S fuel =>
      match it with
      | [] => Ok (container, [])
      | (token, val) :: it =>
          match token with
          | WJB_BEGIN_OBJECT | WJB_BEGIN_ARRAY =>
              let obj := match token with
                         | WJB_BEGIN_OBJECT => VObject []
                         | _ => VArray []
                         end in
              '(inner, it) <- JsonbIterate_loop fuel it obj 0 None ;;
              if IsArray container then
                container <- Set_index container count inner ;;
                JsonbIterate_loop fuel it container (count + 1) key
              else
                container <- Set_key container key inner ;;
                JsonbIterate_loop fuel it container count key
          | WJB_END_OBJECT | WJB_END_ARRAY | WJB_DONE => Ok (container, it)
          | WJB_KEY =>
              k <- GetJsonbValue val ;;
              JsonbIterate_loop fuel it container count (Some k)
          | WJB_VALUE =>
              v <- GetJsonbValue val ;;
              container <- Set_key container key v ;;
              JsonbIterate_loop fuel it container count key
          | WJB_ELEM =>
              v <- GetJsonbValue val ;;
              container <- Set_index container count v ;;
              JsonbIterate_loop fuel it container (count + 1) key
          end
      end
  end.

Definition ConvertJsonb (root : JsonbValue) : Result Value :=
  match jsonb_tokens root with
  | [] => Ok (VObject [])
  | (token, _) :: it =>
      let container := match token with
                       | WJB_BEGIN_ARRAY => VArray []
                       | _ => VObject []
                       end in
      '(container, _) <-
        JsonbIterate_loop (S (List.length it)) it container 0 None ;;
      Ok container
  end.

End JsonbDecode.

(** *** Arrays of the host (utils/array.h, utils/adt/arrayfuncs.c) *)

Definition MAXDIM : Z := 6.

Definition ArrayGetNItems (ndim : Z) (dims : list Z) : Z :=
  if ndim <=? 0 then 0 else fold_left Z.mul dims 1.

Definition construct_empty_array (elmtype : Oid) : ArrayType Datum :=
  {| arr_ndim := 0; arr_hasnull := false; arr_elemtype := elmtype;
     arr_dims := []; arr_lbound := []; arr_elems := [] |}.

(** [construct_md_array]: an array of the given dimensions over the
    elements; when it would hold no element the result is the empty
    array, which has no dimension. Limits on the size of an allocation
    are not represented. *)
Definition construct_md_array (elems : list (Datum * bool)) (ndims : Z)
  (dims lbs : list Z) (elmtype : Oid) : Result (ArrayType Datum) :=
  if ndims <? 0 then
    Raise (ereport_ERROR "invalid number of dimensions")
  else if MAXDIM <? ndims then
    Raise (ereport_ERROR "number of array dimensions exceeds the maximum allowed")
  else if ArrayGetNItems ndims dims <=? 0 then
    Ok (construct_empty_array elmtype)
  else
    Ok {| arr_ndim := ndims;
          arr_hasnull := existsb snd elems;
          arr_elemtype := elmtype;
          arr_dims := dims;
          arr_lbound := lbs;
          arr_elems := elems |}.

(** [deconstruct_array]: the elements in storage order with their null
    flags. *)
Definition deconstruct_array (a : ArrayType Datum) : list (Datum * bool) :=
  arr_elems a.

Definition DatumGetArrayTypeP (datum : Datum) : Result (ArrayType Datum) :=
  match datum with
  | DatumArray a => Ok a
  | _ => Raise (undefined_behaviour "DatumGetArrayTypeP")
  end.

Definition ARR_HASNULL (a : ArrayType Datum) : bool := arr_hasnull a.
Definition ARR_NDIM (a : ArrayType Datum) : Z := arr_ndim a.

Definition ARR_OVERHEAD_WITHNULLS (ndims nitems : Z) : Z :=
  MAXALIGN (16 + 2 * 4 * ndims + (nitems + 7) / 8).

(** *** The engine's buffers *)

(** [v8::ArrayBuffer::New(isolate, byte_size)]: a zero-filled buffer.
    The size is a [size_t]; a negative [int] arrives as a size no
    allocation can serve, on which the engine aborts the process.
    Failures of an allocation of a possible size are not represented. *)
Definition ArrayBuffer_New (byte_size : Z) : Result (option (list byte)) :=
  if byte_size <? 0 then Raise (engine_abort "v8::ArrayBuffer::New")
  else Ok (Some (repeat x00 (Z.to_nat byte_size))).

(** [memcpy(dst, src, n)] *)
Definition memcpy (dst src : list byte) (n : Z) : Result (list byte) :=
  if (0 <=? n) && (n <=? byte_length src) && (n <=? byte_length dst)
  then Ok (firstn (Z.to_nat n) src ++ skipn (Z.to_nat n) dst)
  else Raise (undefined_behaviour "memcpy").

(** ECMAScript's TimeClip, which [Date::New] applies to the time value
    it is given: whole milliseconds within 8.64e15 of the epoch, or
    NaN. *)
Definition TimeClip (time : float) : float :=
  match Cnum.truncate time with
  | Some z =>
      if Z.abs z <=? 8640000000000000 then Cnum.double_of_Z z else nan
  | None => nan
  end.

Definition Date_New (time : float) : Value := VDate (TimeClip time).

(** *** The converters *)

(** The input function of a type and the parameter it takes: those the
    descriptor holds, or those looked up when its [fn_input.fn_addr] is
    still [NULL]. The descriptor keeps what was looked up; the handle
    it keeps is the one a later lookup would return, and the updated
    descriptor is not passed on. *)
Definition input_function (pg : Host) (type : plv8_type) : Result (Oid * Oid) :=
  match fn_input type with
  | Some f => Ok (f, ioparam type)
  | None => getTypeInputInfo pg (typid type)
  end.

Section Codec.

Variable cfg : Config.
Variable pg : Host.
Variable js : Engine.

(** [plv8_fill_type]; the memory context is not represented. *)
Definition plv8_fill_type (type : plv8_type) (typid : Oid) : Result plv8_type :=
  category <- get_type_category_preferred pg typid ;;
  '(len, byval, align) <- get_typlenbyvalalign pg typid ;;
  let type :=
    {| typid := typid; ioparam := ioparam type; len := len; byval := byval;
       align := align; category := category;
       is_composite := Ascii.eqb category TYPCATEGORY_COMPOSITE;
       fn_input := fn_input type; fn_output := fn_output type;
       ext_array := ext_array type |} in
  type <-
    (if Ascii.eqb (get_typtype pg typid) TYPTYPE_DOMAIN then
       match typname_of pg typid with
       | Some typname =>
           (* Check if the type is the external array types. *)
           let ext :=
             if String.eqb typname "plv8_int2array" then Some kExternalShortArray
             else if String.eqb typname "plv8_int4array" then Some kExternalIntArray
             else if String.eqb typname "plv8_float4array" then Some kExternalFloatArray
             else if String.eqb typname "plv8_float8array" then Some kExternalDoubleArray
             else if String.eqb typname "plv8_int8array" then Some kExternalInt64Array
             else ext_array type in
           Ok {| typid := typid; ioparam := ioparam type; len := len;
                 byval := byval; align := align; category := category;
                 is_composite := is_composite type;
                 fn_input := fn_input type; fn_output := fn_output type;
                 ext_array := ext |}
       | None =>
           Raise (ereport_ERROR
                    ("cache lookup failed for type " ++ Cnum.decimal typid))
       end
     else Ok type) ;;
  if Ascii.eqb (get_typtype pg typid) TYPTYPE_DOMAIN
     && match ext_array type with Some _ => true | None => false end
  then Ok type
  else if Ascii.eqb category TYPCATEGORY_ARRAY then
    let elemid := get_element_type pg typid in
    if elemid =? InvalidOid then
      Raise (ereport_ERROR
               ("cannot determine element type of array: " ++ Cnum.decimal typid))
    else
      elemcat <- TypeCategory pg elemid ;;
      '(len, byval, align) <- get_typlenbyvalalign pg elemid ;;
      Ok {| typid := elemid; ioparam := ioparam type; len := len;
            byval := byval; align := align; category := category;
            is_composite := Ascii.eqb elemcat TYPCATEGORY_COMPOSITE;
            fn_input := fn_input type; fn_output := fn_output type;
            ext_array := ext_array type |}
  else Ok type.

(** The typed array the switch of [CreateExternalArray] builds over
    the buffer for each kind. The arm of [kExternalInt64Array] has no
    [break]: after building its view control runs on into the default
    arm, which throws. *)
Definition external_array_view (array_type : plv8_external_array_type)
  : Result TypedArrayKind :=
  let default_arm : Result TypedArrayKind :=
    Raise (js_error "unexpected array type") in
  match array_type with
  | kExternalByteArray => Ok Int8Array
  | kExternalUnsignedByteArray => Ok Uint8Array
  | kExternalShortArray => Ok Int16Array
  | kExternalUnsignedShortArray => Ok Uint16Array
  | kExternalIntArray => Ok Int32Array
  | kExternalUnsignedIntArray => Ok Uint32Array
  | kExternalFloatArray => Ok Float32Array
  | kExternalDoubleArray => Ok Float64Array
  | kExternalInt64Array =>
      let array := BigInt64Array in
      default_arm
  end.

Definition CreateExternalArray (data : list byte)
  (array_type : plv8_external_array_type) (byte_size : Z) (datum : Datum)
  : Result Value :=
  buffer <- ArrayBuffer_New byte_size ;;
  match buffer with
  | None => Raise empty_handle
  | Some buffer =>
      array <- external_array_view array_type ;;
      (* needs to be a copy, as the data could go away *)
      contents <- memcpy buffer data byte_size ;;
      Ok (VTypedArray array contents (Some datum))
  end.

(** [ExtractExternalArrayDatum]: the pointer kept in internal field 0 of
    a typed array. The field is cast to an [External] without a test;
    in a typed array that [CreateExternalArray] did not make it holds
    none, and [Value()] reads whatever lies there. *)
Definition ExtractExternalArrayDatum (value : Value) : Result (option Datum) :=
  if IsUndefined value || IsNull value then Ok None
  else
    match value with
    | VTypedArray _ _ (Some datum) => Ok (Some datum)
    | VTypedArray _ _ None =>
        Raise (undefined_behaviour "External::Value() of internal field 0")
    | _ => Ok None
    end.

Definition ToRecordDatum (value : Value) (type : plv8_type)
  : Result (Datum * bool) :=
  if IsUndefined value || IsNull value then Ok (Datum0, true)
  else
    tupdesc <- PG_TRY (lookup_rowtype_tupdesc pg (typid type) (-1)) ;;
    result <- Converter_ToDatum js tupdesc value ;;
    Ok (result, false).

(** [CStringGetTextDatum(str)] *)
Definition CStringGetTextDatum (str : option string) : Result Datum :=
  match str with
  | Some s => Ok (DatumVarlena (bytes_of_string s))
  | None => Raise (undefined_behaviour "cstring_to_text(NULL)")
  end.

(** The bytes an arm of the [BYTEAOID] case copies out of a typed
    array: [len] elements of [width] bytes from the start of its
    buffer. *)
Definition bytea_of_buffer (contents : list byte) (len width : Z)
  : Result Datum :=
  payload <- memcpy (repeat x00 (Z.to_nat (len * width))) contents (len * width) ;;
  Ok (DatumVarlena payload).

Definition typed_contents (value : Value) : list byte :=
  match value with
  | VTypedArray _ contents _ => contents
  | VArrayBuffer contents => contents
  | _ => []
  end.

Definition typed_Length (value : Value) : Z :=
  match value with
  | VTypedArray kind contents _ => byte_length contents / element_size kind
  | _ => 0
  end.

(** Use lexical cast for non-numeric types. *)
Definition lexical_cast (value : Value) (type : plv8_type) : Result Datum :=
  str <- CString pg js value ;;
  PG_TRY (
    '(input_func, ioparam) <- input_function pg type ;;
    InputFunctionCall pg input_func str ioparam (-1)).

(** The cases [JSONOID] and [JSONBOID] of the switch of
    [ToScalarDatum]. [Some] is a [return] out of the case, [None] its
    [break]. *)
Definition case_JSONOID (value : Value) : option (Result Datum) :=
  if IsObject value || IsArray value then
    Some (str <- CString pg js (JSON_Stringify js value) ;;
          CStringGetTextDatum str)
  else None.

Definition case_JSONBOID (value : Value) : option (Result Datum) :=
  if JSONB_DIRECT_CONVERSION cfg then
    Some (obj <- ConvertObject pg js value ;; Ok (DatumJsonb obj))
  else if IsObject value || IsArray value then
    Some (str <- CString pg js (JSON_Stringify js value) ;;
          root <- jsonb_in pg str ;;
          Ok (DatumJsonb root))
  else None.

(** The case [BYTEAOID]. Its block ends without a [break], so when
    none of its arms returns, control runs on into the case that
    follows it in the file: [JSONBOID] from version 9.4, [JSONOID]
    from 9.2, the end of the switch before. *)
Definition case_BYTEAOID (value : Value) : option (Result Datum) :=
  if IsKind Uint8Array value || IsKind Int8Array value then
    Some (bytea_of_buffer (typed_contents value) (typed_Length value) 1)
  else if IsKind Uint16Array value || IsKind Int16Array value then
    Some (bytea_of_buffer (typed_contents value) (typed_Length value) 2)
  else if IsKind Uint32Array value || IsKind Int32Array value then
    Some (bytea_of_buffer (typed_contents value) (typed_Length value) 4)
  else if IsArrayBuffer value then
    Some (bytea_of_buffer (typed_contents value)
            (byte_length (typed_contents value)) 1)
  else
    match ExtractExternalArrayDatum value with
    | inl e => Some (Raise e)
    | inr (Some datum_p) => Some (Ok datum_p)
    | inr None =>
        if 90400 <=? PG_VERSION_NUM cfg then case_JSONBOID value
        else if 90200 <=? PG_VERSION_NUM cfg then case_JSONOID value
        else None
    end.

(** The switch of [ToScalarDatum] over [type->typid]. *)
Definition scalar_switch (value : Value) (typid : Oid)
  : option (Result Datum) :=
  if typid =? OIDOID then
    if IsNumber value then Some (Ok (ObjectIdGetDatum (Uint32Value value)))
    else None
  else if typid =? BOOLOID then
    if IsBoolean value then Some (Ok (BoolGetDatum (BooleanValue value)))
    else None
  else if typid =? INT2OID then
    if IsNumber value then
      if CHECK_INTEGER_OVERFLOW cfg then
        Some (z <- int82 (IntegerValue value) ;; Ok (Int16GetDatum z))
      else
        Some (Ok (Int16GetDatum (Cnum.wrap_signed 16 (Int32Value value))))
    else None
  else if typid =? INT4OID then
    if IsNumber value then
      if CHECK_INTEGER_OVERFLOW cfg then
        Some (z <- int84 (IntegerValue value) ;; Ok (Int32GetDatum z))
      else Some (Ok (Int32GetDatum (Int32Value value)))
    else None
  else if typid =? INT8OID then
    if IsBigInt value then Some (Ok (Int64GetDatum (Int64Value value)))
    else if IsNumber value then Some (Ok (Int64GetDatum (IntegerValue value)))
    else None
  else if typid =? FLOAT4OID then
    if IsNumber value then
      Some (Ok (Float4GetDatum (Cnum.float4_of_double (NumberValue value))))
    else None
  else if typid =? FLOAT8OID then
    if IsNumber value then Some (Ok (Float8GetDatum (NumberValue value)))
    else None
  else if typid =? NUMERICOID then
    if IsBigInt value then
      Some (n <- numeric_in pg (Utf8Value js value) ;; Ok (DatumNumeric n))
    else if IsNumber value then
      Some (n <- float8_numeric pg (NumberValue value) ;; Ok (DatumNumeric n))
    else None
  else if typid =? DATEOID then
    if IsDate value then Some (EpochToDate cfg (NumberValue value))
    else None
  else if (typid =? TIMESTAMPOID) || (typid =? TIMESTAMPTZOID) then
    if IsDate value then Some (EpochToTimestampTz cfg (NumberValue value))
    else None
  else if typid =? BYTEAOID then case_BYTEAOID value
  else if (typid =? JSONBOID) && (90400 <=? PG_VERSION_NUM cfg) then
    case_JSONBOID value
  else if (typid =? JSONOID) && (90200 <=? PG_VERSION_NUM cfg) then
    case_JSONOID value
  else None.

Definition ToScalarDatum (value : Value) (type : plv8_type)
  : Result (Datum * bool) :=
  if Ascii.eqb (category type) TYPCATEGORY_COMPOSITE then
    ToRecordDatum value type
  else if IsUndefined value || IsNull value then Ok (Datum0, true)
  else
    match scalar_switch value (typid type) with
    | Some returned => datum <- returned ;; Ok (datum, false)
    | None => datum <- lexical_cast value type ;; Ok (datum, false)
    end.

(** The body of the loop of [ToArrayDatum]: the conversion of one
    element, with its null flag. *)
Definition encode_element (type : plv8_type) (element : Value)
  : Result (Datum * bool) :=
  if is_composite type then ToRecordDatum element type
  else ToScalarDatum element type.

Definition ToArrayDatum (value : Value) (type : plv8_type)
  : Result (Datum * bool) :=
  if IsUndefined value || IsNull value then Ok (Datum0, true)
  else
    datum_p <- ExtractExternalArrayDatum value ;;
    match datum_p with
    | Some datum_p => Ok (datum_p, false)
    | None =>
        match value with
        | VArray array =>
            let length := Z.of_nat (List.length array) in
            elems <- mapM (encode_element type) array ;;
            result <- construct_md_array elems 1 [length] [1] (typid type) ;;
            Ok (DatumArray result, false)
        | _ => Raise (js_error "value is not an Array")
        end
    end.

Definition ToDatum (value : Value) (type : plv8_type) : Result (Datum * bool) :=
  if Ascii.eqb (category type) TYPCATEGORY_ARRAY then ToArrayDatum value type
  else ToScalarDatum value type.

End Codec.

Section Decode.

Variable cfg : Config.
Variable pg : Host.
Variable js : Engine.

(** [ARR_SIZE(array)], the size of the whole value: its header and
    its packed elements. *)
Definition ARR_SIZE (a : ArrayType Datum) : Z :=
  (if ARR_HASNULL a
   then ARR_OVERHEAD_WITHNULLS (ARR_NDIM a) (ArrayGetNItems (ARR_NDIM a) (arr_dims a))
   else ARR_OVERHEAD_NONULLS (ARR_NDIM a))
  + byte_length (ARR_DATA pg a).

(** The case [INT8OID] of [ToScalarValue] under [BIGINT_GRACEFUL]:
    the text is printed into [char str[20]]. *)
Definition graceful_bigint (v : Z) : Result Value :=
  if (Cnum.INT32_MAX <? v) || (v <? Cnum.INT32_MIN) then
    let text := Cnum.decimal v in
    if (String.length text <? 20)%nat then
      str <- ToString pg (Some text) (GetDatabaseEncoding pg) ;;
      Ok (VString str)
    else Raise (undefined_behaviour "sprintf past the end of str")
  else Ok (VNumber (Cnum.double_of_Z v)).

Definition ToScalarValue (datum : Datum) (isnull : bool) (type : plv8_type)
  : Result Value :=
  let typid := typid type in
  if typid =? OIDOID then
    (* [Uint32::New] is [Integer::New(Isolate *, int32_t)], which
       [Uint32] inherits: the [Oid] is converted to [int32_t]. *)
    w <- DatumGetWord "DatumGetObjectId" datum ;;
    Ok (VNumber (Cnum.double_of_Z (Cnum.wrap_signed 32 w)))
  else if typid =? BOOLOID then
    w <- DatumGetWord "DatumGetBool" datum ;;
    Ok (VBoolean (negb (w =? 0)))
  else if typid =? INT2OID then
    w <- DatumGetWord "DatumGetInt16" datum ;;
    Ok (VNumber (Cnum.double_of_Z (Cnum.wrap_signed 16 w)))
  else if typid =? INT4OID then
    w <- DatumGetWord "DatumGetInt32" datum ;;
    Ok (VNumber (Cnum.double_of_Z (Cnum.wrap_signed 32 w)))
  else if typid =? INT8OID then
    w <- DatumGetWord "DatumGetInt64" datum ;;
    let v := Cnum.wrap_signed 64 w in
    if BIGINT_GRACEFUL cfg then graceful_bigint v
    else Ok (VBigInt v)
  else if (typid =? FLOAT4OID) || (typid =? FLOAT8OID) then
    d <- DatumGetFloat "DatumGetFloat" datum ;;
    Ok (VNumber d)
  else if typid =? NUMERICOID then
    match datum with
    | DatumNumeric n => d <- numeric_float8 pg n ;; Ok (VNumber d)
    | _ => Raise (undefined_behaviour "DatumGetNumeric")
    end
  else if typid =? DATEOID then
    w <- DatumGetWord "DatumGetDateADT" datum ;;
    Ok (Date_New (DateToEpoch cfg (Cnum.wrap_signed 32 w)))
  else if (typid =? TIMESTAMPOID) || (typid =? TIMESTAMPTZOID) then
    tm <- DatumGetTimestampTz cfg datum ;;
    Ok (Date_New (TimestampTzToEpoch tm))
  else if (typid =? TEXTOID) || (typid =? VARCHAROID) || (typid =? BPCHAROID)
          || (typid =? XMLOID) then
    p <- DatumGetVarlena "VARDATA_ANY" datum ;;
    result <- ToString pg (Some (string_of_bytes p)) (GetDatabaseEncoding pg) ;;
    Ok (VString result)
  else if typid =? BYTEAOID then
    p <- DatumGetVarlena "VARDATA_ANY" datum ;;
    CreateExternalArray p kExternalUnsignedByteArray (byte_length p)
      (DatumVarlena p)
  else if (typid =? JSONOID) && (90200 <=? PG_VERSION_NUM cfg) then
    p <- DatumGetVarlena "VARDATA_ANY" datum ;;
    jsonString <- ToString pg (Some (string_of_bytes p)) (GetDatabaseEncoding pg) ;;
    Ok (JSON_Parse js (VString jsonString))
  else if (typid =? JSONBOID) && (90400 <=? PG_VERSION_NUM cfg) then
    if JSONB_DIRECT_CONVERSION cfg then
      match datum with
      | DatumJsonb root => ConvertJsonb pg root
      | _ => Raise (undefined_behaviour "DatumGetJsonb")
      end
    else
      jsonString <- ToString_Datum pg datum type ;;
      Ok (JSON_Parse js (VString jsonString))
  else
    str <- ToString_Datum pg datum type ;;
    Ok (VString str).

Definition ToRecordValue (datum : Datum) (isnull : bool) (type : plv8_type)
  : Result Value :=
  match datum with
  | DatumHeapTuple tupType tupTypmod _ =>
      (* Extract type info from the tuple itself *)
      tupdesc <- PG_TRY (lookup_rowtype_tupdesc pg tupType tupTypmod) ;;
      Converter_ToValue js tupdesc datum
  | _ => Raise (undefined_behaviour "DatumGetHeapTupleHeader")
  end.

(** The descriptor [ToArrayValue] builds for the elements. *)
Definition base_type (type : plv8_type) : Result plv8_type :=
  let base_typid :=
    if typid type =? RECORDARRAYOID then RECORDOID else typid type in
  category <- get_type_category_preferred pg base_typid ;;
  '(len, byval, align) <- get_typlenbyvalalign pg base_typid ;;
  Ok {| typid := base_typid; ioparam := 0; len := len; byval := byval;
        align := align; category := category; is_composite := false;
        fn_input := None; fn_output := None; ext_array := None |}.

(** [ToValue] and [ToArrayValue] call each other; the recursion is on
    the database value, an element of an array being part of it.
    [ToArrayValue_of] is the body of [ToArrayValue] over the
    [ToValue] it calls for the elements. *)
Definition ToArrayValue_of
  (ToValue : Datum -> bool -> plv8_type -> Result Value)
  (datum : Datum) (isnull : bool) (type : plv8_type) : Result Value :=
  match ext_array type with
  | Some ext =>
      (* If we can use an external array, do it instead. *)
      array <- DatumGetArrayTypeP datum ;;
      (* We allow only non-NULL, 1-dim array. *)
      if negb (ARR_HASNULL array) && (ARR_NDIM array <=? 1) then
        let data_bytes := ARR_SIZE array - ARR_OVERHEAD_NONULLS 1 in
        CreateExternalArray (ARR_DATA pg array) ext data_bytes
          (DatumArray array)
      else
        Raise (js_error
          "NULL element, or multi-dimension array not allowed in external array type")
  | None =>
      match datum with
      | DatumArray array =>
          base <- base_type type ;;
          result <-
            mapM (fun '(value, null) => ToValue value null base)
              (deconstruct_array array) ;;
          Ok (VArray result)
      | _ => Raise (undefined_behaviour "DatumGetArrayTypeP")
      end
  end.

Fixpoint ToValue (datum : Datum) (isnull : bool) (type : plv8_type)
  {struct datum} : Result Value :=
  if isnull then Ok VNull
  else if Ascii.eqb (category type) TYPCATEGORY_ARRAY
          || (typid type =? RECORDARRAYOID) then
    ToArrayValue_of ToValue datum isnull type
  else if Ascii.eqb (category type) TYPCATEGORY_COMPOSITE
          || (typid type =? RECORDOID) then
    ToRecordValue datum isnull type
  else ToScalarValue datum isnull type.

Definition ToArrayValue : Datum -> bool -> plv8_type -> Result Value :=
  ToArrayValue_of ToValue.

(** The body of the loop of [ToArrayValue]: the conversion of one
    element under the descriptor of the elements. *)
Definition decode_element (base : plv8_type) (element : Datum * bool)
  : Result Value :=
  let '(value, null) := element in ToValue value null base.

End Decode.

(** *** The kind each case expects

    The kinds of value the cases of the switch of [ToScalarDatum]
    convert themselves, by target type; a type without a case expects
    none. [BYTEAOID] takes the byte-wise typed arrays and a typed array
    that carries a database value; [JSONBOID] under
    [JSONB_DIRECT_CONVERSION] takes every value. *)
Definition expected_kind (cfg : Config) (typid : Oid) (value : Value) : bool :=
  if (typid =? OIDOID) || (typid =? INT2OID) || (typid =? INT4OID)
     || (typid =? FLOAT4OID) || (typid =? FLOAT8OID) then IsNumber value
  else if typid =? BOOLOID then IsBoolean value
  else if (typid =? INT8OID) || (typid =? NUMERICOID) then
    IsBigInt value || IsNumber value
  else if (typid =? DATEOID) || (typid =? TIMESTAMPOID)
          || (typid =? TIMESTAMPTZOID) then IsDate value
  else if typid =? BYTEAOID then
    match value with
    | VTypedArray kind _ internal =>
        match kind, internal with
        | (Uint8Array | Int8Array | Uint16Array | Int16Array
          | Uint32Array | Int32Array), _ => true
        | _, Some _ => true
        | _, None => false
        end
    | VArrayBuffer _ => true
    | _ => false
    end
  else if (typid =? JSONBOID) && (90400 <=? PG_VERSION_NUM cfg) then
    JSONB_DIRECT_CONVERSION cfg || IsObject value || IsArray value
  else if (typid =? JSONOID) && (90200 <=? PG_VERSION_NUM cfg) then
    IsObject value || IsArray value
  else false.

(** The properties of an object whose value is not Undefined. *)
Definition defined_properties (props : list (string * Value))
  : list (string * Value) :=
  filter (fun property => negb (IsUndefined (snd property))) props.

(** Two states of the tree builder that differ at most in the key
    written into the next free pair of the innermost object. *)
Inductive key_apart : JsonbParseState -> JsonbParseState -> Prop :=
| key_apart_same (pstate : JsonbParseState) : key_apart pstate pstate
| key_apart_key (pairs : list (string * JsonbValue)) (k1 k2 : option string)
    (next : JsonbParseState) :
    key_apart (ObjectUnderway pairs k1 :: next) (ObjectUnderway pairs k2 :: next).

(** The ways the lexical cast of [ToScalarDatum] can fail in the
    backend, each with the error the backend raises: the conversion of
    the text to the database encoding, the lookup of the input function
    of the type when the descriptor does not hold it yet, and the input
    function on the text. *)
Inductive lexical_failure (pg : Host) (js : Engine) (value : Value)
  (type : plv8_type) : Error -> Prop :=
| transcoding_fails (utf8 : string) (e : Error) :
    Utf8Value js value = Some utf8 ->
    GetDatabaseEncoding pg <> PG_UTF8 ->
    pg_do_encoding_conversion pg utf8 PG_UTF8 (GetDatabaseEncoding pg) = Raise e ->
    lexical_failure pg js value type e
| lookup_fails (str : option string) (e : Error) :
    CString pg js value = Ok str ->
    input_function pg type = Raise e ->
    lexical_failure pg js value type e
| input_rejects (str : option string) (f ioparam : Oid) (e : Error) :
    CString pg js value = Ok str ->
    input_function pg type = Ok (f, ioparam) ->
    InputFunctionCall pg f str ioparam (-1) = Raise e ->
    lexical_failure pg js value type e.

(** *** Doubles that are integers

    What the theorems on the epoch conversions are stated with. *)

(** The value of a mantissa and an exponent, scaled to an integer. *)
Definition scaled (m e : Z) : Z := m * 2 ^ (e + 1100).

(** The finite float of sign [s], mantissa [m] and exponent [e] is the
    integer [z]. *)
Definition is_float (z : Z) (s : bool) (m : positive) (e : Z) : Prop :=
  Z.pos (digits2_pos m) = 53
  /\ -1074 <= e <= 971
  /\ scaled (cond_Zopp s (Z.pos m)) e = scaled z 0.

(** An integer of at most 53 bits that is not zero. *)
Definition fits53 (z : Z) : Prop := 0 < Z.abs z < 2 ^ 53.

(** *** A backend and an engine to run the converters on

    A small backend for the examples: type names are not looked up,
    the input function of a type has the identifier of the type, and
    only those of boolean and bytea reject anything. [Sample.pg] keeps
    its text in UTF-8; [Sample.pg_ascii] keeps it in an encoding that
    has the ASCII characters only. *)

Module Sample.

Definition SQL_ASCII_ONLY : Z := 8.

Definition is_ascii (s : string) : bool :=
  forallb (fun c => (N.ltb (N_of_ascii c) 128)) (list_ascii_of_string s).

Definition convert (s : string) (src dest : Z) : Result string :=
  if (src =? dest) || is_ascii s then Ok s
  else Raise (ereport_ERROR "character has no equivalent in the encoding").

Definition input (f : Oid) (str : option string) (ioparam : Oid) (typmod : Z)
  : Result Datum :=
  match str with
  | None => Ok Datum0
  | Some s =>
      if f =? BOOLOID then
        if String.eqb s "true" || String.eqb s "t" then Ok (BoolGetDatum true)
        else if String.eqb s "false" || String.eqb s "f" then Ok (BoolGetDatum false)
        else Raise (ereport_ERROR "invalid input syntax for type boolean")
      else if f =? BYTEAOID then
        if String.eqb s "\xZZ" then
          Raise (ereport_ERROR "invalid input syntax for type bytea")
        else Ok (DatumVarlena (bytes_of_string s))
      else Ok (DatumOther f s)
  end.

Definition output (f : Oid) (datum : Datum) : Result string :=
  match datum with
  | DatumOther _ repr => Ok repr
  | DatumWord w => Ok (Cnum.decimal w)
  | _ => Raise (ereport_ERROR "no text form")
  end.

Definition byte_of_Z (z : Z) : byte :=
  match Byte.of_N (Z.to_N (z mod 256)) with
  | Some b => b
  | None => x00
  end.

(** Four bytes for each element, the low byte first. *)
Definition pack (element : Datum * bool) : list byte :=
  match element with
  | (DatumWord w, false) =>
      [byte_of_Z w; byte_of_Z (w / 256); byte_of_Z (w / 65536);
       byte_of_Z (w / 16777216)]
  | _ => []
  end.

Definition host (encoding : Z) : Host := {|
  GetDatabaseEncoding := encoding;
  pg_do_encoding_conversion := convert;
  get_type_category_preferred := fun _ => Ok "N"%char;
  get_typlenbyvalalign := fun _ => Ok (4, true, "i"%char);
  get_typtype := fun _ => "b"%char;
  typname_of := fun _ => None;
  get_element_type := fun _ => InvalidOid;
  TypeCategory := fun _ => Ok "N"%char;
  getTypeInputInfo := fun typid => Ok (typid, typid);
  getTypeOutputInfo := fun typid => Ok typid;
  InputFunctionCall := input;
  OutputFunctionCall := output;
  lookup_rowtype_tupdesc :=
    fun typid typmod =>
      Ok {| tdtypeid := typid; tdtypmod := typmod; tdattrs := [] |};
  float8_numeric := fun _ => Raise (ereport_ERROR "not supported");
  numeric_float8 := fun _ => Raise (ereport_ERROR "not supported");
  numeric_in := fun _ => Raise (ereport_ERROR "not supported");
  jsonb_in := fun _ => Raise (ereport_ERROR "not supported");
  ARR_DATA := fun a => List.concat (List.map pack (arr_elems a));
  strftime_gmtime := fun _ => "1970-01-01T00:00:00"%string
|}.

Definition pg : Host := host PG_UTF8.
Definition pg_ascii : Host := host SQL_ASCII_ONLY.

(** The JSON text of a string of one character outside ASCII (U+2603),
    between its quotes. *)
Definition snowman : string :=
  string_of_list_byte [x22; xe2; x98; x83; x22].

(** An engine whose string coercion knows strings only. *)
Definition js : Engine := {|
  Utf8Value := fun v => match v with
                        | VString s => Some s
                        | _ => Some "[object Object]"%string
                        end;
  JSON_Stringify := fun _ => VString "{}";
  JSON_Parse := fun v => v;
  Converter_ToDatum := fun _ _ => Ok (DatumHeapTuple RECORDOID (-1) []);
  Converter_ToValue := fun _ _ => Ok (VObject [])
|}.

(** A build for a version 11 server: integer timestamps, the direct
    JSONB conversion. *)
Definition cfg : Config := {|
  PG_VERSION_NUM := 110000;
  JSONB_DIRECT_CONVERSION := true;
  BIGINT_GRACEFUL := false;
  CHECK_INTEGER_OVERFLOW := false;
  HAVE_INT64_TIMESTAMP := true
|}.

Definition cfg_graceful : Config := {|
  PG_VERSION_NUM := 110000;
  JSONB_DIRECT_CONVERSION := true;
  BIGINT_GRACEFUL := true;
  CHECK_INTEGER_OVERFLOW := false;
  HAVE_INT64_TIMESTAMP := true
|}.

(** A build for a version 9.6 server with floating-point timestamps. *)
Definition cfg_float_timestamp : Config := {|
  PG_VERSION_NUM := 90600;
  JSONB_DIRECT_CONVERSION := false;
  BIGINT_GRACEFUL := false;
  CHECK_INTEGER_OVERFLOW := false;
  HAVE_INT64_TIMESTAMP := false
|}.

(** The descriptor of a scalar type and that of an array of it, as
    [plv8_fill_type] leaves them. *)
Definition scalar_type (typid : Oid) : plv8_type := {|
  typid := typid; ioparam := 0; len := 4; byval := true; align := "i"%char;
  category := "N"%char; is_composite := false;
  fn_input := None; fn_output := None; ext_array := None
|}.

Definition array_type (elemid : Oid)
  (ext : option plv8_external_array_type) : plv8_type := {|
  typid := elemid; ioparam := 0; len := 4; byval := true; align := "i"%char;
  category := TYPCATEGORY_ARRAY; is_composite := false;
  fn_input := None; fn_output := None; ext_array := ext
|}.

Definition one_dim (elemid : Oid) (elems : list (Datum * bool))
  : ArrayType Datum := {|
  arr_ndim := 1; arr_hasnull := existsb snd elems; arr_elemtype := elemid;
  arr_dims := [Z.of_nat (List.length elems)]; arr_lbound := [1];
  arr_elems := elems
|}.

(** A one-dimensional array of two 64-bit integers, none of them null. *)
Definition two_int8 : ArrayType Datum :=
  one_dim INT8OID [(DatumWord 1, false); (DatumWord 2, false)].

End Sample.

(** *** What the further theorems are stated with

    The definitions from here to [Demo] name the conditions and the
    results that the theorems on the rest of the file are stated with.
    [array_element] and [JsonbFromValue_val] are pieces of the source
    (the body of a loop, the branches of a function); [jsonb_value]
    and [jsonb_of_value] are not: they read the two Jsonb conversions
    by the structure of what is converted, and Part II proves that the
    loops of the source compute them. *)

(** The width of the integer type of a descriptor of [smallint] or of
    [integer]. *)
Definition small_integer (type : plv8_type) (w : Z) : Prop :=
  (typid type = INT2OID /\ w = 16) \/ (typid type = INT4OID /\ w = 32).

(** The types whose values [ToScalarValue] reads as text. *)
Definition textual (typid : Oid) : bool :=
  (typid =? TEXTOID) || (typid =? VARCHAROID) || (typid =? BPCHAROID)
  || (typid =? XMLOID).

(** The types whose case in [ToScalarValue] fetches the bytes of the
    value itself: the textual ones, [bytea], and [json] from version
    9.2. *)
Definition reads_varlena (cfg : Config) (typid : Oid) : bool :=
  textual typid || (typid =? BYTEAOID)
  || ((typid =? JSONOID) && (90200 <=? PG_VERSION_NUM cfg)).

(** The typed arrays whose bytes the case [BYTEAOID] of [ToScalarDatum]
    copies. *)
Definition bytewise (kind : TypedArrayKind) : bool :=
  match kind with
  | Uint8Array | Int8Array | Uint16Array | Int16Array | Uint32Array | Int32Array =>
      true
  | _ => false
  end.

(** The external buffer kind [plv8_fill_type] gives a domain of a
    reserved name. *)
Definition reserved_domain (typname : string)
  : option plv8_external_array_type :=
  if String.eqb typname "plv8_int2array" then Some kExternalShortArray
  else if String.eqb typname "plv8_int4array" then Some kExternalIntArray
  else if String.eqb typname "plv8_float4array" then Some kExternalFloatArray
  else if String.eqb typname "plv8_float8array" then Some kExternalDoubleArray
  else if String.eqb typname "plv8_int8array" then Some kExternalInt64Array
  else None.

(** A database error that nothing has caught on the way: it leaves
    the converter as the [longjmp] of [ereport(ERROR)], not as a
    [pg_error]. *)
Definition uncaught {A : Type} (r : Result A) : Prop :=
  exists msg : string, r = Raise (ereport_ERROR msg).

(** The value a tree of the database stands for, by the structure of
    the tree: the members of a container are given to [Set] in their
    order, each member of an object under the text of its key up to
    the first NUL, which is what [GetJsonbValue] makes of a string. *)
Fixpoint jsonb_value (pg : Host) (j : JsonbValue) : Result Value :=
  match j with
  | jbvArray elems =>
      vs <- mapM (jsonb_value pg) elems ;; Ok (VArray vs)
  | jbvObject pairs =>
      props <- foldM (fun props '(k, v) =>
                        x <- jsonb_value pg v ;; Ok (set_prop props (c_str k) x))
                 pairs [] ;;
      Ok (VObject props)
  | scalar => GetJsonbValue pg scalar
  end.

(** One member of an object, set among the properties there are. *)
Definition member (pg : Host) (props : list (string * Value))
  (p : string * JsonbValue) : Result (list (string * Value)) :=
  let '(k, v) := p in
  x <- jsonb_value pg v ;; Ok (set_prop props (c_str k) x).

(** The tokens of a member of an array, of the value of a member of an
    object, and of a member of an object. *)
Definition element_tokens (e : JsonbValue)
  : list (JsonbIteratorToken * JsonbValue) :=
  match e with
  | jbvArray _ | jbvObject _ => jsonb_tokens e
  | scalar => [(WJB_ELEM, scalar)]
  end.

Definition value_tokens (v : JsonbValue)
  : list (JsonbIteratorToken * JsonbValue) :=
  match v with
  | jbvArray _ | jbvObject _ => jsonb_tokens v
  | scalar => [(WJB_VALUE, scalar)]
  end.

Definition pair_tokens (p : string * JsonbValue)
  : list (JsonbIteratorToken * JsonbValue) :=
  (WJB_KEY, jbvString (fst p)) :: value_tokens (snd p).

Section JsonbStructure.

Variable pg : Host.
Variable js : Engine.

(** The body of the loop of [JsonbArrayFromArray]: one element. *)
Definition array_element (pstate : JsonbParseState) (o : Value)
  : Result JsonbParseState :=
  '(pstate, _) <-
    (if IsArray o then JsonbArrayFromArray pg js pstate o
     else if IsObject o then JsonbObjectFromObject pg js pstate o
     else JsonbFromValue pg js pstate o WJB_ELEM) ;;
  Ok pstate.

(** The [val] that [JsonbFromValue] fills in under a token other than
    [WJB_KEY]; [None] where it returns without pushing anything. *)
Definition JsonbFromValue_val (value : Value) : Result (option JsonbValue) :=
  if IsBoolean value then Ok (Some (jbvBool (BooleanValue value)))
  else if IsNull value then Ok (Some jbvNull)
  else if IsUndefined value then Ok None
  else if IsString value then
    val <- jbvString_of_value pg js value ;; Ok (Some val)
  else if IsNumber value then
    if IsInt32 value then
      Ok (Some (jbvNumeric (int_numeric (Int32Value value))))
    else if IsUint32 value then
      Ok (Some (jbvNumeric (int_numeric (Uint32Value value))))
    else
      n <- float8_numeric pg (NumberValue value) ;; Ok (Some (jbvNumeric n))
  else if IsDate value then
    let t := NumberValue value in
    if is_nan t then Ok (Some jbvNull)
    else
      buf <- TimeAs8601 pg t ;;
      val <- jbvString_of (Some buf) 24 ;;
      Ok (Some val)
  else
    val <- jbvString_of_value pg js value ;; Ok (Some val).

(** The members of a container that are there. *)
Definition present (l : list (option JsonbValue)) : list JsonbValue :=
  flat_map (fun x => match x with Some j => [j] | None => [] end) l.

Definition present_pairs (l : list (string * option JsonbValue))
  : list (string * JsonbValue) :=
  flat_map (fun p => match snd p with Some j => [(fst p, j)] | None => [] end) l.

(** The key of a pair, as [appendKey] reads it off the string it is
    given. *)
Definition key_of (key : JsonbValue) : string :=
  match key with jbvString k => k | _ => ""%string end.

(** The tree a value is written as, by the structure of the value;
    [None] for a value that is left out. [as_property] tells the value
    of a property of an object from an element of an array: a Date is
    given to [JsonbFromValue] in the one place and walked as an object,
    which shows no property, in the other. A typed array is not given
    its index properties here, as it is not in the walkers above. *)
Fixpoint jsonb_of_value (as_property : bool) (v : Value)
  : Result (option JsonbValue) :=
  match v with
  | VArray a =>
      elems <- mapM (jsonb_of_value false) a ;;
      Ok (Some (jbvArray (present elems)))
  | VObject props =>
      pairs <- mapM (fun p =>
                       key <- jbvString_of_value pg js (VString (fst p)) ;;
                       x <- jsonb_of_value true (snd p) ;;
                       Ok (key_of key, x)) props ;;
      Ok (Some (jbvObject (uniqueifyJsonbObject (present_pairs pairs))))
  | VDate _ =>
      if as_property then JsonbFromValue_val v else Ok (Some (jbvObject []))
  | VTypedArray _ _ _ | VArrayBuffer _ | VFunction _ => Ok (Some (jbvObject []))
  | _ => JsonbFromValue_val v
  end.

(** One property of an object, in the tree: its key and its value. *)
Definition jsonb_of_property (p : string * Value)
  : Result (string * option JsonbValue) :=
  key <- jbvString_of_value pg js (VString (fst p)) ;;
  x <- jsonb_of_value true (snd p) ;;
  Ok (key_of key, x).

(** The two walkers close the tree of the container they are given
    into the state they are given. *)
Definition walkers_agree (o : Value) : Prop :=
  forall pstate : JsonbParseState,
    match o with
    | VArray a =>
        JsonbArrayFromArray pg js pstate o
        = (elems <- mapM (jsonb_of_value false) a ;;
           closeContainer (jbvArray (present elems)) pstate)
    | VObject props =>
        JsonbObjectFromObject pg js pstate o
        = (pairs <- mapM jsonb_of_property props ;;
           closeContainer
             (jbvObject (uniqueifyJsonbObject (present_pairs pairs))) pstate)
    | _ => True
    end.

End JsonbStructure.

(** A typed array somewhere in a value. *)
Fixpoint has_typed_array (v : Value) : bool :=
  match v with
  | VTypedArray _ _ _ => true
  | VArray a => existsb has_typed_array a
  | VObject props => existsb (fun p => has_typed_array (snd p)) props
  | _ => false
  end.

(** The elements of an array that are not Undefined. *)
Definition defined_elements (a : list Value) : list Value :=
  filter (fun o => negb (IsUndefined o)) a.

(** Keys in the order the database keeps them: each one after all the
    keys before it, by length and then by bytes, which is the
    comparison [uniqueifyJsonbObject] sorts by. *)
Fixpoint keys_ascending (keys : list string) : bool :=
  match keys with
  | [] => true
  | k :: rest =>
      forallb (fun k' => match lengthCompareJsonbStringValue k' k with
                         | Gt => true
                         | _ => false
                         end) rest
      && keys_ascending rest
  end.

(** A text without a NUL: what a [char *] holds of it is all of
    it. *)
Definition no_nul (s : string) : bool := String.eqb (c_str s) s.

(** A name that [Set] gives a new property of its own, behind the
    properties there are: not ["__proto__"] and not an array index. *)
Definition plain_key (k : string) : bool :=
  no_nul k && negb (String.eqb k "__proto__")
  && match array_index k with Some _ => false | None => true end.

(** A value made of Null, Booleans, whole Numbers of the 32-bit
    ranges, Strings without a NUL, arrays, and objects under such
    names with their keys in that order. *)
Fixpoint plain_json (v : Value) : bool :=
  match v with
  | VNull | VBoolean _ => true
  | VString s => no_nul s
  | VNumber _ => IsInt32 v || IsUint32 v
  | VArray a => forallb plain_json a
  | VObject props =>
      forallb plain_key (List.map fst props)
      && keys_ascending (List.map fst props)
      && forallb (fun p => plain_json (snd p)) props
  | _ => false
  end.

(** The tree of such a value. *)
Fixpoint plain_tree (v : Value) : JsonbValue :=
  match v with
  | VBoolean b => jbvBool b
  | VNumber d => jbvNumeric (int_numeric (Cnum.IntegerValue d))
  | VString s => jbvString s
  | VArray a => jbvArray (List.map plain_tree a)
  | VObject props =>
      jbvObject (List.map (fun p => (fst p, plain_tree (snd p))) props)
  | _ => jbvNull
  end.

(** *** A second backend and engine for the examples

    [Demo.pg] keeps its text in UTF-8 as [Sample.pg] does. Besides, it
    knows an array type of integers ([INT4ARRAY]) and a domain over it
    of the reserved name "plv8_int4array" ([INT4DOMAIN]); the input
    function of a textual type stores the text it is given; and
    [numeric_float8] reads the decimal text of a whole number.
    [Demo.js] has a JSON whose only text is that of the empty
    object. *)

Module Demo.

Definition INT4ARRAY : Oid := 1007.
Definition INT4DOMAIN : Oid := 70000.

Definition input (f : Oid) (str : option string) (ioparam : Oid) (typmod : Z)
  : Result Datum :=
  match str with
  | Some s =>
      if textual f then Ok (DatumVarlena (bytes_of_string s))
      else Sample.input f str ioparam typmod
  | None => Sample.input f str ioparam typmod
  end.

Definition decimal_float8 (n : Numeric) : Result float :=
  match NilZero.int_of_string n with
  | Some d => Ok (Cnum.double_of_Z (Z.of_int d))
  | None => Raise (ereport_ERROR "not supported")
  end.

Definition pg : Host := {|
  GetDatabaseEncoding := PG_UTF8;
  pg_do_encoding_conversion := Sample.convert;
  get_type_category_preferred :=
    fun typid =>
      Ok (if (typid =? INT4ARRAY) || (typid =? INT4DOMAIN) then TYPCATEGORY_ARRAY
          else "N"%char);
  get_typlenbyvalalign :=
    fun typid =>
      Ok (if (typid =? INT4ARRAY) || (typid =? INT4DOMAIN)
          then (-1, false, "i"%char) else (4, true, "i"%char));
  get_typtype :=
    fun typid => if typid =? INT4DOMAIN then TYPTYPE_DOMAIN else "b"%char;
  typname_of :=
    fun typid =>
      if typid =? INT4DOMAIN then Some "plv8_int4array"%string else None;
  get_element_type :=
    fun typid =>
      if (typid =? INT4ARRAY) || (typid =? INT4DOMAIN) then INT4OID
      else InvalidOid;
  TypeCategory := fun _ => Ok "N"%char;
  getTypeInputInfo := fun typid => Ok (typid, typid);
  getTypeOutputInfo := fun typid => Ok typid;
  InputFunctionCall := input;
  OutputFunctionCall := Sample.output;
  lookup_rowtype_tupdesc :=
    fun typid typmod =>
      Ok {| tdtypeid := typid; tdtypmod := typmod; tdattrs := [] |};
  float8_numeric := fun _ => Raise (ereport_ERROR "not supported");
  numeric_float8 := decimal_float8;
  numeric_in := fun _ => Raise (ereport_ERROR "not supported");
  jsonb_in := fun _ => Raise (ereport_ERROR "not supported");
  ARR_DATA := fun a => List.concat (List.map Sample.pack (arr_elems a));
  strftime_gmtime := fun _ => "2001-09-09T01:46:40"%string
|}.

Definition js : Engine := {|
  Utf8Value := Utf8Value Sample.js;
  JSON_Stringify := fun _ => VString "{}";
  JSON_Parse := fun _ => VObject [];
  Converter_ToDatum := Converter_ToDatum Sample.js;
  Converter_ToValue := Converter_ToValue Sample.js
|}.

(** A build like [Sample.cfg] with the overflow check. *)
Definition cfg_checked : Config := {|
  PG_VERSION_NUM := 110000;
  JSONB_DIRECT_CONVERSION := true;
  BIGINT_GRACEFUL := false;
  CHECK_INTEGER_OVERFLOW := true;
  HAVE_INT64_TIMESTAMP := true
|}.

(** A build for a version 9.3 server, which has json and no jsonb. *)
Definition cfg_json : Config := {|
  PG_VERSION_NUM := 90300;
  JSONB_DIRECT_CONVERSION := false;
  BIGINT_GRACEFUL := false;
  CHECK_INTEGER_OVERFLOW := false;
  HAVE_INT64_TIMESTAMP := true
|}.

(** A descriptor before [plv8_fill_type] has seen it. *)
Definition blank : plv8_type := {|
  typid := InvalidOid; ioparam := 0; len := 0; byval := false;
  align := "c"%char; category := "U"%char; is_composite := false;
  fn_input := None; fn_output := None; ext_array := None
|}.

(** A value of the kind [plain_json] describes. *)
Definition document : Value :=
  VObject [("a"%string, VArray [VNumber 1; VNull; VString "x"]);
           ("bb"%string, VBoolean true);
           ("cc"%string, VObject [("n"%string, VNumber 4294967295)])].

End Demo.

(** ** Part II. Theorems *)

(** *** Outcomes and lists *)

Lemma bind_Ok {A B : Type} (a : A) (k : A -> Result B) :
  bind (Ok a) k = k a.
Proof. reflexivity. Qed.

Lemma foldM_cons {S A : Type} (f : S -> A -> Result S) (a : A) (rest : list A)
  (s : S) :
  foldM f (a :: rest) s = (s' <- f s a ;; foldM f rest s').
Proof. reflexivity. Qed.

Lemma mapM_length {A B : Type} (f : A -> Result B) (l : list A) (out : list B) :
  mapM f l = Ok out -> List.length out = List.length l.
Proof.
  revert out. induction l as [| a rest IH]; simpl; intros out H.
  - inversion H. reflexivity.
  - destruct (f a) as [e | b]; simpl in H; [discriminate H |].
    destruct (mapM f rest) as [e | bs]; simpl in H; [discriminate H |].
    inversion H. simpl. f_equal. apply IH. reflexivity.
Qed.

Lemma mapM_Forall2 {A B : Type} (f : A -> Result B) (l : list A) (out : list B) :
  mapM f l = Ok out -> Forall2 (fun a b => f a = Ok b) l out.
Proof.
  revert out. induction l as [| a rest IH]; simpl; intros out H.
  - inversion H. constructor.
  - destruct (f a) as [e | b] eqn:Ha; simpl in H; [discriminate H |].
    destruct (mapM f rest) as [e | bs]; simpl in H; [discriminate H |].
    inversion H. constructor; [exact Ha | apply IH; reflexivity].
Qed.

(** *** Null and undefined (C1) *)

Section NullProofs.

Variable cfg : Config.
Variable pg : Host.
Variable js : Engine.

Lemma ToRecordDatum_null (value : Value) (type : plv8_type) :
  IsUndefined value || IsNull value = true ->
  ToRecordDatum pg js value type = Ok (Datum0, true).
Proof. unfold ToRecordDatum. intros ->. reflexivity. Qed.

Lemma ToScalarDatum_null (value : Value) (type : plv8_type) :
  IsUndefined value || IsNull value = true ->
  ToScalarDatum cfg pg js value type = Ok (Datum0, true).
Proof.
  intros H. unfold ToScalarDatum.
  destruct (Ascii.eqb (category type) TYPCATEGORY_COMPOSITE).
  - apply ToRecordDatum_null. exact H.
  - rewrite H. reflexivity.
Qed.

Lemma ToArrayDatum_null (value : Value) (type : plv8_type) :
  IsUndefined value || IsNull value = true ->
  ToArrayDatum cfg pg js value type = Ok (Datum0, true).
Proof. unfold ToArrayDatum. intros ->. reflexivity. Qed.

Lemma ToDatum_null (value : Value) (type : plv8_type) :
  IsUndefined value || IsNull value = true ->
  ToDatum cfg pg js value type = Ok (Datum0, true).
Proof.
  intros H. unfold ToDatum.
  destruct (Ascii.eqb (category type) TYPCATEGORY_ARRAY).
  - apply ToArrayDatum_null. exact H.
  - apply ToScalarDatum_null. exact H.
Qed.

Lemma ToValue_null (datum : Datum) (type : plv8_type) :
  ToValue cfg pg js datum true type = Ok VNull.
Proof. destruct datum; reflexivity. Qed.

(** C1. Whatever the type descriptor, encoding Undefined or Null gives
    SQL NULL, the null flag set and the Datum zero, in the scalar, the
    array and the composite encoder and in the dispatcher over them;
    and decoding a database value whose null flag is set gives Null,
    for an element of an array as for a value of its own. *)
Theorem null_maps_to_null :
  (forall (undefined : bool) (type : plv8_type),
      let value := if undefined then VUndefined else VNull in
      ToScalarDatum cfg pg js value type = Ok (Datum0, true)
      /\ ToArrayDatum cfg pg js value type = Ok (Datum0, true)
      /\ ToRecordDatum pg js value type = Ok (Datum0, true)
      /\ ToDatum cfg pg js value type = Ok (Datum0, true))
  /\ (forall (datum : Datum) (type : plv8_type),
         ToValue cfg pg js datum true type = Ok VNull).
Proof.
  split.
  - intros undefined type value.
    assert (H : IsUndefined value || IsNull value = true)
      by (subst value; destruct undefined; reflexivity).
    repeat split.
    + apply ToScalarDatum_null; exact H.
    + apply ToArrayDatum_null; exact H.
    + apply ToRecordDatum_null; exact H.
    + apply ToDatum_null; exact H.
  - apply ToValue_null.
Qed.

End NullProofs.

(** *** Type inference (C10) *)

(** C10. The type inferred for a value: text for Undefined, Null and a
    String; boolean for a Boolean; the 32-bit integer for a Number that
    is an Int32; the 64-bit integer for a Number that is a Uint32 but
    not an Int32, and for a BigInt; double precision for any other
    Number; timestamp for a Date; and the invalid type for every other
    kind, objects and arrays among them. *)
Theorem inferred_datum_type_table (value : Value) :
  inferred_datum_type value =
    match value with
    | VUndefined | VNull | VString _ => TEXTOID
    | VBoolean _ => BOOLOID
    | VNumber _ =>
        if IsInt32 value then INT4OID
        else if IsUint32 value then INT8OID
        else FLOAT8OID
    | VBigInt _ => INT8OID
    | VDate _ => TIMESTAMPOID
    | VSymbol _ | VTypedArray _ _ _ | VArrayBuffer _ | VArray _ | VObject _
    | VFunction _ => InvalidOid
    end.
Proof.
  destruct value; reflexivity.
Qed.

Example inferred_datum_type_numbers :
  inferred_datum_type (VNumber 7) = INT4OID
  /\ inferred_datum_type (VNumber (-2147483648)) = INT4OID
  /\ inferred_datum_type (VNumber 2147483648) = INT8OID
  /\ inferred_datum_type (VNumber 4294967295) = INT8OID
  /\ inferred_datum_type (VNumber 4294967296) = FLOAT8OID
  /\ inferred_datum_type (VNumber 1.5) = FLOAT8OID
  /\ inferred_datum_type (VNumber (-0)) = FLOAT8OID
  /\ inferred_datum_type (VNumber nan) = FLOAT8OID.
Proof. repeat split; vm_compute; reflexivity. Qed.

(** *** External arrays (C3, C9) *)

Lemma memcpy_whole (data : list byte) :
  memcpy (repeat x00 (Z.to_nat (byte_length data))) data (byte_length data)
  = Ok data.
Proof.
  unfold memcpy, byte_length.
  rewrite Nat2Z.id, repeat_length.
  assert (H : (0 <=? Z.of_nat (List.length data)) = true)
    by (apply Z.leb_le; lia).
  rewrite H, Z.leb_refl. simpl.
  rewrite firstn_all.
  rewrite skipn_all2 by (rewrite repeat_length; lia).
  rewrite app_nil_r. reflexivity.
Qed.

Lemma ArrayBuffer_New_nonneg (n : Z) :
  0 <= n -> ArrayBuffer_New n = Ok (Some (repeat x00 (Z.to_nat n))).
Proof.
  intros H. unfold ArrayBuffer_New.
  destruct (n <? 0) eqn:E; [apply Z.ltb_lt in E; lia | reflexivity].
Qed.

Lemma byte_length_nonneg (data : list byte) : 0 <= byte_length data.
Proof. unfold byte_length. lia. Qed.

Lemma CreateExternalArray_view (data : list byte)
  (ext : plv8_external_array_type) (datum : Datum) :
  CreateExternalArray data ext (byte_length data) datum
  = (array <- external_array_view ext ;;
     Ok (VTypedArray array data (Some datum))).
Proof.
  unfold CreateExternalArray.
  rewrite ArrayBuffer_New_nonneg by apply byte_length_nonneg.
  simpl. destruct (external_array_view ext) as [e | array]; simpl.
  - reflexivity.
  - rewrite memcpy_whole. reflexivity.
Qed.

Section ExternalArrayProofs.

Variable cfg : Config.
Variable pg : Host.
Variable js : Engine.

Lemma ARR_SIZE_one_dim (a : ArrayType Datum) :
  ARR_HASNULL a = false -> ARR_NDIM a = 1 ->
  ARR_SIZE pg a - ARR_OVERHEAD_NONULLS 1 = byte_length (ARR_DATA pg a).
Proof.
  intros Hnull Hdim. unfold ARR_SIZE. rewrite Hnull, Hdim. lia.
Qed.

(** A one-dimensional array without a null bitmap goes to
    [CreateExternalArray] with all of its packed bytes. *)
Lemma ToArrayValue_external_one_dim (a : ArrayType Datum) (isnull : bool)
  (type : plv8_type) (ext : plv8_external_array_type) :
  ext_array type = Some ext ->
  ARR_HASNULL a = false -> ARR_NDIM a = 1 ->
  ToArrayValue cfg pg js (DatumArray a) isnull type
  = (array <- external_array_view ext ;;
     Ok (VTypedArray array (ARR_DATA pg a) (Some (DatumArray a)))).
Proof.
  intros Hext Hnull Hdim.
  unfold ToArrayValue, ToArrayValue_of. rewrite Hext. simpl.
  rewrite Hnull, Hdim. simpl.
  rewrite ARR_SIZE_one_dim by assumption.
  apply CreateExternalArray_view.
Qed.

(** An array with a null bitmap or more than one dimension is refused. *)
Lemma ToArrayValue_external_refused (a : ArrayType Datum) (isnull : bool)
  (type : plv8_type) (ext : plv8_external_array_type) :
  ext_array type = Some ext ->
  ARR_HASNULL a = true \/ 1 < ARR_NDIM a ->
  ToArrayValue cfg pg js (DatumArray a) isnull type
  = Raise (js_error
      "NULL element, or multi-dimension array not allowed in external array type").
Proof.
  intros Hext H.
  unfold ToArrayValue, ToArrayValue_of. rewrite Hext. simpl.
  destruct H as [H | H].
  - rewrite H. reflexivity.
  - assert (E : (ARR_NDIM a <=? 1) = false) by (apply Z.leb_gt; exact H).
    rewrite E, andb_false_r. reflexivity.
Qed.

(** Every kind but the 64-bit one gives a typed array over a copy of
    the packed bytes, which keeps the array in its internal field. *)
Lemma ToArrayValue_external_copy (a : ArrayType Datum) (isnull : bool)
  (type : plv8_type) (ext : plv8_external_array_type) :
  ext_array type = Some ext -> ext <> kExternalInt64Array ->
  ARR_HASNULL a = false -> ARR_NDIM a = 1 ->
  exists kind,
    ToArrayValue cfg pg js (DatumArray a) isnull type
    = Ok (VTypedArray kind (ARR_DATA pg a) (Some (DatumArray a))).
Proof.
  intros Hext Hkind Hnull Hdim.
  rewrite (ToArrayValue_external_one_dim a isnull type ext) by assumption.
  destruct ext; simpl; try (eexists; reflexivity).
  contradiction Hkind. reflexivity.
Qed.

Lemma CreateExternalArray_Int64_fails (data : list byte) (byte_size : Z)
  (datum : Datum) :
  is_error (CreateExternalArray data kExternalInt64Array byte_size datum) = true.
Proof.
  unfold CreateExternalArray.
  destruct (ArrayBuffer_New byte_size) as [e | [buffer |]]; reflexivity.
Qed.

(** What C9 describes, on the arrays of exactly one dimension. For an
    element type of the 64-bit signed kind, an array without a null
    bitmap and of one dimension makes the decoder throw "unexpected
    array type", the arm of that kind running on into the default arm;
    and whatever the database value, the decoder returns no typed
    buffer for that kind. *)
Theorem external_int64_array_throws (type : plv8_type) :
  ext_array type = Some kExternalInt64Array ->
  (forall (a : ArrayType Datum) (isnull : bool),
      ARR_HASNULL a = false -> ARR_NDIM a = 1 ->
      ToArrayValue cfg pg js (DatumArray a) isnull type
      = Raise (js_error "unexpected array type"))
  /\ (forall (datum : Datum) (isnull : bool) (v : Value),
         ToArrayValue cfg pg js datum isnull type <> Ok v).
Proof.
  intros Hext. split.
  - intros a isnull Hnull Hdim.
    rewrite (ToArrayValue_external_one_dim a isnull type kExternalInt64Array)
      by assumption.
    reflexivity.
  - intros datum isnull v.
    unfold ToArrayValue, ToArrayValue_of. rewrite Hext.
    destruct datum; simpl; try discriminate.
    destruct (negb (ARR_HASNULL a) && (ARR_NDIM a <=? 1)); [| discriminate].
    intros H.
    pose proof (CreateExternalArray_Int64_fails (ARR_DATA pg a)
                  (ARR_SIZE pg a - ARR_OVERHEAD_NONULLS 1) (DatumArray a)) as F.
    rewrite H in F. discriminate F.
Qed.

End ExternalArrayProofs.

Lemma external_int64_array_throws_witness :
  ext_array (Sample.array_type INT8OID (Some kExternalInt64Array))
    = Some kExternalInt64Array
  /\ ARR_HASNULL Sample.two_int8 = false /\ ARR_NDIM Sample.two_int8 = 1
  /\ ToArrayValue Sample.cfg Sample.pg Sample.js (DatumArray Sample.two_int8) false
       (Sample.array_type INT8OID (Some kExternalInt64Array))
     = Raise (js_error "unexpected array type").
Proof.
  split; [reflexivity |]. split; [reflexivity |]. split; [reflexivity |].
  apply (external_int64_array_throws Sample.cfg Sample.pg Sample.js
           (Sample.array_type INT8OID (Some kExternalInt64Array)) eq_refl);
    reflexivity.
Defined.

(** C9 at the empty array, which has no dimension and no null bitmap
    and so passes the test [ARR_NDIM(array) <= 1]. The claim has the
    decoder raise "unexpected array type" there; but the byte count is
    taken with the header of a one-dimensional array, comes out as -8,
    and the engine aborts on the allocation before the switch is
    reached. *)
Lemma external_int64_empty_array_aborts :
  let empty := construct_empty_array INT8OID in
  let type := Sample.array_type INT8OID (Some kExternalInt64Array) in
  ext_array type = Some kExternalInt64Array
  /\ ARR_HASNULL empty = false /\ ARR_NDIM empty <= 1
  /\ ARR_SIZE Sample.pg empty - ARR_OVERHEAD_NONULLS 1 = -8
  /\ ToArrayValue Sample.cfg Sample.pg Sample.js (DatumArray empty) false type
     = Raise (engine_abort "v8::ArrayBuffer::New")
  /\ ToArrayValue Sample.cfg Sample.pg Sample.js (DatumArray empty) false type
     <> Raise (js_error "unexpected array type").
Proof.
  repeat split; try reflexivity.
  - vm_compute. discriminate.
  - vm_compute. discriminate.
Qed.

(** C3 at the 64-bit kind: a one-dimensional array of two elements and
    no null, which the claim has decoded to a typed buffer over a copy
    of its packed bytes, makes the decoder throw. *)
Lemma external_int64_one_dim_at_sample :
  let type := Sample.array_type INT8OID (Some kExternalInt64Array) in
  ARR_HASNULL Sample.two_int8 = false /\ ARR_NDIM Sample.two_int8 = 1
  /\ ToValue Sample.cfg Sample.pg Sample.js (DatumArray Sample.two_int8) false type
     = Raise (js_error "unexpected array type").
Proof. repeat split. Qed.

(** *** 64-bit integers towards the engine (C7) *)

Lemma wrap_signed_small (w z : Z) :
  0 < w -> - 2 ^ (w - 1) <= z < 2 ^ (w - 1) -> Cnum.wrap_signed w z = z.
Proof.
  intros Hw Hz. unfold Cnum.wrap_signed.
  assert (E : 2 ^ w = 2 * 2 ^ (w - 1)).
  { replace w with (Z.succ (w - 1)) at 1 by lia.
    rewrite Z.pow_succ_r by lia. reflexivity. }
  rewrite Z.mod_small by lia. lia.
Qed.

Section BigintProofs.

Variable cfg : Config.
Variable pg : Host.
Variable js : Engine.

Lemma ToScalarValue_INT8OID (w : Z) (isnull : bool) (type : plv8_type) :
  typid type = INT8OID ->
  ToScalarValue cfg pg js (Int64GetDatum w) isnull type
  = (let v := Cnum.wrap_signed 64 w in
     if BIGINT_GRACEFUL cfg then graceful_bigint pg v else Ok (VBigInt v)).
Proof. intros H. unfold ToScalarValue. rewrite H. reflexivity. Qed.

(** What the decoder does with a 64-bit integer [v]: by default a
    BigInt; under the graceful option a Number when [v] is a 32-bit
    integer, and otherwise the decimal text of [v] as a String, as long
    as the text and its terminator fit the twenty bytes it is printed
    into. *)
Lemma decode_int8 (v : Z) (isnull : bool) (type : plv8_type) :
  typid type = INT8OID ->
  Cnum.INT64_MIN <= v <= Cnum.INT64_MAX ->
  (BIGINT_GRACEFUL cfg = false ->
   ToScalarValue cfg pg js (Int64GetDatum v) isnull type = Ok (VBigInt v))
  /\ (BIGINT_GRACEFUL cfg = true ->
      Cnum.INT32_MIN <= v <= Cnum.INT32_MAX ->
      ToScalarValue cfg pg js (Int64GetDatum v) isnull type
      = Ok (VNumber (Cnum.double_of_Z v)))
  /\ (BIGINT_GRACEFUL cfg = true ->
      v < Cnum.INT32_MIN \/ Cnum.INT32_MAX < v ->
      (String.length (Cnum.decimal v) < 20)%nat ->
      ToScalarValue cfg pg js (Int64GetDatum v) isnull type
      = (str <- ToString pg (Some (Cnum.decimal v)) (GetDatabaseEncoding pg) ;;
         Ok (VString str))).
Proof.
  intros Htyp Hv.
  rewrite ToScalarValue_INT8OID by exact Htyp.
  rewrite wrap_signed_small
    by (unfold Cnum.INT64_MIN, Cnum.INT64_MAX in Hv; lia).
  cbv zeta. unfold graceful_bigint.
  repeat split.
  - intros ->. reflexivity.
  - intros -> H32.
    assert (E1 : (Cnum.INT32_MAX <? v) = false) by (apply Z.ltb_ge; lia).
    assert (E2 : (v <? Cnum.INT32_MIN) = false) by (apply Z.ltb_ge; lia).
    rewrite E1, E2. reflexivity.
  - intros -> H32 Hlen.
    assert (E : (Cnum.INT32_MAX <? v) || (v <? Cnum.INT32_MIN) = true).
    { apply orb_true_iff. destruct H32 as [H | H].
      - right. apply Z.ltb_lt. exact H.
      - left. apply Z.ltb_lt. exact H. }
    rewrite E.
    assert (L : (String.length (Cnum.decimal v) <? 20)%nat = true)
      by (apply Nat.ltb_lt; exact Hlen).
    rewrite L. reflexivity.
Qed.

End BigintProofs.

(** C7 at -1000000000000000000 under the graceful option: the text has
    twenty characters, [sprintf] writes its terminator past the end of
    [char str[20]], and no String is returned. *)
Lemma graceful_bigint_overruns_at_sample :
  let v := -1000000000000000000 in
  Cnum.INT64_MIN <= v <= Cnum.INT64_MAX
  /\ String.length (Cnum.decimal v) = 20%nat
  /\ ToScalarValue Sample.cfg_graceful Sample.pg Sample.js (Int64GetDatum v)
       false (Sample.scalar_type INT8OID)
     = Raise (undefined_behaviour "sprintf past the end of str").
Proof.
  repeat split; try reflexivity; vm_compute; discriminate.
Qed.

Example decode_int8_samples :
  ToScalarValue Sample.cfg Sample.pg Sample.js (Int64GetDatum 9007199254740993)
    false (Sample.scalar_type INT8OID) = Ok (VBigInt 9007199254740993)
  /\ ToScalarValue Sample.cfg_graceful Sample.pg Sample.js (Int64GetDatum (-7))
       false (Sample.scalar_type INT8OID) = Ok (VNumber (-7))
  /\ ToScalarValue Sample.cfg_graceful Sample.pg Sample.js
       (Int64GetDatum 2147483648) false (Sample.scalar_type INT8OID)
     = Ok (VString "2147483648")
  /\ ToScalarValue Sample.cfg_graceful Sample.pg Sample.js
       (Int64GetDatum 9223372036854775807) false (Sample.scalar_type INT8OID)
     = Ok (VString "9223372036854775807").
Proof. repeat split; vm_compute; reflexivity. Qed.

(** *** Arrays there and back (C4) *)

Lemma construct_md_array_one_dim (elems : list (Datum * bool)) (elmtype : Oid) :
  construct_md_array elems 1 [Z.of_nat (List.length elems)] [1] elmtype
  = Ok (match elems with
        | [] => construct_empty_array elmtype
        | _ :: _ => {| arr_ndim := 1; arr_hasnull := existsb snd elems;
                       arr_elemtype := elmtype;
                       arr_dims := [Z.of_nat (List.length elems)];
                       arr_lbound := [1]; arr_elems := elems |}
        end).
Proof.
  unfold construct_md_array.
  change (1 <? 0) with false. change (MAXDIM <? 1) with false. cbv iota.
  unfold ArrayGetNItems. change (1 <=? 0) with false. cbv iota.
  destruct elems as [| e rest].
  - reflexivity.
  - assert (E : (fold_left Z.mul [Z.of_nat (List.length (e :: rest))] 1 <=? 0)
                = false).
    { apply Z.leb_gt. simpl fold_left. simpl List.length. lia. }
    rewrite E. reflexivity.
Qed.

Section ArrayProofs.

Variable cfg : Config.
Variable pg : Host.
Variable js : Engine.

Lemma ToArrayDatum_VArray (array : list Value) (type : plv8_type)
  (elems : list (Datum * bool)) :
  mapM (encode_element cfg pg js type) array = Ok elems ->
  ToArrayDatum cfg pg js (VArray array) type
  = Ok (DatumArray
          match elems with
          | [] => construct_empty_array (typid type)
          | _ :: _ => {| arr_ndim := 1; arr_hasnull := existsb snd elems;
                         arr_elemtype := typid type;
                         arr_dims := [Z.of_nat (List.length elems)];
                         arr_lbound := [1]; arr_elems := elems |}
          end, false).
Proof.
  intros H. unfold ToArrayDatum. simpl. rewrite H. simpl.
  rewrite <- (mapM_length _ _ _ H).
  rewrite construct_md_array_one_dim. reflexivity.
Qed.

Lemma ToArrayValue_elements (a : ArrayType Datum) (isnull : bool)
  (type base : plv8_type) :
  ext_array type = None ->
  base_type pg type = Ok base ->
  ToArrayValue cfg pg js (DatumArray a) isnull type
  = (result <- mapM (decode_element cfg pg js base) (arr_elems a) ;;
     Ok (VArray result)).
Proof.
  intros Hext Hbase. unfold ToArrayValue, ToArrayValue_of.
  rewrite Hext, Hbase. reflexivity.
Qed.

(** C4, amended. Encoding an engine array of N elements whose elements
    convert gives, for N = 0, the empty array of the host, which has no
    dimension, and for N > 0 an array of one dimension, length N and
    lower bound 1; its i-th element is the conversion of the i-th
    element of the engine array; and decoding it under a descriptor
    without an external buffer kind gives an engine array of length N
    whose i-th element is the decoding of the i-th element, so in the
    original order. *)
Theorem array_there_and_back (type base : plv8_type) (array out : list Value)
  (elems : list (Datum * bool)) :
  mapM (encode_element cfg pg js type) array = Ok elems ->
  ext_array type = None ->
  base_type pg type = Ok base ->
  mapM (decode_element cfg pg js base) elems = Ok out ->
  exists a : ArrayType Datum,
    ToArrayDatum cfg pg js (VArray array) type = Ok (DatumArray a, false)
    /\ (array = [] -> a = construct_empty_array (typid type))
    /\ (array <> [] ->
        ARR_NDIM a = 1
        /\ arr_dims a = [Z.of_nat (List.length array)]
        /\ arr_lbound a = [1])
    /\ deconstruct_array a = elems
    /\ Forall2 (fun element e => encode_element cfg pg js type element = Ok e)
         array elems
    /\ ToArrayValue cfg pg js (DatumArray a) false type = Ok (VArray out)
    /\ List.length out = List.length array
    /\ Forall2 (fun e v => decode_element cfg pg js base e = Ok v) elems out.
Proof.
  intros Henc Hext Hbase Hdec.
  pose proof (mapM_length _ _ _ Henc) as Hlen.
  eexists. split; [apply ToArrayDatum_VArray; exact Henc |].
  split; [| split; [| split; [| split; [| split; [| split]]]]].
  - intros ->. simpl in Henc. inversion Henc. reflexivity.
  - intros Hne. destruct elems as [| e rest].
    + destruct array; [contradiction Hne; reflexivity | discriminate Hlen].
    + simpl. rewrite <- Hlen. repeat split.
  - destruct elems; reflexivity.
  - apply mapM_Forall2. exact Henc.
  - rewrite (ToArrayValue_elements _ false type base Hext Hbase).
    replace (arr_elems _) with elems by (destruct elems; reflexivity).
    rewrite Hdec. reflexivity.
  - rewrite (mapM_length _ _ _ Hdec). exact Hlen.
  - apply mapM_Forall2. exact Hdec.
Qed.

End ArrayProofs.

Lemma array_there_and_back_witness :
  let type := Sample.array_type INT4OID None in
  let base := Sample.scalar_type INT4OID in
  let array := [VNumber 1; VNull; VNumber 3] in
  let elems := [(DatumWord 1, false); (Datum0, true); (DatumWord 3, false)] in
  exists a : ArrayType Datum,
    ToArrayDatum Sample.cfg Sample.pg Sample.js (VArray array) type
    = Ok (DatumArray a, false)
    /\ (array = [] -> a = construct_empty_array (typid type))
    /\ (array <> [] ->
        ARR_NDIM a = 1
        /\ arr_dims a = [Z.of_nat (List.length array)]
        /\ arr_lbound a = [1])
    /\ deconstruct_array a = elems
    /\ Forall2 (fun element e =>
                  encode_element Sample.cfg Sample.pg Sample.js type element = Ok e)
         array elems
    /\ ToArrayValue Sample.cfg Sample.pg Sample.js (DatumArray a) false type
       = Ok (VArray array)
    /\ List.length array = List.length array
    /\ Forall2 (fun e v =>
                  decode_element Sample.cfg Sample.pg Sample.js base e = Ok v)
         elems array.
Proof.
  apply (array_there_and_back Sample.cfg Sample.pg Sample.js
           (Sample.array_type INT4OID None) (Sample.scalar_type INT4OID)
           [VNumber 1; VNull; VNumber 3] [VNumber 1; VNull; VNumber 3]
           [(DatumWord 1, false); (Datum0, true); (DatumWord 3, false)]);
    vm_compute; reflexivity.
Defined.

(** C4 as it is stated fails at N = 0: the array the encoder returns
    for the empty engine array has no dimension and no lower bound. *)
Lemma empty_array_has_no_dimension :
  exists a : ArrayType Datum,
    ToArrayDatum Sample.cfg Sample.pg Sample.js (VArray [])
      (Sample.array_type INT4OID None) = Ok (DatumArray a, false)
    /\ ARR_NDIM a = 0 /\ ARR_NDIM a <> 1
    /\ arr_lbound a = [] /\ arr_lbound a <> [1].
Proof.
  eexists. split; [reflexivity |].
  repeat split; simpl; discriminate.
Qed.

(** *** The lexical cast (C2) *)

Lemma PG_TRY_inv {A : Type} (r : Result A) (e : Error) :
  PG_TRY r = Raise e -> exists e', r = Raise e'.
Proof. destruct r as [e' | a]; [exists e'; reflexivity | discriminate]. Qed.

Ltac decide_typid typid c :=
  destruct (Z.eqb_spec typid c) as [-> | ?];
  [ cbv [OIDOID BOOLOID BYTEAOID INT8OID INT2OID INT4OID TEXTOID JSONOID XMLOID
         FLOAT4OID FLOAT8OID BPCHAROID VARCHAROID DATEOID TIMESTAMPOID
         TIMESTAMPTZOID NUMERICOID JSONBOID Z.eqb Pos.eqb orb andb] | ].

Section LexicalProofs.

Variable cfg : Config.
Variable pg : Host.
Variable js : Engine.

(** Outside [BYTEAOID], a value of a kind the case of the type does not
    expect leaves the switch by a [break]. *)
Lemma scalar_switch_break (value : Value) (typid : Oid) :
  typid <> BYTEAOID ->
  expected_kind cfg typid value = false ->
  scalar_switch cfg pg js value typid = None.
Proof.
  intros Hbytea. unfold expected_kind, scalar_switch.
  decide_typid typid OIDOID; [intros ->; reflexivity |].
  decide_typid typid BOOLOID; [intros ->; reflexivity |].
  decide_typid typid INT2OID; [intros ->; reflexivity |].
  decide_typid typid INT4OID; [intros ->; reflexivity |].
  decide_typid typid INT8OID.
  { intros H. apply orb_false_iff in H. destruct H as [-> ->]. reflexivity. }
  decide_typid typid FLOAT4OID; [intros ->; reflexivity |].
  decide_typid typid FLOAT8OID; [intros ->; reflexivity |].
  decide_typid typid NUMERICOID.
  { intros H. apply orb_false_iff in H. destruct H as [-> ->]. reflexivity. }
  decide_typid typid DATEOID; [intros ->; reflexivity |].
  decide_typid typid TIMESTAMPOID; [intros ->; reflexivity |].
  decide_typid typid TIMESTAMPTZOID; [intros ->; reflexivity |].
  decide_typid typid BYTEAOID; [contradiction Hbytea; reflexivity |].
  cbv [orb andb].
  decide_typid typid JSONBOID.
  { unfold case_JSONBOID. destruct (90400 <=? PG_VERSION_NUM cfg).
    - intros H. apply orb_false_iff in H. destruct H as [H ->].
      apply orb_false_iff in H. destruct H as [-> ->]. reflexivity.
    - reflexivity. }
  decide_typid typid JSONOID.
  { unfold case_JSONOID. destruct (90200 <=? PG_VERSION_NUM cfg).
    - intros H. apply orb_false_iff in H. destruct H as [-> ->]. reflexivity.
    - reflexivity. }
  reflexivity.
Qed.

Lemma ToScalarDatum_lexical_cast (value : Value) (type : plv8_type) :
  Ascii.eqb (category type) TYPCATEGORY_COMPOSITE = false ->
  IsUndefined value || IsNull value = false ->
  typid type <> BYTEAOID ->
  expected_kind cfg (typid type) value = false ->
  ToScalarDatum cfg pg js value type
  = (datum <- lexical_cast pg js value type ;; Ok (datum, false)).
Proof.
  intros Hcat Hnull Hbytea Hkind. unfold ToScalarDatum.
  rewrite Hcat, Hnull, (scalar_switch_break value (typid type) Hbytea Hkind).
  reflexivity.
Qed.

Lemma CString_error (value : Value) (e : Error) :
  CString pg js value = Raise e ->
  exists utf8 e',
    Utf8Value js value = Some utf8
    /\ GetDatabaseEncoding pg <> PG_UTF8
    /\ pg_do_encoding_conversion pg utf8 PG_UTF8 (GetDatabaseEncoding pg)
       = Raise e'
    /\ e = match e' with ereport_ERROR msg => pg_error msg | _ => e' end.
Proof.
  unfold CString, ToCString.
  destruct (Utf8Value js value) as [utf8 |]; [| discriminate].
  destruct (Z.eqb_spec (GetDatabaseEncoding pg) PG_UTF8) as [E | E];
    [discriminate |].
  destruct (pg_do_encoding_conversion pg utf8 PG_UTF8 (GetDatabaseEncoding pg))
    as [e' | str] eqn:Hconv; [| discriminate].
  intros H. exists utf8, e'. repeat split; try assumption.
  destruct e'; simpl in H; inversion H; reflexivity.
Qed.

Lemma lexical_cast_fails_iff (value : Value) (type : plv8_type) :
  (exists e, lexical_cast pg js value type = Raise e)
  <-> (exists e, lexical_failure pg js value type e).
Proof.
  unfold lexical_cast. split.
  - intros [e H].
    destruct (CString pg js value) as [e0 | str] eqn:Hstr.
    + destruct (CString_error value e0 Hstr) as (utf8 & e' & H1 & H2 & H3 & _).
      exists e'. eapply transcoding_fails; eassumption.
    + simpl in H. apply PG_TRY_inv in H. destruct H as [e' H].
      destruct (input_function pg type) as [e1 | [f io]] eqn:Hf.
      * exists e1. eapply lookup_fails; eassumption.
      * simpl in H. exists e'. eapply input_rejects; eassumption.
  - intros [e H]. destruct H as [utf8 e H1 H2 H3 | str e H1 H2 | str f io e H1 H2 H3].
    + unfold CString, ToCString. rewrite H1.
      destruct (Z.eqb_spec (GetDatabaseEncoding pg) PG_UTF8) as [E | E];
        [contradiction |].
      rewrite H3. destruct e; eexists; reflexivity.
    + rewrite H1, H2. destruct e; eexists; reflexivity.
    + rewrite H1, H2. simpl. rewrite H3. destruct e; eexists; reflexivity.
Qed.

Lemma lexical_cast_database_error (value : Value) (type : plv8_type)
  (msg : string) :
  lexical_failure pg js value type (ereport_ERROR msg) ->
  lexical_cast pg js value type = Raise (pg_error msg).
Proof.
  intros H. unfold lexical_cast.
  inversion H as [utf8 e H1 H2 H3 | str e H1 H2 | str f io e H1 H2 H3]; subst.
  - unfold CString, ToCString. rewrite H1.
    destruct (Z.eqb_spec (GetDatabaseEncoding pg) PG_UTF8) as [E | E];
      [contradiction |].
    rewrite H3. reflexivity.
  - rewrite H1, H2. reflexivity.
  - rewrite H1, H2. simpl. rewrite H3. reflexivity.
Qed.


End LexicalProofs.



(** *** Undefined in an object (C8) *)

Lemma pushJsonbValue_key_apart_KEY (st1 st2 : JsonbParseState) (v : JsonbValue) :
  key_apart st1 st2 ->
  pushJsonbValue st1 WJB_KEY (Some v) = pushJsonbValue st2 WJB_KEY (Some v).
Proof. intros H. destruct H; [reflexivity |]. destruct v; reflexivity. Qed.

Lemma pushJsonbValue_key_apart_END (st1 st2 : JsonbParseState) :
  key_apart st1 st2 ->
  pushJsonbValue st1 WJB_END_OBJECT None = pushJsonbValue st2 WJB_END_OBJECT None.
Proof. intros H. destruct H; reflexivity. Qed.

Lemma pushJsonbValue_KEY_key_apart (st st' : JsonbParseState) (v : JsonbValue)
  (r : option JsonbValue) :
  pushJsonbValue st WJB_KEY (Some v) = Ok (st', r) -> key_apart st' st.
Proof.
  simpl. unfold appendKey.
  destruct st as [| [elems | pairs key] next]; try discriminate.
  destruct v; try discriminate.
  simpl. intros H. inversion H. constructor.
Qed.

Section JsonbProofs.

Variable pg : Host.
Variable js : Engine.

Lemma JsonbObjectFromObject_VObject (pstate : JsonbParseState)
  (props : list (string * Value)) :
  JsonbObjectFromObject pg js pstate (VObject props)
  = ('(pstate, _) <- pushJsonbValue pstate WJB_BEGIN_OBJECT None ;;
     pstate <- foldM (object_property pg js) props pstate ;;
     pushJsonbValue pstate WJB_END_OBJECT None).
Proof. reflexivity. Qed.

Lemma JsonbFromValue_KEY_key_apart (st1 st2 : JsonbParseState) (k : Value) :
  key_apart st1 st2 ->
  JsonbFromValue pg js st1 k WJB_KEY = JsonbFromValue pg js st2 k WJB_KEY.
Proof.
  intros H. unfold JsonbFromValue.
  destruct (jbvString_of_value pg js k) as [e | val]; [reflexivity |].
  simpl bind. apply pushJsonbValue_key_apart_KEY. exact H.
Qed.

(** From two states a key apart, a property leaves the builder in the
    same state: its key overwrites the one that differs. *)
Lemma object_property_key_apart (st1 st2 : JsonbParseState)
  (property : string * Value) :
  key_apart st1 st2 ->
  object_property pg js st1 property = object_property pg js st2 property.
Proof.
  intros H. destruct property as [v o]. unfold object_property.
  rewrite (JsonbFromValue_KEY_key_apart st1 st2 (VString v) H). reflexivity.
Qed.

(** A property whose value is Undefined only writes its key. *)
Lemma object_property_undefined (st st' : JsonbParseState) (v : string) :
  object_property pg js st (v, VUndefined) = Ok st' -> key_apart st' st.
Proof.
  unfold object_property. simpl IsDate. simpl IsArray. simpl IsObject. cbv iota.
  destruct (JsonbFromValue pg js st (VString v) WJB_KEY) as [e | [st1 r]] eqn:Hkey;
    [discriminate |].
  simpl. intros H. inversion H. subst st'.
  unfold JsonbFromValue in Hkey.
  destruct (jbvString_of_value pg js (VString v)) as [e | val]; [discriminate |].
  simpl bind in Hkey.
  eapply pushJsonbValue_KEY_key_apart. exact Hkey.
Qed.

Lemma IsUndefined_true (o : Value) : IsUndefined o = true -> o = VUndefined.
Proof. destruct o; simpl; intros H; try discriminate H. reflexivity. Qed.

Lemma key_apart_trans (a b c : JsonbParseState) :
  key_apart a b -> key_apart b c -> key_apart a c.
Proof.
  intros Hab Hbc. destruct Hab; [exact Hbc |].
  inversion Hbc; subst; constructor.
Qed.

Lemma foldM_defined_properties (props : list (string * Value))
  (st1 st2 st1' : JsonbParseState) :
  key_apart st1 st2 ->
  foldM (object_property pg js) props st1 = Ok st1' ->
  exists st2',
    foldM (object_property pg js) (defined_properties props) st2 = Ok st2'
    /\ key_apart st1' st2'.
Proof.
  revert st1 st2. induction props as [| [v o] rest IH]; intros st1 st2 Hst H.
  - simpl in *. inversion H. subst st1'. exists st2. split; [reflexivity | exact Hst].
  - rewrite foldM_cons in H.
    destruct (object_property pg js st1 (v, o)) as [e | st1a] eqn:Hprop;
      [discriminate H |].
    rewrite bind_Ok in H.
    unfold defined_properties. cbn [filter snd].
    fold (defined_properties rest).
    destruct (IsUndefined o) eqn:Hundef; cbn [negb].
    + apply IsUndefined_true in Hundef. subst o.
      apply (IH st1a st2); [| exact H].
      eapply key_apart_trans; [| exact Hst].
      eapply object_property_undefined. exact Hprop.
    + rewrite foldM_cons.
      rewrite <- (object_property_key_apart st1 st2 (v, o) Hst), Hprop.
      rewrite bind_Ok. apply (IH st1a st1a); [constructor | exact H].
Qed.

Lemma JsonbObjectFromObject_defined_properties (pstate : JsonbParseState)
  (props : list (string * Value)) (r : JsonbParseState * option JsonbValue) :
  JsonbObjectFromObject pg js pstate (VObject props) = Ok r ->
  JsonbObjectFromObject pg js pstate (VObject (defined_properties props)) = Ok r.
Proof.
  rewrite !JsonbObjectFromObject_VObject.
  change (pushJsonbValue pstate WJB_BEGIN_OBJECT None)
    with (Ok (A := JsonbParseState * option JsonbValue)
            (ObjectUnderway [] None :: pstate, Some (jbvObject []))).
  rewrite !bind_Ok.
  destruct (foldM (object_property pg js) props (ObjectUnderway [] None :: pstate))
    as [e | st1'] eqn:Hfold; [discriminate |].
  destruct (foldM_defined_properties props _ (ObjectUnderway [] None :: pstate)
              st1' (key_apart_same _) Hfold) as (st2' & Hfold2 & Hst).
  rewrite Hfold2. rewrite !bind_Ok.
  rewrite (pushJsonbValue_key_apart_END st1' st2' Hst). intros H; exact H.
Qed.

Lemma ConvertObject_defined_properties (props : list (string * Value))
  (root : JsonbValue) :
  ConvertObject pg js (VObject props) = Ok root ->
  ConvertObject pg js (VObject (defined_properties props)) = Ok root.
Proof.
  unfold ConvertObject. cbn [IsArray IsObject].
  destruct (JsonbObjectFromObject pg js [] (VObject props)) as [e | r] eqn:H;
    [discriminate |].
  rewrite (JsonbObjectFromObject_defined_properties [] props r H).
  intros E; exact E.
Qed.

Lemma ToScalarDatum_JSONBOID (cfg : Config) (value : Value) (type : plv8_type) :
  JSONB_DIRECT_CONVERSION cfg = true ->
  90400 <= PG_VERSION_NUM cfg ->
  typid type = JSONBOID ->
  Ascii.eqb (category type) TYPCATEGORY_COMPOSITE = false ->
  IsUndefined value || IsNull value = false ->
  ToScalarDatum cfg pg js value type
  = (obj <- ConvertObject pg js value ;; Ok (DatumJsonb obj, false)).
Proof.
  intros Hdirect Hpg Htyp Hcat Hnull. unfold ToScalarDatum.
  rewrite Hcat, Hnull, Htyp. unfold scalar_switch.
  assert (E : (90400 <=? PG_VERSION_NUM cfg) = true) by (apply Z.leb_le; exact Hpg).
  rewrite E. cbn. unfold case_JSONBOID. rewrite Hdirect.
  destruct (ConvertObject pg js value); reflexivity.
Qed.

(** C8. The JSON tree built for an object is the tree built for the
    object without the properties whose value is Undefined, at the root
    of the conversion as for an object nested in it, and so is the
    JSONB value the scalar encoder returns for it under the direct
    conversion: of such a property neither the key nor a null is in the
    tree. In particular the tree of the object with [a] Undefined and
    [b] 1 is that of the object with [b] 1 alone. *)
Theorem undefined_properties_are_dropped :
  (forall (pstate : JsonbParseState) (props : list (string * Value))
          (r : JsonbParseState * option JsonbValue),
      JsonbObjectFromObject pg js pstate (VObject props) = Ok r ->
      JsonbObjectFromObject pg js pstate (VObject (defined_properties props))
      = Ok r)
  /\ (forall (props : list (string * Value)) (root : JsonbValue),
         ConvertObject pg js (VObject props) = Ok root ->
         ConvertObject pg js (VObject (defined_properties props)) = Ok root)
  /\ (forall (cfg : Config) (type : plv8_type) (props : list (string * Value))
             (result : Datum * bool),
         JSONB_DIRECT_CONVERSION cfg = true ->
         90400 <= PG_VERSION_NUM cfg ->
         typid type = JSONBOID ->
         Ascii.eqb (category type) TYPCATEGORY_COMPOSITE = false ->
         ToScalarDatum cfg pg js (VObject props) type = Ok result ->
         ToScalarDatum cfg pg js (VObject (defined_properties props)) type
         = Ok result)
  /\ defined_properties [("a"%string, VUndefined); ("b"%string, VNumber 1)]
     = [("b"%string, VNumber 1)]
  /\ ConvertObject Sample.pg Sample.js
       (VObject [("a"%string, VUndefined); ("b"%string, VNumber 1)])
     = Ok (jbvObject [("b"%string, jbvNumeric "1"%string)]).
Proof.
  split; [| split; [| split; [| split]]].
  - apply JsonbObjectFromObject_defined_properties.
  - apply ConvertObject_defined_properties.
  - intros cfg type props result Hdirect Hpg Htyp Hcat.
    rewrite (ToScalarDatum_JSONBOID cfg (VObject props) type
               Hdirect Hpg Htyp Hcat eq_refl).
    rewrite (ToScalarDatum_JSONBOID cfg (VObject (defined_properties props)) type
               Hdirect Hpg Htyp Hcat eq_refl).
    destruct (ConvertObject pg js (VObject props)) as [e | root] eqn:H;
      [discriminate |].
    rewrite (ConvertObject_defined_properties props root H).
    intros E; exact E.
  - reflexivity.
  - vm_compute. reflexivity.
Qed.

End JsonbProofs.

Lemma undefined_properties_are_dropped_witness :
  let props := [("k"%string, VUndefined); ("b"%string, VNumber 1);
                ("c"%string, VArray [VUndefined; VNull]);
                ("d"%string, VObject [("e"%string, VUndefined)])] in
  ConvertObject Sample.pg Sample.js (VObject props)
  = Ok (jbvObject [("b"%string, jbvNumeric "1"%string);
                   ("c"%string, jbvArray [jbvNull]);
                   ("d"%string, jbvObject [])])
  /\ ConvertObject Sample.pg Sample.js (VObject (defined_properties props))
     = Ok (jbvObject [("b"%string, jbvNumeric "1"%string);
                      ("c"%string, jbvArray [jbvNull]);
                      ("d"%string, jbvObject [])]).
Proof.
  assert (H : ConvertObject Sample.pg Sample.js
                (VObject [("k"%string, VUndefined); ("b"%string, VNumber 1);
                          ("c"%string, VArray [VUndefined; VNull]);
                          ("d"%string, VObject [("e"%string, VUndefined)])])
              = Ok (jbvObject [("b"%string, jbvNumeric "1"%string);
                               ("c"%string, jbvArray [jbvNull]);
                               ("d"%string, jbvObject [])]))
    by (vm_compute; reflexivity).
  split; [exact H |].
  exact (proj1 (proj2 (undefined_properties_are_dropped Sample.pg Sample.js))
           _ _ H).
Defined.

(** *** Exact arithmetic on the doubles that are integers *)

Lemma digits2_pos_bounds (m : positive) :
  2 ^ (Z.pos (digits2_pos m) - 1) <= Z.pos m < 2 ^ Z.pos (digits2_pos m).
Proof.
  induction m as [m IH | m IH |]; simpl digits2_pos.
  - rewrite Pos2Z.inj_succ.
    replace (Z.succ (Z.pos (digits2_pos m)) - 1) with (Z.succ (Z.pos (digits2_pos m) - 1)) by lia.
    rewrite !Z.pow_succ_r by lia. lia.
  - rewrite Pos2Z.inj_succ.
    replace (Z.succ (Z.pos (digits2_pos m)) - 1) with (Z.succ (Z.pos (digits2_pos m) - 1)) by lia.
    rewrite !Z.pow_succ_r by lia. lia.
  - simpl. lia.
Qed.

Lemma digits2_pos_unique (m : positive) (d : Z) :
  2 ^ (d - 1) <= Z.pos m < 2 ^ d -> Z.pos (digits2_pos m) = d.
Proof.
  intros [Hlo Hhi]. pose proof (digits2_pos_bounds m) as [Blo Bhi].
  assert (Hd : 0 < d).
  { destruct (Z_lt_le_dec 0 d) as [H | H]; [exact H |].
    assert (2 ^ d <= 1).
    { destruct (Z.eq_dec d 0) as [-> | ?]; [simpl; lia |].
      rewrite Z.pow_neg_r by lia. lia. }
    lia. }
  destruct (Z.lt_trichotomy (Z.pos (digits2_pos m)) d) as [H | [H | H]].
  - assert (2 ^ Z.pos (digits2_pos m) <= 2 ^ (d - 1))
      by (apply Z.pow_le_mono_r; lia). lia.
  - exact H.
  - assert (2 ^ d <= 2 ^ (Z.pos (digits2_pos m) - 1))
      by (apply Z.pow_le_mono_r; lia). lia.
Qed.

Lemma iter_pos_nat {A : Type} (f : A -> A) (p : positive) (x : A) :
  iter_pos f p x = Nat.iter (Pos.to_nat p) f x.
Proof.
  revert x. induction p as [p IH | p IH |]; intros x; simpl iter_pos.
  - rewrite !IH. rewrite Pos2Nat.inj_xI.
    replace (S (2 * Pos.to_nat p))%nat with (Pos.to_nat p + (Pos.to_nat p + 1))%nat by lia.
    rewrite !Nat.iter_add. simpl. reflexivity.
  - rewrite !IH. rewrite Pos2Nat.inj_xO.
    replace (2 * Pos.to_nat p)%nat with (Pos.to_nat p + Pos.to_nat p)%nat by lia.
    rewrite Nat.iter_add. reflexivity.
  - reflexivity.
Qed.

Lemma shr_1_even (m : positive) :
  shr_1 {| shr_m := Z.pos m~0; shr_r := false; shr_s := false |}
  = {| shr_m := Z.pos m; shr_r := false; shr_s := false |}.
Proof. reflexivity. Qed.

Lemma iter_shr_1 (n : nat) (m : positive) :
  Nat.iter n shr_1
    {| shr_m := Z.pos (Nat.iter n xO m); shr_r := false; shr_s := false |}
  = {| shr_m := Z.pos m; shr_r := false; shr_s := false |}.
Proof.
  induction n as [| n IH]; [reflexivity |].
  rewrite Nat.iter_succ_r. simpl Nat.iter at 2. rewrite shr_1_even. exact IH.
Qed.

Lemma iter_xO (n : nat) (m : positive) :
  Z.pos (Nat.iter n xO m) = Z.pos m * 2 ^ Z.of_nat n.
Proof.
  induction n as [| n IH].
  - simpl. lia.
  - rewrite Nat2Z.inj_succ, Z.pow_succ_r by lia.
    simpl Nat.iter. rewrite Pos2Z.inj_xO, IH. lia.
Qed.

(** A mantissa of 53 bits followed by [k] zero bits is rounded to the
    mantissa. *)
Lemma binary_round_aux_exact (s : bool) (M m0 : positive) (e0 : Z) (k : nat) :
  Z.pos (digits2_pos m0) = 53 ->
  -1074 <= e0 <= 971 ->
  M = Nat.iter k xO m0 ->
  binary_round_aux prec emax s (Z.pos M) (e0 - Z.of_nat k) loc_Exact
  = S754_finite s m0 e0.
Proof.
  intros Hd He ->.
  assert (HdM : Z.pos (digits2_pos (Nat.iter k xO m0)) = 53 + Z.of_nat k).
  { apply digits2_pos_unique. rewrite iter_xO.
    pose proof (digits2_pos_bounds m0) as B. rewrite Hd in B.
    replace (53 + Z.of_nat k - 1) with (52 + Z.of_nat k) by lia.
    rewrite !Z.pow_add_r by lia.
    assert (0 < 2 ^ Z.of_nat k) by (apply Z.pow_pos_nonneg; lia).
    change (53 - 1) with 52 in B. nia. }
  unfold binary_round_aux, shr_fexp. cbn [Zdigits2 shr_record_of_loc].
  rewrite HdM.
  replace (fexp prec emax (53 + Z.of_nat k + (e0 - Z.of_nat k))) with e0
    by (unfold fexp, SpecFloat.emin, prec, emax; lia).
  replace (e0 - (e0 - Z.of_nat k)) with (Z.of_nat k) by lia.
  assert (Hshr : shr {| shr_m := Z.pos (Nat.iter k xO m0); shr_r := false; shr_s := false |}
                   (e0 - Z.of_nat k) (Z.of_nat k)
                 = ({| shr_m := Z.pos m0; shr_r := false; shr_s := false |}, e0)).
  { destruct k as [| k].
    - simpl. f_equal. lia.
    - change (Z.of_nat (S k)) with (Z.pos (Pos.of_succ_nat k)). unfold shr.
      rewrite iter_pos_nat, SuccNat2Pos.id_succ, iter_shr_1.
      f_equal. lia. }
  rewrite Hshr. cbn [shr_m loc_of_shr_record round_nearest_even Zdigits2].
  rewrite Hd.
  replace (fexp prec emax (53 + e0) - e0) with 0
    by (unfold fexp, SpecFloat.emin, prec, emax; lia).
  cbn [shr shr_record_of_loc shr_m].
  replace (e0 <=? emax - prec) with true
    by (symmetry; apply Z.leb_le; unfold emax, prec; lia).
  reflexivity.
Qed.


Lemma scaled_shift (m e : Z) (k : Z) :
  0 <= k -> -1100 <= e -> scaled (m * 2 ^ k) e = scaled m (e + k).
Proof.
  intros Hk He. unfold scaled.
  replace (e + k + 1100) with (k + (e + 1100)) by lia.
  rewrite (Z.pow_add_r 2 k (e + 1100)) by lia. ring.
Qed.

(** Rounding a mantissa and an exponent whose value a float has gives
    that float. *)
Lemma binary_round_exact (s : bool) (M m0 : positive) (E e0 : Z) :
  Z.pos (digits2_pos m0) = 53 ->
  -1074 <= e0 <= 971 ->
  -1100 <= E ->
  scaled (Z.pos M) E = scaled (Z.pos m0) e0 ->
  binary_round prec emax s M E = S754_finite s m0 e0
  /\ (53 <= Z.pos (digits2_pos M) ->
      binary_round_aux prec emax s (Z.pos M) E loc_Exact = S754_finite s m0 e0).
Proof.
  intros Hd He HE Hv.
  pose proof (digits2_pos_bounds m0) as B0. rewrite Hd in B0.
  change (53 - 1) with 52 in B0.
  pose proof (digits2_pos_bounds M) as BM.
  destruct (Z_le_gt_dec E e0) as [Hle | Hgt].
  - (* M = m0 * 2 ^ (e0 - E) *)
    assert (HM : Z.pos M = Z.pos m0 * 2 ^ (e0 - E)).
    { unfold scaled in Hv.
      replace (e0 + 1100) with ((e0 - E) + (E + 1100)) in Hv by lia.
      rewrite (Z.pow_add_r 2 (e0 - E) (E + 1100)) in Hv by lia.
      assert (0 < 2 ^ (E + 1100)) by (apply Z.pow_pos_nonneg; lia).
      nia. }
    assert (HMk : M = Nat.iter (Z.to_nat (e0 - E)) xO m0).
    { apply Pos2Z.inj. rewrite iter_xO, Z2Nat.id by lia. exact HM. }
    assert (Haux : binary_round_aux prec emax s (Z.pos M) E loc_Exact
                   = S754_finite s m0 e0).
    { replace E with (e0 - Z.of_nat (Z.to_nat (e0 - E))) by (rewrite Z2Nat.id; lia).
      apply binary_round_aux_exact; assumption. }
    split; [| intros _; exact Haux].
    unfold binary_round.
    assert (HdM : Z.pos (digits2_pos M) = 53 + (e0 - E)).
    { apply digits2_pos_unique. rewrite HM.
      replace (53 + (e0 - E) - 1) with (52 + (e0 - E)) by lia.
      rewrite !Z.pow_add_r by lia.
      assert (0 < 2 ^ (e0 - E)) by (apply Z.pow_pos_nonneg; lia). nia. }
    rewrite HdM.
    replace (fexp prec emax (53 + (e0 - E) + E)) with e0
      by (unfold fexp, SpecFloat.emin, prec, emax; lia).
    unfold shl_align.
    destruct (e0 - E) eqn:Hdiff; try lia; exact Haux.
  - (* m0 = M * 2 ^ (E - e0) *)
    assert (Hm0 : Z.pos m0 = Z.pos M * 2 ^ (E - e0)).
    { unfold scaled in Hv.
      replace (E + 1100) with ((E - e0) + (e0 + 1100)) in Hv by lia.
      rewrite (Z.pow_add_r 2 (E - e0) (e0 + 1100)) in Hv by lia.
      assert (0 < 2 ^ (e0 + 1100)) by (apply Z.pow_pos_nonneg; lia).
      nia. }
    assert (Hj : E - e0 < 53).
    { destruct (Z_lt_le_dec (E - e0) 53) as [H | H]; [exact H |].
      assert (2 ^ 53 <= 2 ^ (E - e0)) by (apply Z.pow_le_mono_r; lia).
      nia. }
    assert (HdM : Z.pos (digits2_pos M) = 53 - (E - e0)).
    { apply digits2_pos_unique.
      assert (P : 2 ^ 53 = 2 ^ (53 - (E - e0)) * 2 ^ (E - e0)).
      { rewrite <- Z.pow_add_r by lia. f_equal. lia. }
      assert (Q : 2 ^ 52 = 2 ^ (53 - (E - e0) - 1) * 2 ^ (E - e0)).
      { rewrite <- Z.pow_add_r by lia. f_equal. lia. }
      assert (0 < 2 ^ (E - e0)) by (apply Z.pow_pos_nonneg; lia).
      split; nia. }
    split; [| intros H; lia].
    unfold binary_round. rewrite HdM.
    replace (fexp prec emax (53 - (E - e0) + E)) with e0
      by (unfold fexp, SpecFloat.emin, prec, emax; lia).
    unfold shl_align.
    destruct (e0 - E) as [| p | p] eqn:Hdiff; try lia.
    rewrite Pos2Nat.inj_iter.
    replace e0 with (e0 - Z.of_nat 0) at 1 by (simpl; lia).
    apply binary_round_aux_exact; try assumption.
    change (Nat.iter 0 xO m0) with m0.
    apply Pos2Z.inj.
    change (Z.pos (Nat.iter (Pos.to_nat p) xO M) = Z.pos m0).
    rewrite iter_xO, Hm0.
    rewrite positive_nat_Z. f_equal. f_equal. lia.
Qed.

Lemma scaled_cond_Zopp (s : bool) (m e : Z) :
  scaled (cond_Zopp s m) e = cond_Zopp s (scaled m e).
Proof. unfold scaled. destruct s; simpl; ring. Qed.

Lemma scaled_pos (m : positive) (e : Z) : -1100 <= e -> 0 < scaled (Z.pos m) e.
Proof.
  intros He. unfold scaled.
  assert (0 < 2 ^ (e + 1100)) by (apply Z.pow_pos_nonneg; lia). nia.
Qed.

Lemma scaled_0 (z : Z) : scaled z 0 = z * 2 ^ 1100.
Proof. reflexivity. Qed.

Lemma binary_normalize_exact (Z0 E : Z) (s : bool) (m : positive) (e : Z) :
  Z.pos (digits2_pos m) = 53 ->
  -1074 <= e <= 971 ->
  -1100 <= E ->
  scaled Z0 E = scaled (cond_Zopp s (Z.pos m)) e ->
  binary_normalize prec emax Z0 E false = S754_finite s m e.
Proof.
  intros Hd He HE Hv. rewrite scaled_cond_Zopp in Hv.
  pose proof (scaled_pos m e ltac:(lia)) as Hm.
  destruct Z0 as [| M | M]; unfold binary_normalize.
  - assert (Z : scaled 0 E = 0) by (unfold scaled; ring).
    rewrite Z in Hv. destruct s; cbn [cond_Zopp] in Hv; lia.
  - pose proof (scaled_pos M E HE) as HM.
    destruct s; cbn [cond_Zopp] in Hv; [lia |].
    apply binary_round_exact; assumption.
  - pose proof (scaled_pos M E HE) as HM.
    assert (HN : scaled (Z.neg M) E = - scaled (Z.pos M) E)
      by (unfold scaled; rewrite <- Pos2Z.opp_pos; ring).
    rewrite HN in Hv.
    destruct s; cbn [cond_Zopp] in Hv; [| lia].
    apply binary_round_exact; try assumption. lia.
Qed.


Lemma Prim2SF_double_of_Z (z : Z) (s : bool) (m : positive) (e : Z) :
  is_float z s m e -> Prim2SF (Cnum.double_of_Z z) = S754_finite s m e.
Proof.
  intros (Hd & He & Hv). unfold Cnum.double_of_Z.
  rewrite (binary_normalize_exact z 0 s m e Hd He ltac:(lia) (eq_sym Hv)).
  apply Prim2SF_SF2Prim.
  unfold valid_binary, bounded, canonical_mantissa. rewrite Hd.
  apply andb_true_iff. split.
  - apply Z.eqb_eq. unfold fexp, SpecFloat.emin, prec, emax. lia.
  - apply Z.leb_le. unfold prec, emax. lia.
Qed.

Lemma is_float_shift (z : Z) (s : bool) (m : positive) (e k : Z) :
  is_float z s m e -> 0 <= k -> e + k <= 971 ->
  is_float (z * 2 ^ k) s m (e + k).
Proof.
  intros (Hd & He & Hv) Hk Hek. repeat split; try lia; try assumption.
  rewrite (scaled_0 (z * 2 ^ k)). rewrite scaled_0 in Hv.
  unfold scaled in *.
  replace (e + k + 1100) with (k + (e + 1100)) by lia.
  rewrite (Z.pow_add_r 2 k (e + 1100)) by lia. nia.
Qed.

Lemma is_float_exists (z : Z) :
  0 < Z.abs z < 2 ^ 53 ->
  exists (m : positive) (e : Z), is_float z (z <? 0) m e /\ -52 <= e <= 0.
Proof.
  intros Hz.
  assert (Hex : exists p : positive, Z.abs z = Z.pos p).
  { destruct z as [| p | p]; simpl in *; [lia | exists p | exists p]; reflexivity. }
  destruct Hex as [p Hp].
  pose proof (digits2_pos_bounds p) as B.
  set (d := Z.pos (digits2_pos p)) in *.
  assert (Hd : 1 <= d <= 53).
  { split; [unfold d; lia |].
    destruct (Z_le_gt_dec d 53) as [H | H]; [exact H |].
    assert (2 ^ 53 <= 2 ^ (d - 1)) by (apply Z.pow_le_mono_r; lia). lia. }
  exists (Nat.iter (Z.to_nat (53 - d)) xO p), (d - 53).
  assert (Hm : Z.pos (Nat.iter (Z.to_nat (53 - d)) xO p) = Z.pos p * 2 ^ (53 - d))
    by (rewrite iter_xO, Z2Nat.id by lia; reflexivity).
  split; [| lia]. split; [| split; [lia |]].
  - apply digits2_pos_unique. rewrite Hm.
    assert (P : 2 ^ 53 = 2 ^ d * 2 ^ (53 - d))
      by (rewrite <- Z.pow_add_r by lia; f_equal; lia).
    assert (Q : 2 ^ (53 - 1) = 2 ^ (d - 1) * 2 ^ (53 - d))
      by (rewrite <- Z.pow_add_r by lia; f_equal; lia).
    assert (0 < 2 ^ (53 - d)) by (apply Z.pow_pos_nonneg; lia).
    split; nia.
  - rewrite scaled_cond_Zopp, Hm. unfold scaled.
    replace (0 + 1100) with ((53 - d) + (d - 53 + 1100)) by lia.
    rewrite (Z.pow_add_r 2 (53 - d) (d - 53 + 1100)) by lia.
    destruct (z <? 0) eqn:Hs; cbn [cond_Zopp].
    + apply Z.ltb_lt in Hs. rewrite Z.abs_neq in Hp by lia.
      replace z with (- Z.pos p) by lia. ring.
    + apply Z.ltb_ge in Hs. rewrite Z.abs_eq in Hp by lia.
      rewrite Hp. ring.
Qed.

Lemma shl_align_fst (mx : positive) (ex ez : Z) :
  ez <= ex ->
  Z.pos (fst (shl_align mx ex ez)) = Z.pos mx * 2 ^ (ex - ez).
Proof.
  intros H. unfold shl_align.
  destruct (ez - ex) as [| p | p] eqn:Hdiff; try lia.
  - replace (ex - ez) with 0 by lia. simpl fst. lia.
  - simpl fst. rewrite Pos2Nat.inj_iter.
    change (Z.pos (Nat.iter (Pos.to_nat p) xO mx) = Z.pos mx * 2 ^ (ex - ez)).
    rewrite iter_xO, positive_nat_Z. f_equal. f_equal. lia.
Qed.

Lemma scaled_aligned (s : bool) (mx : positive) (ex ez : Z) :
  -1100 <= ez <= ex ->
  scaled (cond_Zopp s (Z.pos (fst (shl_align mx ex ez)))) ez
  = scaled (cond_Zopp s (Z.pos mx)) ex.
Proof.
  intros H. rewrite shl_align_fst by lia. rewrite !scaled_cond_Zopp. f_equal.
  rewrite scaled_shift by lia. f_equal. lia.
Qed.

Lemma scaled_add (a b e : Z) : scaled (a + b) e = scaled a e + scaled b e.
Proof. unfold scaled. ring. Qed.

Lemma scaled_sub (a b e : Z) : scaled (a - b) e = scaled a e - scaled b e.
Proof. unfold scaled. ring. Qed.

Lemma SFsub_exact (a b : Z) (sa sb s : bool) (ma mb m : positive) (ea eb e : Z) :
  is_float a sa ma ea -> is_float b sb mb eb -> is_float (a - b) s m e ->
  SF64sub (S754_finite sa ma ea) (S754_finite sb mb eb) = S754_finite s m e.
Proof.
  intros (Hda & Hea & Hva) (Hdb & Heb & Hvb) (Hd & He & Hv).
  unfold SF64sub, SFsub.
  apply binary_normalize_exact; try assumption; [lia |].
  rewrite scaled_sub, !scaled_aligned by lia.
  rewrite Hva, Hvb, Hv, <- scaled_sub. reflexivity.
Qed.

Lemma SFadd_exact (a b : Z) (sa sb s : bool) (ma mb m : positive) (ea eb e : Z) :
  is_float a sa ma ea -> is_float b sb mb eb -> is_float (a + b) s m e ->
  SF64add (S754_finite sa ma ea) (S754_finite sb mb eb) = S754_finite s m e.
Proof.
  intros (Hda & Hea & Hva) (Hdb & Heb & Hvb) (Hd & He & Hv).
  unfold SF64add, SFadd.
  apply binary_normalize_exact; try assumption; [lia |].
  rewrite scaled_add, !scaled_aligned by lia.
  rewrite Hva, Hvb, Hv, <- scaled_add. reflexivity.
Qed.


Lemma double_sub_exact (a b : Z) :
  fits53 a -> fits53 b -> fits53 (a - b) ->
  (Cnum.double_of_Z a - Cnum.double_of_Z b)%float = Cnum.double_of_Z (a - b).
Proof.
  intros Ha Hb Hab.
  destruct (is_float_exists a Ha) as (ma & ea & Fa & _).
  destruct (is_float_exists b Hb) as (mb & eb & Fb & _).
  destruct (is_float_exists (a - b) Hab) as (m & e & F & _).
  apply Prim2SF_inj. rewrite sub_spec.
  rewrite (Prim2SF_double_of_Z _ _ _ _ Fa), (Prim2SF_double_of_Z _ _ _ _ Fb),
    (Prim2SF_double_of_Z _ _ _ _ F).
  eapply SFsub_exact; eassumption.
Qed.

Lemma double_add_exact (a b : Z) :
  fits53 a -> fits53 b -> fits53 (a + b) ->
  (Cnum.double_of_Z a + Cnum.double_of_Z b)%float = Cnum.double_of_Z (a + b).
Proof.
  intros Ha Hb Hab.
  destruct (is_float_exists a Ha) as (ma & ea & Fa & _).
  destruct (is_float_exists b Hb) as (mb & eb & Fb & _).
  destruct (is_float_exists (a + b) Hab) as (m & e & F & _).
  apply Prim2SF_inj. rewrite add_spec.
  rewrite (Prim2SF_double_of_Z _ _ _ _ Fa), (Prim2SF_double_of_Z _ _ _ _ Fb),
    (Prim2SF_double_of_Z _ _ _ _ F).
  eapply SFadd_exact; eassumption.
Qed.

Lemma truncate_is_float (z : Z) (s : bool) (m : positive) (e : Z) :
  is_float z s m e -> Cnum.truncate (Cnum.double_of_Z z) = Some z.
Proof.
  intros F. unfold Cnum.truncate. rewrite (Prim2SF_double_of_Z _ _ _ _ F).
  destruct F as (Hd & He & Hv). f_equal.
  rewrite scaled_cond_Zopp, scaled_0 in Hv. unfold scaled in Hv.
  assert (P : 0 < 2 ^ 1100) by (apply Z.pow_pos_nonneg; lia).
  destruct (0 <=? e) eqn:Hsign.
  - apply Z.leb_le in Hsign.
    replace (e + 1100) with (e + 1100)%Z in Hv by lia.
    rewrite (Z.pow_add_r 2 e 1100) in Hv by lia.
    destruct s; cbn [cond_Zopp] in *; nia.
  - apply Z.leb_gt in Hsign.
    assert (Q : 2 ^ 1100 = 2 ^ (- e) * 2 ^ (e + 1100))
      by (rewrite <- Z.pow_add_r by lia; f_equal; lia).
    assert (0 < 2 ^ (- e)) by (apply Z.pow_pos_nonneg; lia).
    assert (0 < 2 ^ (e + 1100)) by (apply Z.pow_pos_nonneg; lia).
    assert (E : Z.pos m = Z.abs z * 2 ^ (- e))
      by (destruct s; cbn [cond_Zopp] in *; nia).
    rewrite E, Z.div_mul by lia.
    destruct s; cbn [cond_Zopp] in *; nia.
Qed.

Lemma truncate_exact (z : Z) :
  Z.abs z < 2 ^ 53 -> Cnum.truncate (Cnum.double_of_Z z) = Some z.
Proof.
  intros Hz. destruct (Z.eq_dec z 0) as [-> | Hne].
  - reflexivity.
  - destruct (is_float_exists z ltac:(unfold fits53; lia)) as (m & e & F & _).
    eapply truncate_is_float; exact F.
Qed.

Lemma new_location_0 (nb_steps : Z) : new_location nb_steps 0 = loc_Exact.
Proof.
  unfold new_location, new_location_even, new_location_odd.
  destruct (Z.even nb_steps); reflexivity.
Qed.

(** The quotient of two floats that are integers is exact when it is an
    integer and a float itself. *)
Lemma SFdiv_exact (a b : Z) (s1 s2 s : bool) (m1 m2 m : positive) (e1 e2 e : Z) :
  is_float (a * b) s1 m1 e1 -> is_float b s2 m2 e2 -> is_float a s m e ->
  -1000 <= e ->
  SF64div (S754_finite s1 m1 e1) (S754_finite s2 m2 e2) = S754_finite s m e.
Proof.
  intros (Hd1 & He1 & Hv1) (Hd2 & He2 & Hv2) (Hd & He & Hv) Hlow.
  pose proof (digits2_pos_bounds m1) as B1. rewrite Hd1 in B1.
  pose proof (digits2_pos_bounds m2) as B2. rewrite Hd2 in B2.
  pose proof (digits2_pos_bounds m) as B. rewrite Hd in B.
  change (53 - 1) with 52 in *.
  (* the signs *)
  rewrite scaled_cond_Zopp, scaled_0 in Hv1, Hv2, Hv.
  assert (P : 0 < 2 ^ 1100) by (apply Z.pow_pos_nonneg; lia).
  pose proof (scaled_pos m1 e1 ltac:(lia)) as S1.
  pose proof (scaled_pos m2 e2 ltac:(lia)) as S2.
  pose proof (scaled_pos m e ltac:(lia)) as S0.
  assert (Hs : xorb s1 s2 = s).
  { destruct s1, s2, s; cbn [cond_Zopp xorb] in *; try reflexivity; exfalso; nia. }
  (* the mantissas *)
  assert (Habs : scaled (Z.pos m1) e1 * 2 ^ 1100
                 = scaled (Z.pos m) e * scaled (Z.pos m2) e2).
  { destruct s1, s2, s; cbn [cond_Zopp xorb] in *; try discriminate Hs; nia. }
  unfold scaled in Habs.
  set (t := e1 - e - e2).
  assert (Ht0 : 0 <= t).
  { destruct (Z_le_gt_dec 0 t) as [H | H]; [exact H | exfalso].
    assert (E : 2 ^ (e + 1100) * 2 ^ (e2 + 1100)
                = 2 ^ (- t) * (2 ^ (e1 + 1100) * 2 ^ 1100)).
    { rewrite <- !Z.pow_add_r by (unfold t in *; lia). f_equal. unfold t. lia. }
    assert (0 < 2 ^ (e1 + 1100)) by (apply Z.pow_pos_nonneg; lia).
    assert (1 <= 2 ^ (- t)) by (apply (Z.pow_le_mono_r 2 0 (- t)); lia).
    assert (Z.pos m1 = Z.pos m * Z.pos m2 * 2 ^ (- t)) by nia.
    assert (2 ^ 104 = 2 ^ 52 * 2 ^ 52) by reflexivity.
    assert (2 ^ 53 < 2 ^ 104) by (apply Z.pow_lt_mono_r; lia).
    nia. }
  assert (Hmul : Z.pos m1 * 2 ^ t = Z.pos m * Z.pos m2).
  { assert (E : 2 ^ (e1 + 1100) * 2 ^ 1100
                = 2 ^ t * (2 ^ (e + 1100) * 2 ^ (e2 + 1100))).
    { rewrite <- !Z.pow_add_r by (unfold t in *; lia). f_equal. unfold t. lia. }
    assert (0 < 2 ^ (e + 1100)) by (apply Z.pow_pos_nonneg; lia).
    assert (0 < 2 ^ (e2 + 1100)) by (apply Z.pow_pos_nonneg; lia).
    nia. }
  assert (Ht : 52 <= t <= 53).
  { assert (2 ^ 104 = 2 ^ 52 * 2 ^ 52) by reflexivity.
    assert (2 ^ 106 = 2 ^ 53 * 2 ^ 53) by reflexivity.
    assert (2 ^ 104 = 2 ^ 53 * 2 ^ 51) by reflexivity.
    assert (2 ^ 106 = 2 ^ 52 * 2 ^ 54) by reflexivity.
    split.
    - destruct (Z_le_gt_dec 52 t) as [H3 | H3]; [exact H3 | exfalso].
      assert (2 ^ t <= 2 ^ 51) by (apply Z.pow_le_mono_r; lia). nia.
    - destruct (Z_le_gt_dec t 53) as [H3 | H3]; [exact H3 | exfalso].
      assert (2 ^ 54 <= 2 ^ t) by (apply Z.pow_le_mono_r; lia). nia. }
  unfold SF64div, SFdiv, SFdiv_core_binary. cbn [Zdigits2].
  rewrite Hd1, Hd2.
  replace (Z.min (fexp prec emax (53 + e1 - (53 + e2))) (e1 - e2))
    with (e1 - e2 - 53)
    by (unfold fexp, SpecFloat.emin, prec, emax, t in *; lia).
  replace (e1 - e2 - (e1 - e2 - 53)) with 53 by lia.
  cbv iota.
  assert (Hq : Z.shiftl (Z.pos m1) 53 = Z.pos m2 * (Z.pos m * 2 ^ (53 - t))).
  { rewrite Z.shiftl_mul_pow2 by lia.
    assert (E : 2 ^ 53 = 2 ^ t * 2 ^ (53 - t))
      by (rewrite <- Z.pow_add_r by lia; f_equal; lia).
    rewrite E. nia. }
  rewrite Hq.
  pose proof (Z.div_eucl_eq (Z.pos m2 * (Z.pos m * 2 ^ (53 - t))) (Z.pos m2)
                ltac:(lia)) as Heucl.
  pose proof (Z.mod_pos_bound (Z.pos m2 * (Z.pos m * 2 ^ (53 - t))) (Z.pos m2)
                ltac:(lia)) as Hmod.
  unfold Z.modulo in Hmod.
  destruct (Z.div_eucl (Z.pos m2 * (Z.pos m * 2 ^ (53 - t))) (Z.pos m2))
    as [q r].
  cbn [fst snd] in Heucl, Hmod.
  assert (Hqv : q = Z.pos m * 2 ^ (53 - t)).
  { set (K := Z.pos m * 2 ^ (53 - t)) in *.
    destruct (Z.lt_trichotomy q K) as [L | [L | L]]; [exfalso | exact L | exfalso].
    - assert (Z.pos m2 * 1 <= Z.pos m2 * (K - q))
        by (apply Z.mul_le_mono_nonneg_l; lia). lia.
    - assert (Z.pos m2 * 1 <= Z.pos m2 * (q - K))
        by (apply Z.mul_le_mono_nonneg_l; lia). lia. }
  assert (Hr : r = 0) by (subst q; lia).
  subst r. rewrite new_location_0, Hs, Hqv.
  rewrite <- (Z2Nat.id (53 - t)) by lia. rewrite <- iter_xO.
  replace (e1 - e2 - 53) with (e - Z.of_nat (Z.to_nat (53 - t)))
    by (rewrite Z2Nat.id by lia; unfold t; lia).
  apply binary_round_aux_exact; try assumption. reflexivity.
Qed.

Lemma is_float_1000 : is_float 1000 false 8796093022208000 (-43).
Proof. repeat split; try reflexivity; vm_compute; discriminate. Qed.

(** A whole number of thousands divided by a thousand. *)
Lemma double_div_1000 (x : Z) :
  fits53 (125 * x) ->
  (Cnum.double_of_Z (1000 * x) / 1000)%float = Cnum.double_of_Z x.
Proof.
  intros H.
  assert (Hx : fits53 x) by (unfold fits53 in *; lia).
  destruct (is_float_exists (125 * x) H) as (m1 & e1 & F1 & E1).
  destruct (is_float_exists x Hx) as (m & e & F & E).
  pose proof (is_float_shift _ _ _ _ 3 F1 ltac:(lia) ltac:(lia)) as F3.
  replace (125 * x * 2 ^ 3) with (x * 1000) in F3 by (change (2 ^ 3) with 8; lia).
  replace ((125 * x <? 0)) with (x <? 0) in F3
    by (destruct (x <? 0) eqn:A; symmetry;
        [apply Z.ltb_lt in A; apply Z.ltb_lt | apply Z.ltb_ge in A; apply Z.ltb_ge];
        lia).
  apply Prim2SF_inj. rewrite div_spec.
  replace (1000 * x) with (x * 1000) by lia.
  rewrite (Prim2SF_double_of_Z _ _ _ _ F3), (Prim2SF_double_of_Z _ _ _ _ F).
  change (Prim2SF 1000) with (S754_finite false 8796093022208000 (-43)).
  eapply SFdiv_exact; [exact F3 | exact is_float_1000 | exact F | lia].
Qed.

(** *** Type inference on whole Numbers

    The table of [inferred_datum_type] reads [IsInt32] and [IsUint32]
    off the double; on a Number that is an integer of at most 53 bits
    they are the range tests on that integer. *)

Lemma SFeqb_finite_refl (s : bool) (m : positive) (e : Z) :
  SFeqb (S754_finite s m e) (S754_finite s m e) = true.
Proof.
  unfold SFeqb, SFcompare. rewrite Z.compare_refl.
  assert (H : Pos.compare_cont Eq m m = Eq) by apply Pos.compare_cont_refl.
  rewrite H. destruct s; reflexivity.
Qed.

Lemma is_integral_in_double_of_Z (lo hi z : Z) :
  Z.abs z < 2 ^ 53 ->
  Cnum.is_integral_in lo hi (Cnum.double_of_Z z) = (lo <=? z) && (z <=? hi).
Proof.
  intros Hz. unfold Cnum.is_integral_in. rewrite truncate_exact by exact Hz.
  destruct (Z.eq_dec z 0) as [-> | Hne].
  - reflexivity.
  - destruct (is_float_exists z ltac:(lia)) as (m & e & F & _).
    rewrite eqb_spec. unfold Cnum.is_negative_zero.
    rewrite (Prim2SF_double_of_Z _ _ _ _ F), SFeqb_finite_refl. reflexivity.
Qed.

(** X1. For a whole Number of at most 53 bits the type inferred is
    [int4] within the signed 32-bit range, [int8] beyond it within the
    unsigned 32-bit range, and [float8] everywhere else: a whole
    number from 2^32 on, or below -2^31, is not inferred as [int8]. *)
Lemma inferred_datum_type_integer (z : Z) :
  Z.abs z < 2 ^ 53 ->
  inferred_datum_type (VNumber (Cnum.double_of_Z z))
  = if (Cnum.INT32_MIN <=? z) && (z <=? Cnum.INT32_MAX) then INT4OID
    else if (0 <=? z) && (z <=? 2 ^ 32 - 1) then INT8OID
    else FLOAT8OID.
Proof.
  intros Hz. unfold inferred_datum_type. cbn [IsUndefined IsNull IsBoolean orb].
  unfold IsInt32, IsUint32. rewrite !is_integral_in_double_of_Z by exact Hz.
  destruct ((Cnum.INT32_MIN <=? z) && (z <=? Cnum.INT32_MAX)); [reflexivity |].
  destruct ((0 <=? z) && (z <=? 2 ^ 32 - 1)); reflexivity.
Qed.

(** *** Timestamps (C5, C6) *)

Lemma epoch_shift_value : epoch_shift = Cnum.double_of_Z 946684800000.
Proof. reflexivity. Qed.

Lemma sub_epoch_shift (d : Z) :
  Z.abs d <= 8640000000000000 ->
  (Cnum.double_of_Z d - epoch_shift)%float = Cnum.double_of_Z (d - 946684800000).
Proof.
  intros Hd. rewrite epoch_shift_value.
  destruct (Z.eq_dec d 0) as [-> | H0]; [reflexivity |].
  destruct (Z.eq_dec d 946684800000) as [-> | H1]; [reflexivity |].
  change (2 ^ 53) with 9007199254740992 in *.
  apply double_sub_exact; unfold fits53;
    change (2 ^ 53) with 9007199254740992; lia.
Qed.

Lemma add_epoch_shift (x : Z) :
  Z.abs x <= 72057594037927 ->
  (Cnum.double_of_Z x + epoch_shift)%float = Cnum.double_of_Z (x + 946684800000).
Proof.
  intros Hx. rewrite epoch_shift_value.
  destruct (Z.eq_dec x 0) as [-> | H0]; [reflexivity |].
  destruct (Z.eq_dec x (-946684800000)) as [-> | H1]; [reflexivity |].
  apply double_add_exact; unfold fits53;
    change (2 ^ 53) with 9007199254740992; lia.
Qed.

Lemma cast_double_signed_exact (w : Z) (what : string) (z : Z) :
  Z.abs z < 2 ^ 53 -> - 2 ^ (w - 1) <= z <= 2 ^ (w - 1) - 1 ->
  Cnum.cast_double_signed w what (Cnum.double_of_Z z) = Ok z.
Proof.
  intros Hz Hw. unfold Cnum.cast_double_signed.
  rewrite truncate_exact by exact Hz.
  assert (E : (- 2 ^ (w - 1) <=? z) && (z <=? 2 ^ (w - 1) - 1) = true)
    by (apply andb_true_iff; split; apply Z.leb_le; lia).
  rewrite E. reflexivity.
Qed.

Lemma TimeClip_exact (d : Z) :
  Z.abs d <= 8640000000000000 ->
  TimeClip (Cnum.double_of_Z d) = Cnum.double_of_Z d.
Proof.
  intros Hd. unfold TimeClip.
  rewrite truncate_exact by (change (2 ^ 53) with 9007199254740992; lia).
  assert (E : (Z.abs d <=? 8640000000000000) = true) by (apply Z.leb_le; exact Hd).
  rewrite E. reflexivity.
Qed.

(** The epoch value of a timestamp of a whole number of milliseconds. *)
Lemma TimestampTzToEpoch_milliseconds (x : Z) :
  Z.abs x <= 72057594037927 ->
  TimestampTzToEpoch (TimestampInt64 (x * 1000))
  = Cnum.double_of_Z (x + 946684800000).
Proof.
  intros Hx. unfold TimestampTzToEpoch.
  destruct (Z.eq_dec x 0) as [-> | H0]; [reflexivity |].
  replace (x * 1000) with (1000 * x) by lia.
  rewrite double_div_1000
    by (unfold fits53; change (2 ^ 53) with 9007199254740992; lia).
  apply add_epoch_shift. exact Hx.
Qed.

Section TimestampProofs.

Variable cfg : Config.
Variable pg : Host.
Variable js : Engine.

Lemma EpochToTimestampTz_int64 (e : Z) :
  HAVE_INT64_TIMESTAMP cfg = true ->
  Z.abs e <= 8640000000000000 ->
  EpochToTimestampTz cfg (Cnum.double_of_Z e)
  = Ok (Int64GetDatum ((e - 946684800000) * 1000)).
Proof.
  intros Hcfg He. unfold EpochToTimestampTz. rewrite Hcfg.
  rewrite sub_epoch_shift by exact He.
  rewrite cast_double_signed_exact;
    [| change (2 ^ 53) with 9007199254740992; lia
     | change (2 ^ (64 - 1)) with 9223372036854775808; lia ].
  rewrite bind_Ok. unfold int64_mul.
  assert (E : (Cnum.INT64_MIN <=? (e - 946684800000) * 1000)
              && ((e - 946684800000) * 1000 <=? Cnum.INT64_MAX) = true).
  { apply andb_true_iff. unfold Cnum.INT64_MIN, Cnum.INT64_MAX.
    change (2 ^ 63) with 9223372036854775808.
    split; apply Z.leb_le; lia. }
  rewrite E. reflexivity.
Qed.

Lemma scalar_switch_timestamp (time : float) (typid : Oid) :
  typid = TIMESTAMPOID \/ typid = TIMESTAMPTZOID ->
  scalar_switch cfg pg js (VDate time) typid
  = Some (EpochToTimestampTz cfg time).
Proof. intros [-> | ->]; reflexivity. Qed.

Lemma ToScalarValue_timestamp (datum : Datum) (isnull : bool) (type : plv8_type) :
  typid type = TIMESTAMPOID \/ typid type = TIMESTAMPTZOID ->
  ToScalarValue cfg pg js datum isnull type
  = (tm <- DatumGetTimestampTz cfg datum ;;
     Ok (Date_New (TimestampTzToEpoch tm))).
Proof. intros [H | H]; unfold ToScalarValue; rewrite H; reflexivity. Qed.

(** C5. With timestamps in microseconds the epoch value of a timestamp
    [tm] is [tm / 1000 + 946684800000] milliseconds, and with timestamps
    in seconds [tm * 1000 + 946684800000], in double arithmetic;
    946684800000 is 86400000 times the 10957 days between 1970-01-01
    and 2000-01-01, the difference of their Julian day numbers. Encoding
    inverts the formula: with microseconds the timestamp of an epoch
    value [e], a whole number of milliseconds as every time value of a
    Date is, is [(e - 946684800000) * 1000] exactly, a whole number of
    thousands whose thousandth and 946684800000 make [e] again; and
    with seconds it is [(e - 946684800000) / 1000] in double
    arithmetic. *)
Theorem epoch_conversion_formulas :
  (POSTGRES_EPOCH_JDATE = date2j 2000 1 1
   /\ UNIX_EPOCH_JDATE = date2j 1970 1 1
   /\ POSTGRES_EPOCH_JDATE - UNIX_EPOCH_JDATE = 10957
   /\ epoch_shift = 946684800000%float
   /\ 10957 * 86400000 = 946684800000)
  /\ (forall tm : Z,
         TimestampTzToEpoch (TimestampInt64 tm)
         = (Cnum.double_of_Z tm / 1000 + 946684800000)%float)
  /\ (forall tm : float,
         TimestampTzToEpoch (TimestampFloat8 tm)
         = (tm * 1000 + 946684800000)%float)
  /\ (forall e : Z,
         HAVE_INT64_TIMESTAMP cfg = true ->
         Z.abs e <= 8640000000000000 ->
         exists tm : Z,
           EpochToTimestampTz cfg (Cnum.double_of_Z e) = Ok (Int64GetDatum tm)
           /\ tm = (e - 946684800000) * 1000
           /\ tm mod 1000 = 0
           /\ tm / 1000 + 946684800000 = e)
  /\ (forall e : float,
         HAVE_INT64_TIMESTAMP cfg = false ->
         EpochToTimestampTz cfg e
         = Ok (Float8GetDatum ((e - 946684800000) / 1000)%float)).
Proof.
  split; [repeat split |].
  split; [intros tm; reflexivity |].
  split; [intros tm; reflexivity |].
  split.
  - intros e Hcfg He. exists ((e - 946684800000) * 1000).
    split; [apply EpochToTimestampTz_int64; assumption |].
    split; [reflexivity |].
    split; [apply Z.mod_mul; lia |].
    rewrite Z.div_mul by lia. lia.
  - intros e Hcfg. unfold EpochToTimestampTz. rewrite Hcfg. reflexivity.
Qed.

(** C6, amended. With timestamps in microseconds, a Date whose time
    value [d] is within 72057594037927 milliseconds of 2000-01-01 (so
    that the timestamp fits 56 bits) is encoded as the timestamp
    [(d - 946684800000) * 1000], and decoding that timestamp gives the
    Date of time value [d] again. *)
Theorem timestamp_there_and_back (type : plv8_type) (d : Z) :
  HAVE_INT64_TIMESTAMP cfg = true ->
  typid type = TIMESTAMPOID \/ typid type = TIMESTAMPTZOID ->
  Ascii.eqb (category type) TYPCATEGORY_COMPOSITE = false ->
  Z.abs (d - 946684800000) <= 72057594037927 ->
  ToScalarDatum cfg pg js (VDate (Cnum.double_of_Z d)) type
  = Ok (Int64GetDatum ((d - 946684800000) * 1000), false)
  /\ ToScalarValue cfg pg js (Int64GetDatum ((d - 946684800000) * 1000))
       false type
     = Ok (VDate (Cnum.double_of_Z d)).
Proof.
  intros Hcfg Htyp Hcat Hd.
  assert (Hrange : Z.abs d <= 8640000000000000) by lia.
  split.
  - unfold ToScalarDatum. rewrite Hcat. cbn [IsUndefined IsNull orb].
    rewrite (scalar_switch_timestamp _ _ Htyp).
    cbn [NumberValue].
    rewrite EpochToTimestampTz_int64 by assumption. reflexivity.
  - rewrite (ToScalarValue_timestamp _ _ _ Htyp).
    unfold DatumGetTimestampTz. rewrite Hcfg.
    cbn [Int64GetDatum DatumGetWord]. rewrite !bind_Ok.
    rewrite TimestampTzToEpoch_milliseconds by exact Hd.
    replace (d - 946684800000 + 946684800000) with d by lia.
    unfold Date_New. rewrite TimeClip_exact by exact Hrange. reflexivity.
Qed.

End TimestampProofs.

Lemma epoch_conversion_formulas_witness :
  let e := 1577836800000 in
  HAVE_INT64_TIMESTAMP Sample.cfg = true
  /\ Z.abs e <= 8640000000000000
  /\ exists tm : Z,
       EpochToTimestampTz Sample.cfg (Cnum.double_of_Z e) = Ok (Int64GetDatum tm)
       /\ tm = (e - 946684800000) * 1000
       /\ tm mod 1000 = 0
       /\ tm / 1000 + 946684800000 = e.
Proof.
  split; [reflexivity |]. split; [vm_compute; discriminate |].
  apply (proj1 (proj2 (proj2 (proj2 (epoch_conversion_formulas Sample.cfg))))
           1577836800000 eq_refl).
  vm_compute. discriminate.
Defined.

Lemma timestamp_there_and_back_witness :
  let d := 1577836800000 in
  let type := Sample.scalar_type TIMESTAMPOID in
  HAVE_INT64_TIMESTAMP Sample.cfg = true
  /\ (typid type = TIMESTAMPOID \/ typid type = TIMESTAMPTZOID)
  /\ Ascii.eqb (category type) TYPCATEGORY_COMPOSITE = false
  /\ Z.abs (d - 946684800000) <= 72057594037927
  /\ ToScalarDatum Sample.cfg Sample.pg Sample.js (VDate (Cnum.double_of_Z d)) type
     = Ok (Int64GetDatum 631152000000000, false)
  /\ ToScalarValue Sample.cfg Sample.pg Sample.js (Int64GetDatum 631152000000000)
       false type
     = Ok (VDate (Cnum.double_of_Z d)).
Proof.
  assert (Hd : Z.abs (1577836800000 - 946684800000) <= 72057594037927)
    by (vm_compute; discriminate).
  split; [reflexivity |]. split; [left; reflexivity |].
  split; [reflexivity |]. split; [exact Hd |].
  exact (timestamp_there_and_back Sample.cfg Sample.pg Sample.js
           (Sample.scalar_type TIMESTAMPOID) 1577836800000
           eq_refl (or_introl eq_refl) eq_refl Hd).
Defined.

(** C6 as it is stated fails for Dates far from 2000. With timestamps
    in microseconds the Date of time value 73004278837929 (in the year
    4283) comes back a millisecond earlier: its timestamp does not fit
    the 53 bits of a double, and dividing the double nearest to it by a
    thousand falls short of the whole millisecond. With timestamps in
    seconds the Date of time value 69666161536008 (in the year 4177)
    does not come back either, although within the range of the first
    it would. Both are time values a Date can hold (at most 8.64e15 in
    magnitude) and timestamps the database can hold. *)
Lemma timestamp_round_trip_fails :
  (let d := 73004278837929 in
   let type := Sample.scalar_type TIMESTAMPOID in
   Z.abs d <= 8640000000000000
   /\ ToScalarDatum Sample.cfg Sample.pg Sample.js (VDate (Cnum.double_of_Z d)) type
      = Ok (Int64GetDatum 72057594037929000, false)
   /\ ToScalarValue Sample.cfg Sample.pg Sample.js
        (Int64GetDatum 72057594037929000) false type
      = Ok (VDate (Cnum.double_of_Z (d - 1)))
   /\ Cnum.double_of_Z (d - 1) <> Cnum.double_of_Z d)
  /\ (let d := 69666161536008 in
      let type := Sample.scalar_type TIMESTAMPOID in
      Z.abs (d - 946684800000) <= 72057594037927
      /\ exists (tm : float) (back : float),
           ToScalarDatum Sample.cfg_float_timestamp Sample.pg Sample.js
             (VDate (Cnum.double_of_Z d)) type
           = Ok (Float8GetDatum tm, false)
           /\ ToScalarValue Sample.cfg_float_timestamp Sample.pg Sample.js
                (Float8GetDatum tm) false type
              = Ok (VDate back)
           /\ PrimFloat.eqb back (Cnum.double_of_Z d) = false).
Proof.
  split.
  - repeat split; try (vm_compute; reflexivity); try (vm_compute; discriminate).
  - split; [vm_compute; discriminate |].
    eexists. eexists. split; [vm_compute; reflexivity |].
    split; vm_compute; reflexivity.
Qed.

(** *** Outcomes and lists, continued *)

Lemma bind_assoc {A B C : Type} (r : Result A) (f : A -> Result B)
  (g : B -> Result C) :
  bind (bind r f) g = bind r (fun a => bind (f a) g).
Proof. destruct r; reflexivity. Qed.

Lemma mapM_cons {A B : Type} (f : A -> Result B) (a : A) (rest : list A) :
  mapM f (a :: rest) = (b <- f a ;; bs <- mapM f rest ;; Ok (b :: bs)).
Proof. reflexivity. Qed.

Lemma mapM_ext {A B : Type} (f g : A -> Result B) (l : list A) :
  (forall a, f a = g a) -> mapM f l = mapM g l.
Proof.
  intros H. induction l as [| a rest IH]; [reflexivity |].
  cbn [mapM]. rewrite H, IH. reflexivity.
Qed.

(** The first element that fails is the one whose error is raised. *)
Lemma mapM_first_failure {A B : Type} (f : A -> Result B) (before : list A)
  (a : A) (after : list A) (converted : list B) (e : Error) :
  mapM f before = Ok converted -> f a = Raise e ->
  mapM f (before ++ a :: after) = Raise e.
Proof.
  revert converted. induction before as [| x rest IH]; intros converted Hb Ha.
  - cbn [app]. rewrite mapM_cons, Ha. reflexivity.
  - cbn [app]. rewrite mapM_cons in *.
    destruct (f x) as [e' | b]; [discriminate Hb |]. rewrite bind_Ok in *.
    destruct (mapM f rest) as [e' | bs] eqn:Hrest; [discriminate Hb |].
    rewrite (IH bs eq_refl Ha). reflexivity.
Qed.

Lemma foldM_app {S A : Type} (f : S -> A -> Result S) (l1 l2 : list A) (s : S) :
  foldM f (l1 ++ l2) s = (s' <- foldM f l1 s ;; foldM f l2 s').
Proof.
  revert s. induction l1 as [| a rest IH]; intros s; [reflexivity |].
  cbn [app]. rewrite !foldM_cons, bind_assoc.
  destruct (f s a); [reflexivity |]. rewrite !bind_Ok. apply IH.
Qed.

(** *** Whole numbers (OIDOID, INT2OID, INT4OID, INT8OID) *)

Lemma inferred_datum_type_integer_witness :
  Z.abs 4294967296 < 2 ^ 53
  /\ inferred_datum_type (VNumber (Cnum.double_of_Z 4294967295)) = INT8OID
  /\ inferred_datum_type (VNumber (Cnum.double_of_Z 4294967296)) = FLOAT8OID.
Proof.
  split; [reflexivity |]. split.
  - exact (inferred_datum_type_integer 4294967295 eq_refl).
  - exact (inferred_datum_type_integer 4294967296 eq_refl).
Defined.

Lemma wrap_signed_range (w z : Z) :
  0 < w -> - 2 ^ (w - 1) <= Cnum.wrap_signed w z < 2 ^ (w - 1).
Proof.
  intros Hw. unfold Cnum.wrap_signed.
  assert (E : 2 ^ w = 2 * 2 ^ (w - 1)).
  { replace w with (Z.succ (w - 1)) at 1 by lia.
    rewrite Z.pow_succ_r by lia. reflexivity. }
  assert (P : 0 < 2 ^ (w - 1)) by (apply Z.pow_pos_nonneg; lia).
  pose proof (Z.mod_pos_bound (z + 2 ^ (w - 1)) (2 ^ w) ltac:(lia)). lia.
Qed.

(** What [wrap_signed] gives differs from what it is given by a
    multiple of [2 ^ w]. *)
Lemma wrap_signed_congruent (w z : Z) :
  0 < w -> (Cnum.wrap_signed w z - z) mod 2 ^ w = 0.
Proof.
  intros Hw. unfold Cnum.wrap_signed.
  rewrite (Z.mod_eq (z + 2 ^ (w - 1)) (2 ^ w)) by (apply Z.pow_nonzero; lia).
  replace (z + 2 ^ (w - 1) - 2 ^ w * ((z + 2 ^ (w - 1)) / 2 ^ w)
           - 2 ^ (w - 1) - z)
    with (0 + (- ((z + 2 ^ (w - 1)) / 2 ^ w)) * 2 ^ w) by ring.
  rewrite Z_mod_plus_full. apply Z.mod_0_l. apply Z.pow_nonzero; lia.
Qed.

(** [(int16) (int32) z] is [(int16) z]. *)
Lemma wrap_signed_16_32 (z : Z) :
  Cnum.wrap_signed 16 (Cnum.wrap_signed 32 z) = Cnum.wrap_signed 16 z.
Proof.
  unfold Cnum.wrap_signed. f_equal.
  change (2 ^ (32 - 1)) with (32768 * 2 ^ 16).
  change (2 ^ 32) with (65536 * 2 ^ 16).
  rewrite (Z.mod_eq (z + 32768 * 2 ^ 16) (65536 * 2 ^ 16)) by (cbv; discriminate).
  set (q := (z + 32768 * 2 ^ 16) / (65536 * 2 ^ 16)).
  replace (z + 32768 * 2 ^ 16 - 65536 * 2 ^ 16 * q - 32768 * 2 ^ 16 + 2 ^ (16 - 1))
    with (z + 2 ^ (16 - 1) + (- 65536 * q) * 2 ^ 16) by ring.
  apply Z_mod_plus_full.
Qed.

Lemma ToInt32_double_of_Z (z : Z) :
  Z.abs z < 2 ^ 53 -> Cnum.ToInt32 (Cnum.double_of_Z z) = Cnum.wrap_signed 32 z.
Proof.
  intros H. unfold Cnum.ToInt32. rewrite truncate_exact by exact H. reflexivity.
Qed.

Lemma ToUint32_double_of_Z (z : Z) :
  Z.abs z < 2 ^ 53 -> Cnum.ToUint32 (Cnum.double_of_Z z) = Cnum.wrap_unsigned 32 z.
Proof.
  intros H. unfold Cnum.ToUint32. rewrite truncate_exact by exact H. reflexivity.
Qed.

Lemma IntegerValue_double_of_Z (z : Z) :
  Z.abs z < 2 ^ 53 -> Cnum.IntegerValue (Cnum.double_of_Z z) = z.
Proof.
  intros H. unfold Cnum.IntegerValue. rewrite truncate_exact by exact H.
  assert (R : Z.max Cnum.INT64_MIN (Z.min Cnum.INT64_MAX z) = z).
  { unfold Cnum.INT64_MIN, Cnum.INT64_MAX.
    assert (2 ^ 53 < 2 ^ 63) by (apply Z.pow_lt_mono_r; lia). lia. }
  rewrite R.
  destruct (Z.eq_dec z 0) as [-> | Hne]; [reflexivity |].
  destruct (is_float_exists z ltac:(lia)) as (m & e & F & _).
  rewrite (Prim2SF_double_of_Z _ _ _ _ F). reflexivity.
Qed.

Lemma IntegerValue_range (d : float) :
  Cnum.INT64_MIN <= Cnum.IntegerValue d <= Cnum.INT64_MAX.
Proof.
  unfold Cnum.IntegerValue, Cnum.INT64_MIN, Cnum.INT64_MAX.
  destruct (Prim2SF d) as [s | s | | s m e]; try destruct s; try lia;
    destruct (Cnum.truncate d); lia.
Qed.

(** The integer value of a finite Number is its integer part, kept
    within the 64-bit range. *)
Lemma IntegerValue_truncate (d : float) (z : Z) :
  Cnum.truncate d = Some z ->
  Cnum.IntegerValue d = Z.max Cnum.INT64_MIN (Z.min Cnum.INT64_MAX z).
Proof.
  unfold Cnum.IntegerValue, Cnum.truncate.
  destruct (Prim2SF d) as [s | s | | s m e]; intros H;
    try discriminate H; inversion H; reflexivity.
Qed.

Lemma SFeqb_refl_not_nan (x : spec_float) :
  x <> S754_nan -> SFeqb x x = true.
Proof.
  destruct x as [s | s | | s m e]; intros H.
  - destruct s; reflexivity.
  - destruct s; reflexivity.
  - contradiction H. reflexivity.
  - apply SFeqb_finite_refl.
Qed.

Lemma is_nan_Prim2SF (d : float) :
  PrimFloat.is_nan d = true -> Prim2SF d = S754_nan.
Proof.
  unfold PrimFloat.is_nan. rewrite eqb_spec. intros H.
  destruct (Prim2SF d) as [s | s | | s m e] eqn:E; try reflexivity;
    rewrite SFeqb_refl_not_nan in H by discriminate; discriminate H.
Qed.

Section IntegerProofs.

Variable cfg : Config.
Variable pg : Host.
Variable js : Engine.

(** The switch of [ToScalarDatum] is reached by every value that is
    not undefined or null, under a descriptor that is not of a
    composite type. *)
Lemma ToScalarDatum_switch (value : Value) (type : plv8_type) :
  Ascii.eqb (category type) TYPCATEGORY_COMPOSITE = false ->
  IsUndefined value || IsNull value = false ->
  ToScalarDatum cfg pg js value type
  = match scalar_switch cfg pg js value (typid type) with
    | Some returned => datum <- returned ;; Ok (datum, false)
    | None => datum <- lexical_cast pg js value type ;; Ok (datum, false)
    end.
Proof. intros Hcat Hnull. unfold ToScalarDatum. rewrite Hcat, Hnull. reflexivity. Qed.

Lemma scalar_switch_OIDOID (value : Value) :
  scalar_switch cfg pg js value OIDOID
  = if IsNumber value then Some (Ok (ObjectIdGetDatum (Uint32Value value)))
    else None.
Proof. reflexivity. Qed.

Lemma scalar_switch_INT2OID (value : Value) :
  scalar_switch cfg pg js value INT2OID
  = if IsNumber value then
      if CHECK_INTEGER_OVERFLOW cfg then
        Some (z <- int82 (IntegerValue value) ;; Ok (Int16GetDatum z))
      else Some (Ok (Int16GetDatum (Cnum.wrap_signed 16 (Int32Value value))))
    else None.
Proof. reflexivity. Qed.

Lemma scalar_switch_INT4OID (value : Value) :
  scalar_switch cfg pg js value INT4OID
  = if IsNumber value then
      if CHECK_INTEGER_OVERFLOW cfg then
        Some (z <- int84 (IntegerValue value) ;; Ok (Int32GetDatum z))
      else Some (Ok (Int32GetDatum (Int32Value value)))
    else None.
Proof. reflexivity. Qed.

Lemma scalar_switch_INT8OID (value : Value) :
  scalar_switch cfg pg js value INT8OID
  = if IsBigInt value then Some (Ok (Int64GetDatum (Int64Value value)))
    else if IsNumber value then Some (Ok (Int64GetDatum (IntegerValue value)))
    else None.
Proof. reflexivity. Qed.

Lemma ToScalarValue_OIDOID (w : Z) (isnull : bool) (type : plv8_type) :
  typid type = OIDOID ->
  ToScalarValue cfg pg js (ObjectIdGetDatum w) isnull type
  = Ok (VNumber (Cnum.double_of_Z (Cnum.wrap_signed 32 w))).
Proof. intros H. unfold ToScalarValue. rewrite H. reflexivity. Qed.

Lemma ToScalarValue_INT2OID (w : Z) (isnull : bool) (type : plv8_type) :
  typid type = INT2OID ->
  ToScalarValue cfg pg js (Int16GetDatum w) isnull type
  = Ok (VNumber (Cnum.double_of_Z (Cnum.wrap_signed 16 w))).
Proof. intros H. unfold ToScalarValue. rewrite H. reflexivity. Qed.

Lemma ToScalarValue_INT4OID (w : Z) (isnull : bool) (type : plv8_type) :
  typid type = INT4OID ->
  ToScalarValue cfg pg js (Int32GetDatum w) isnull type
  = Ok (VNumber (Cnum.double_of_Z (Cnum.wrap_signed 32 w))).
Proof. intros H. unfold ToScalarValue. rewrite H. reflexivity. Qed.

(** What the cases [INT2OID] and [INT4OID] store for a whole Number. *)
Lemma encode_small_integer (type : plv8_type) (w z : Z) :
  small_integer type w ->
  Ascii.eqb (category type) TYPCATEGORY_COMPOSITE = false ->
  Z.abs z < 2 ^ 53 ->
  ToScalarDatum cfg pg js (VNumber (Cnum.double_of_Z z)) type
  = if CHECK_INTEGER_OVERFLOW cfg then
      if (- 2 ^ (w - 1) <=? z) && (z <=? 2 ^ (w - 1) - 1)
      then Ok (DatumWord z, false)
      else Raise (ereport_ERROR
                    (if w =? 16 then "smallint out of range"
                     else "integer out of range"))
    else Ok (DatumWord (Cnum.wrap_signed w z), false).
Proof.
  intros [[Htyp ->] | [Htyp ->]] Hcat Hz;
    rewrite ToScalarDatum_switch, Htyp by (exact Hcat || reflexivity).
  - rewrite scalar_switch_INT2OID. cbn [IsNumber].
    unfold IntegerValue, Int32Value. cbn [NumberValue].
    rewrite IntegerValue_double_of_Z, ToInt32_double_of_Z by exact Hz.
    rewrite wrap_signed_16_32. unfold int82, Cnum.INT16_MIN, Cnum.INT16_MAX.
    change (16 - 1) with 15. change (16 =? 16) with true. cbv iota.
    destruct (CHECK_INTEGER_OVERFLOW cfg); [| reflexivity].
    destruct ((- 2 ^ 15 <=? z) && (z <=? 2 ^ 15 - 1)); reflexivity.
  - rewrite scalar_switch_INT4OID. cbn [IsNumber].
    unfold IntegerValue, Int32Value. cbn [NumberValue].
    rewrite IntegerValue_double_of_Z, ToInt32_double_of_Z by exact Hz.
    unfold int84, Cnum.INT32_MIN, Cnum.INT32_MAX.
    change (32 - 1) with 31. change (32 =? 16) with false. cbv iota.
    destruct (CHECK_INTEGER_OVERFLOW cfg); [| reflexivity].
    destruct ((- 2 ^ 31 <=? z) && (z <=? 2 ^ 31 - 1)); reflexivity.
Qed.

Lemma decode_small_integer (type : plv8_type) (w z : Z) (isnull : bool) :
  small_integer type w ->
  ToScalarValue cfg pg js (DatumWord z) isnull type
  = Ok (VNumber (Cnum.double_of_Z (Cnum.wrap_signed w z))).
Proof.
  intros [[Htyp ->] | [Htyp ->]].
  - apply (ToScalarValue_INT2OID z isnull type Htyp).
  - apply (ToScalarValue_INT4OID z isnull type Htyp).
Qed.

(** X2. A whole Number within the range of [smallint], or of
    [integer], is stored as that integer and read back as the same
    Number, with the overflow check and without it. *)
Theorem small_integer_there_and_back (type : plv8_type) (w z : Z) :
  small_integer type w ->
  Ascii.eqb (category type) TYPCATEGORY_COMPOSITE = false ->
  - 2 ^ (w - 1) <= z <= 2 ^ (w - 1) - 1 ->
  ToScalarDatum cfg pg js (VNumber (Cnum.double_of_Z z)) type
  = Ok (DatumWord z, false)
  /\ ToScalarValue cfg pg js (DatumWord z) false type
     = Ok (VNumber (Cnum.double_of_Z z)).
Proof.
  intros Hw Hcat Hr.
  assert (W : w = 16 \/ w = 32) by (destruct Hw as [[_ ->] | [_ ->]]; auto).
  assert (B : 2 ^ (w - 1) <= 2 ^ 31)
    by (destruct W as [-> | ->]; cbv; discriminate).
  assert (Hz : Z.abs z < 2 ^ 53) by lia.
  assert (Hwrap : Cnum.wrap_signed w z = z)
    by (apply wrap_signed_small; lia).
  split.
  - rewrite (encode_small_integer type w z Hw Hcat Hz), Hwrap.
    assert (E : (- 2 ^ (w - 1) <=? z) && (z <=? 2 ^ (w - 1) - 1) = true).
    { apply andb_true_iff. split; apply Z.leb_le; lia. }
    rewrite E. destruct (CHECK_INTEGER_OVERFLOW cfg); reflexivity.
  - rewrite (decode_small_integer type w z false Hw), Hwrap. reflexivity.
Qed.

(** X3. Without the overflow check a whole Number outside the range of
    [smallint], or of [integer], is not refused: what is stored is the
    integer of the range that differs from it by a multiple of
    [2 ^ w]. *)
Theorem small_integer_wraps (type : plv8_type) (w z : Z) :
  small_integer type w ->
  Ascii.eqb (category type) TYPCATEGORY_COMPOSITE = false ->
  CHECK_INTEGER_OVERFLOW cfg = false ->
  Z.abs z < 2 ^ 53 ->
  exists stored : Z,
    ToScalarDatum cfg pg js (VNumber (Cnum.double_of_Z z)) type
    = Ok (DatumWord stored, false)
    /\ - 2 ^ (w - 1) <= stored <= 2 ^ (w - 1) - 1
    /\ (stored - z) mod 2 ^ w = 0.
Proof.
  intros Hw Hcat Hck Hz.
  assert (W : 0 < w) by (destruct Hw as [[_ ->] | [_ ->]]; lia).
  exists (Cnum.wrap_signed w z). split; [| split].
  - rewrite (encode_small_integer type w z Hw Hcat Hz), Hck. reflexivity.
  - pose proof (wrap_signed_range w z W). lia.
  - apply wrap_signed_congruent. exact W.
Qed.

(** What the cases [INT2OID] and [INT4OID] do with a Number under the
    overflow check: the saturated integer value of the Number goes to
    [int82] or [int84]. *)
Lemma encode_checked_integer (type : plv8_type) (w : Z) (d : float) :
  small_integer type w ->
  Ascii.eqb (category type) TYPCATEGORY_COMPOSITE = false ->
  CHECK_INTEGER_OVERFLOW cfg = true ->
  ToScalarDatum cfg pg js (VNumber d) type
  = if (- 2 ^ (w - 1) <=? Cnum.IntegerValue d)
       && (Cnum.IntegerValue d <=? 2 ^ (w - 1) - 1)
    then Ok (DatumWord (Cnum.IntegerValue d), false)
    else Raise (ereport_ERROR
                  (if w =? 16 then "smallint out of range"
                   else "integer out of range")).
Proof.
  intros [[Htyp ->] | [Htyp ->]] Hcat Hck;
    rewrite ToScalarDatum_switch, Htyp by (exact Hcat || reflexivity).
  - rewrite scalar_switch_INT2OID, Hck. cbn [IsNumber].
    unfold IntegerValue. cbn [NumberValue].
    unfold int82, Cnum.INT16_MIN, Cnum.INT16_MAX.
    change (16 - 1) with 15. change (16 =? 16) with true. cbv iota.
    destruct ((- 2 ^ 15 <=? Cnum.IntegerValue d)
              && (Cnum.IntegerValue d <=? 2 ^ 15 - 1)); reflexivity.
  - rewrite scalar_switch_INT4OID, Hck. cbn [IsNumber].
    unfold IntegerValue. cbn [NumberValue].
    unfold int84, Cnum.INT32_MIN, Cnum.INT32_MAX.
    change (32 - 1) with 31. change (32 =? 16) with false. cbv iota.
    destruct ((- 2 ^ 31 <=? Cnum.IntegerValue d)
              && (Cnum.IntegerValue d <=? 2 ^ 31 - 1)); reflexivity.
Qed.

(** X4. With the overflow check, a Number whose integer part lies
    outside the range of [smallint], or of [integer], however large it
    is, raises the out-of-range error of the database, and nothing
    catches it on the way: [int82] and [int84] are called outside
    [PG_TRY]. *)
Theorem small_integer_out_of_range (type : plv8_type) (w : Z) (d : float)
  (z : Z) :
  small_integer type w ->
  Ascii.eqb (category type) TYPCATEGORY_COMPOSITE = false ->
  CHECK_INTEGER_OVERFLOW cfg = true ->
  Cnum.truncate d = Some z ->
  z < - 2 ^ (w - 1) \/ 2 ^ (w - 1) - 1 < z ->
  ToScalarDatum cfg pg js (VNumber d) type
  = Raise (ereport_ERROR (if w =? 16 then "smallint out of range"
                          else "integer out of range")).
Proof.
  intros Hw Hcat Hck Hd Hr.
  rewrite (encode_checked_integer type w d Hw Hcat Hck).
  rewrite (IntegerValue_truncate d z Hd).
  assert (B : 2 ^ (w - 1) <= 2 ^ 31)
    by (destruct Hw as [[_ ->] | [_ ->]]; cbv; discriminate).
  assert (P : 0 < 2 ^ (w - 1))
    by (destruct Hw as [[_ ->] | [_ ->]]; reflexivity).
  assert (E : (- 2 ^ (w - 1) <=? Z.max Cnum.INT64_MIN (Z.min Cnum.INT64_MAX z))
              && (Z.max Cnum.INT64_MIN (Z.min Cnum.INT64_MAX z)
                  <=? 2 ^ (w - 1) - 1) = false).
  { unfold Cnum.INT64_MIN, Cnum.INT64_MAX.
    assert (2 ^ 31 < 2 ^ 63) by (apply Z.pow_lt_mono_r; lia).
    apply andb_false_iff. destruct Hr as [H' | H'].
    - left. apply Z.leb_gt. lia.
    - right. apply Z.leb_gt. lia. }
  rewrite E. reflexivity.
Qed.

(** X5. A BigInt within the 64-bit range is stored as it is and,
    without the graceful option, read back as the same BigInt. *)
Theorem bigint_there_and_back (type : plv8_type) (n : Z) :
  typid type = INT8OID ->
  Ascii.eqb (category type) TYPCATEGORY_COMPOSITE = false ->
  BIGINT_GRACEFUL cfg = false ->
  Cnum.INT64_MIN <= n <= Cnum.INT64_MAX ->
  ToScalarDatum cfg pg js (VBigInt n) type = Ok (Int64GetDatum n, false)
  /\ ToScalarValue cfg pg js (Int64GetDatum n) false type = Ok (VBigInt n).
Proof.
  intros Htyp Hcat Hg Hr.
  assert (Hwrap : Cnum.wrap_signed 64 n = n)
    by (apply wrap_signed_small;
        unfold Cnum.INT64_MIN, Cnum.INT64_MAX in Hr; lia).
  split.
  - rewrite ToScalarDatum_switch, Htyp, scalar_switch_INT8OID
      by (exact Hcat || reflexivity).
    cbn [IsBigInt]. unfold Int64Value. rewrite Hwrap. reflexivity.
  - rewrite ToScalarValue_INT8OID by exact Htyp. cbv zeta.
    rewrite Hg, Hwrap. reflexivity.
Qed.

(** X6. Every BigInt and every Number is accepted for a 64-bit
    integer. Of a BigInt the low 64 bits are stored; of a Number its
    integer part kept within the 64-bit range: the largest 64-bit
    integer beyond it and for the positive infinity, the smallest
    below it and for the negative infinity, and 0 for a NaN. A whole
    Number of at most 53 bits is stored exactly. *)
Theorem int8_accepts_every_number (type : plv8_type) :
  typid type = INT8OID ->
  Ascii.eqb (category type) TYPCATEGORY_COMPOSITE = false ->
  (forall n : Z,
      exists stored : Z,
        ToScalarDatum cfg pg js (VBigInt n) type = Ok (Int64GetDatum stored, false)
        /\ Cnum.INT64_MIN <= stored <= Cnum.INT64_MAX
        /\ (stored - n) mod 2 ^ 64 = 0)
  /\ (forall (d : float) (z : Z),
         Cnum.truncate d = Some z ->
         ToScalarDatum cfg pg js (VNumber d) type
         = Ok (Int64GetDatum (Z.max Cnum.INT64_MIN (Z.min Cnum.INT64_MAX z)),
               false))
  /\ ToScalarDatum cfg pg js (VNumber infinity) type
     = Ok (Int64GetDatum Cnum.INT64_MAX, false)
  /\ ToScalarDatum cfg pg js (VNumber neg_infinity) type
     = Ok (Int64GetDatum Cnum.INT64_MIN, false)
  /\ (forall d : float,
         PrimFloat.is_nan d = true ->
         ToScalarDatum cfg pg js (VNumber d) type = Ok (Int64GetDatum 0, false))
  /\ (forall z : Z,
         Z.abs z < 2 ^ 53 ->
         ToScalarDatum cfg pg js (VNumber (Cnum.double_of_Z z)) type
         = Ok (Int64GetDatum z, false)).
Proof.
  intros Htyp Hcat.
  assert (N : forall d : float,
             ToScalarDatum cfg pg js (VNumber d) type
             = Ok (Int64GetDatum (Cnum.IntegerValue d), false)).
  { intros d.
    rewrite ToScalarDatum_switch, Htyp, scalar_switch_INT8OID
      by (exact Hcat || reflexivity).
    reflexivity. }
  split; [| split; [| split; [| split; [| split]]]].
  - intros n. exists (Cnum.wrap_signed 64 n). split; [| split].
    + rewrite ToScalarDatum_switch, Htyp, scalar_switch_INT8OID
        by (exact Hcat || reflexivity).
      reflexivity.
    + pose proof (wrap_signed_range 64 n ltac:(lia)) as H.
      unfold Cnum.INT64_MIN, Cnum.INT64_MAX. change (64 - 1) with 63 in H. lia.
    + apply wrap_signed_congruent. lia.
  - intros d z Hd. rewrite N, (IntegerValue_truncate d z Hd). reflexivity.
  - rewrite N. reflexivity.
  - rewrite N. reflexivity.
  - intros d Hd. rewrite N. unfold Cnum.IntegerValue.
    rewrite (is_nan_Prim2SF d Hd). reflexivity.
  - intros z Hz. rewrite N, IntegerValue_double_of_Z by exact Hz. reflexivity.
Qed.

(** X7. A whole Number from 0 to 2^32 - 1 is stored as that object
    identifier. The identifier is read back through [Uint32::New],
    which is [Integer::New] on an [int32_t]: below 2^31 as the same
    Number, from 2^31 on as the negative Number 2^32 less. Either way
    the Number read is stored as the identifier it was read from. *)
Theorem oid_reads_back_signed (type : plv8_type) (z : Z) :
  typid type = OIDOID ->
  Ascii.eqb (category type) TYPCATEGORY_COMPOSITE = false ->
  0 <= z < 2 ^ 32 ->
  let read := if z <? 2 ^ 31 then z else z - 2 ^ 32 in
  ToScalarDatum cfg pg js (VNumber (Cnum.double_of_Z z)) type
  = Ok (ObjectIdGetDatum z, false)
  /\ ToScalarValue cfg pg js (ObjectIdGetDatum z) false type
     = Ok (VNumber (Cnum.double_of_Z read))
  /\ ToScalarDatum cfg pg js (VNumber (Cnum.double_of_Z read)) type
     = Ok (ObjectIdGetDatum z, false).
Proof.
  intros Htyp Hcat Hr read.
  assert (P31 : 2 ^ 32 = 2 * 2 ^ 31) by reflexivity.
  assert (P0 : 0 < 2 ^ 31) by reflexivity.
  assert (Hread : Cnum.wrap_signed 32 z = read).
  { unfold read, Cnum.wrap_signed. change (32 - 1) with 31.
    destruct (Z.ltb_spec z (2 ^ 31)) as [L | L].
    - rewrite Z.mod_small by lia. lia.
    - replace (z + 2 ^ 31) with (z - 2 ^ 31 + 1 * 2 ^ 32) by lia.
      rewrite Z_mod_plus_full, Z.mod_small by lia. lia. }
  assert (Hback : Cnum.wrap_unsigned 32 read = z).
  { unfold read, Cnum.wrap_unsigned.
    destruct (Z.ltb_spec z (2 ^ 31)) as [L | L].
    - apply Z.mod_small. lia.
    - replace (z - 2 ^ 32) with (z + (-1) * 2 ^ 32) by lia.
      rewrite Z_mod_plus_full. apply Z.mod_small. lia. }
  assert (E : forall x : Z,
             Z.abs x < 2 ^ 53 ->
             ToScalarDatum cfg pg js (VNumber (Cnum.double_of_Z x)) type
             = Ok (ObjectIdGetDatum (Cnum.wrap_unsigned 32 x), false)).
  { intros x Hx.
    rewrite ToScalarDatum_switch, Htyp, scalar_switch_OIDOID
      by (exact Hcat || reflexivity).
    cbn [IsNumber]. unfold Uint32Value. cbn [NumberValue].
    rewrite ToUint32_double_of_Z by exact Hx. reflexivity. }
  assert (B : 2 ^ 32 < 2 ^ 53) by (apply Z.pow_lt_mono_r; lia).
  split; [| split].
  - rewrite E by lia. unfold Cnum.wrap_unsigned.
    rewrite Z.mod_small by lia. reflexivity.
  - rewrite ToScalarValue_OIDOID by exact Htyp. rewrite Hread. reflexivity.
  - rewrite E, Hback; [reflexivity |].
    unfold read. destruct (z <? 2 ^ 31); lia.
Qed.

End IntegerProofs.

Lemma small_integer_there_and_back_witness :
  let type := Sample.scalar_type INT2OID in
  small_integer type 16
  /\ Ascii.eqb (category type) TYPCATEGORY_COMPOSITE = false
  /\ - 2 ^ (16 - 1) <= -32768 <= 2 ^ (16 - 1) - 1
  /\ ToScalarDatum Sample.cfg Sample.pg Sample.js
       (VNumber (Cnum.double_of_Z (-32768))) type
     = Ok (DatumWord (-32768), false)
  /\ ToScalarValue Sample.cfg Sample.pg Sample.js (DatumWord (-32768)) false type
     = Ok (VNumber (Cnum.double_of_Z (-32768))).
Proof.
  split; [left; split; reflexivity |].
  split; [reflexivity |].
  split; [cbv; split; discriminate |].
  apply (small_integer_there_and_back Sample.cfg Sample.pg Sample.js
           (Sample.scalar_type INT2OID) 16 (-32768)).
  - left. split; reflexivity.
  - reflexivity.
  - cbv. split; discriminate.
Defined.

Lemma small_integer_wraps_witness :
  let type := Sample.scalar_type INT4OID in
  small_integer type 32
  /\ CHECK_INTEGER_OVERFLOW Sample.cfg = false
  /\ exists stored : Z,
       ToScalarDatum Sample.cfg Sample.pg Sample.js
         (VNumber (Cnum.double_of_Z 4294967301)) type
       = Ok (DatumWord stored, false)
       /\ - 2 ^ (32 - 1) <= stored <= 2 ^ (32 - 1) - 1
       /\ (stored - 4294967301) mod 2 ^ 32 = 0.
Proof.
  split; [right; split; reflexivity |].
  split; [reflexivity |].
  apply (small_integer_wraps Sample.cfg Sample.pg Sample.js
           (Sample.scalar_type INT4OID) 32 4294967301).
  - right. split; reflexivity.
  - reflexivity.
  - reflexivity.
  - cbv. reflexivity.
Defined.

Lemma small_integer_out_of_range_witness :
  let type := Sample.scalar_type INT4OID in
  let d := Cnum.double_of_Z (10 ^ 19) in
  small_integer type 32
  /\ CHECK_INTEGER_OVERFLOW Demo.cfg_checked = true
  /\ Cnum.truncate d = Some (10 ^ 19)
  /\ ToScalarDatum Demo.cfg_checked Sample.pg Sample.js (VNumber d) type
     = Raise (ereport_ERROR "integer out of range").
Proof.
  split; [right; split; reflexivity |].
  split; [reflexivity |].
  split; [vm_compute; reflexivity |].
  apply (small_integer_out_of_range Demo.cfg_checked Sample.pg Sample.js
           (Sample.scalar_type INT4OID) 32 (Cnum.double_of_Z (10 ^ 19))
           (10 ^ 19)).
  - right. split; reflexivity.
  - reflexivity.
  - reflexivity.
  - vm_compute. reflexivity.
  - right. reflexivity.
Defined.

Lemma bigint_there_and_back_witness :
  let type := Sample.scalar_type INT8OID in
  let n := 9223372036854775807 in
  BIGINT_GRACEFUL Sample.cfg = false
  /\ Cnum.INT64_MIN <= n <= Cnum.INT64_MAX
  /\ ToScalarDatum Sample.cfg Sample.pg Sample.js (VBigInt n) type
     = Ok (Int64GetDatum n, false)
  /\ ToScalarValue Sample.cfg Sample.pg Sample.js (Int64GetDatum n) false type
     = Ok (VBigInt n).
Proof.
  split; [reflexivity |].
  split; [cbv; split; discriminate |].
  apply (bigint_there_and_back Sample.cfg Sample.pg Sample.js
           (Sample.scalar_type INT8OID) 9223372036854775807).
  - reflexivity.
  - reflexivity.
  - reflexivity.
  - cbv. split; discriminate.
Defined.

Lemma int8_accepts_every_number_witness :
  let type := Sample.scalar_type INT8OID in
  Cnum.truncate (Cnum.double_of_Z (10 ^ 19)) = Some (10 ^ 19)
  /\ ToScalarDatum Sample.cfg Sample.pg Sample.js
       (VNumber (Cnum.double_of_Z (10 ^ 19))) type
     = Ok (Int64GetDatum 9223372036854775807, false)
  /\ ToScalarDatum Sample.cfg Sample.pg Sample.js (VNumber neg_infinity) type
     = Ok (Int64GetDatum (-9223372036854775808), false)
  /\ ToScalarDatum Sample.cfg Sample.pg Sample.js (VNumber nan) type
     = Ok (Int64GetDatum 0, false).
Proof.
  destruct (int8_accepts_every_number Sample.cfg Sample.pg Sample.js
              (Sample.scalar_type INT8OID) eq_refl eq_refl)
    as (_ & Hfinite & _ & Hneg & Hnan & _).
  split; [vm_compute; reflexivity |].
  split; [| split].
  - exact (Hfinite (Cnum.double_of_Z (10 ^ 19)) (10 ^ 19) eq_refl).
  - exact Hneg.
  - exact (Hnan nan eq_refl).
Defined.

Lemma oid_reads_back_signed_witness :
  let type := Sample.scalar_type OIDOID in
  0 <= 4294967295 < 2 ^ 32
  /\ ToScalarDatum Sample.cfg Sample.pg Sample.js
       (VNumber (Cnum.double_of_Z 4294967295)) type
     = Ok (ObjectIdGetDatum 4294967295, false)
  /\ ToScalarValue Sample.cfg Sample.pg Sample.js (ObjectIdGetDatum 4294967295)
       false type
     = Ok (VNumber (Cnum.double_of_Z (-1)))
  /\ ToScalarDatum Sample.cfg Sample.pg Sample.js
       (VNumber (Cnum.double_of_Z (-1))) type
     = Ok (ObjectIdGetDatum 4294967295, false).
Proof.
  split; [cbv; split; [discriminate | reflexivity] |].
  apply (oid_reads_back_signed Sample.cfg Sample.pg Sample.js
           (Sample.scalar_type OIDOID) 4294967295).
  - reflexivity.
  - reflexivity.
  - cbv. split; [discriminate | reflexivity].
Defined.

(** *** Dates (DATEOID)

    [DateToEpoch] and [EpochToDate] work in doubles; on whole days
    every product, quotient and sum of theirs is exact. *)

(** The product of two floats that are integers is exact when it is a
    float itself. *)
Lemma SFmul_exact (a b : Z) (sa sb s : bool) (ma mb m : positive) (ea eb e : Z) :
  is_float a sa ma ea -> is_float b sb mb eb -> is_float (a * b) s m e ->
  -1100 <= ea + eb ->
  SF64mul (S754_finite sa ma ea) (S754_finite sb mb eb) = S754_finite s m e.
Proof.
  intros (Hda & Hea & Hva) (Hdb & Heb & Hvb) (Hd & He & Hv) Hlow.
  pose proof (digits2_pos_bounds ma) as Ba. rewrite Hda in Ba.
  pose proof (digits2_pos_bounds mb) as Bb. rewrite Hdb in Bb.
  change (53 - 1) with 52 in *.
  rewrite scaled_cond_Zopp, scaled_0 in Hva, Hvb, Hv.
  assert (P : 0 < 2 ^ 1100) by (apply Z.pow_pos_nonneg; lia).
  pose proof (scaled_pos ma ea ltac:(lia)) as Sa.
  pose proof (scaled_pos mb eb ltac:(lia)) as Sb.
  pose proof (scaled_pos m e ltac:(lia)) as S0.
  assert (Hs : xorb sa sb = s).
  { destruct sa, sb, s; cbn [cond_Zopp xorb] in *; try reflexivity; exfalso; nia. }
  assert (Habs : scaled (Z.pos ma) ea * scaled (Z.pos mb) eb
                 = scaled (Z.pos m) e * 2 ^ 1100).
  { destruct sa, sb, s; cbn [cond_Zopp xorb] in *; try discriminate Hs; nia. }
  unfold SF64mul, SFmul. rewrite Hs.
  apply binary_round_exact; try assumption.
  - unfold scaled in *.
    assert (E : 2 ^ (ea + 1100) * 2 ^ (eb + 1100)
                = 2 ^ (ea + eb + 1100) * 2 ^ 1100).
    { rewrite <- !Z.pow_add_r by lia. f_equal. lia. }
    rewrite Pos2Z.inj_mul. nia.
  - assert (D : 2 ^ 104 <= Z.pos (ma * mb)).
    { rewrite Pos2Z.inj_mul. change (2 ^ 104) with (2 ^ 52 * 2 ^ 52). nia. }
    pose proof (digits2_pos_bounds (ma * mb)) as B.
    destruct (Z_le_gt_dec 53 (Z.pos (digits2_pos (ma * mb)))) as [H | H];
      [exact H | exfalso].
    assert (2 ^ Z.pos (digits2_pos (ma * mb)) <= 2 ^ 104)
      by (apply Z.pow_le_mono_r; lia).
    lia.
Qed.

Lemma double_mul_exact (a b : Z) (s : bool) (m : positive) (e : Z) :
  fits53 a -> fits53 b -> is_float (a * b) s m e ->
  (Cnum.double_of_Z a * Cnum.double_of_Z b)%float = Cnum.double_of_Z (a * b).
Proof.
  intros Ha Hb F.
  destruct (is_float_exists a Ha) as (ma & ea & Fa & Ea).
  destruct (is_float_exists b Hb) as (mb & eb & Fb & Eb).
  apply Prim2SF_inj. rewrite mul_spec.
  rewrite (Prim2SF_double_of_Z _ _ _ _ Fa), (Prim2SF_double_of_Z _ _ _ _ Fb),
    (Prim2SF_double_of_Z _ _ _ _ F).
  eapply SFmul_exact; [exact Fa | exact Fb | exact F | lia].
Qed.

Lemma double_div_exact (a b : Z) (s1 : bool) (m1 : positive) (e1 : Z) :
  is_float (a * b) s1 m1 e1 -> fits53 b -> fits53 a ->
  (Cnum.double_of_Z (a * b) / Cnum.double_of_Z b)%float = Cnum.double_of_Z a.
Proof.
  intros F1 Hb Ha.
  destruct (is_float_exists a Ha) as (m & e & F & E).
  destruct (is_float_exists b Hb) as (mb & eb & Fb & Eb).
  apply Prim2SF_inj. rewrite div_spec.
  rewrite (Prim2SF_double_of_Z _ _ _ _ F1), (Prim2SF_double_of_Z _ _ _ _ Fb),
    (Prim2SF_double_of_Z _ _ _ _ F).
  eapply SFdiv_exact; [exact F1 | exact Fb | exact F | lia].
Qed.

(** A whole number of at most 53 bits times a power of two is a float. *)
Lemma is_float_scaled (x k : Z) :
  fits53 x -> 0 <= k <= 900 ->
  exists (s : bool) (m : positive) (e : Z), is_float (x * 2 ^ k) s m e.
Proof.
  intros Hx Hk.
  destruct (is_float_exists x Hx) as (m & e & F & E).
  exists (x <? 0), m, (e + k). apply is_float_shift; [exact F | lia | lia].
Qed.

(** A date as microseconds and as milliseconds since 2000-01-01. *)
Lemma date_microseconds (date : Z) :
  0 < Z.abs date <= 100010957 ->
  (Cnum.double_of_Z date * Cnum.double_of_Z USECS_PER_DAY)%float
  = Cnum.double_of_Z (date * 86400000 * 1000).
Proof.
  intros H.
  destruct (is_float_scaled (date * 10546875) 13 ltac:(unfold fits53; lia)
              ltac:(lia)) as (s & m & e & F).
  replace (date * 10546875 * 2 ^ 13) with (date * 86400000000) in F
    by (change (2 ^ 13) with 8192; lia).
  replace (date * 86400000 * 1000) with (date * 86400000000) by lia.
  apply (double_mul_exact date 86400000000 s m e);
    [unfold fits53; lia | unfold fits53; lia | exact F].
Qed.

Lemma date_milliseconds (date : Z) :
  0 < Z.abs date <= 100010957 ->
  (Cnum.double_of_Z (date * 86400000 * 1000) / 1000)%float
  = Cnum.double_of_Z (date * 86400000).
Proof.
  intros H.
  destruct (is_float_scaled (date * 10546875) 13 ltac:(unfold fits53; lia)
              ltac:(lia)) as (s & m & e & F).
  replace (date * 10546875 * 2 ^ 13) with (date * 86400000 * 1000) in F
    by (change (2 ^ 13) with 8192; lia).
  change 1000%float with (Cnum.double_of_Z 1000).
  apply (double_div_exact (date * 86400000) 1000 s m e);
    [exact F | unfold fits53; lia | unfold fits53; lia].
Qed.

Lemma date_seconds (date : Z) :
  0 < Z.abs date <= 100010957 ->
  (Cnum.double_of_Z date * Cnum.double_of_Z SECS_PER_DAY * 1000)%float
  = Cnum.double_of_Z (date * 86400000).
Proof.
  intros H.
  destruct (is_float_exists (date * 86400) ltac:(unfold fits53; lia))
    as (m1 & e1 & F1 & _).
  destruct (is_float_exists (date * 86400 * 1000) ltac:(unfold fits53; lia))
    as (m2 & e2 & F2 & _).
  unfold SECS_PER_DAY.
  rewrite (fun Ha Hb => double_mul_exact date 86400 _ m1 e1 Ha Hb F1);
    [| unfold fits53; lia | unfold fits53; lia].
  change 1000%float with (Cnum.double_of_Z 1000).
  rewrite (fun Ha Hb => double_mul_exact (date * 86400) 1000 _ m2 e2 Ha Hb F2);
    [| unfold fits53; lia | unfold fits53; lia].
  f_equal. lia.
Qed.

Lemma date_of_seconds (date : Z) :
  0 < Z.abs date <= 100010957 ->
  (Cnum.double_of_Z (date * 86400000) / 1000 / Cnum.double_of_Z SECS_PER_DAY)%float
  = Cnum.double_of_Z date.
Proof.
  intros H.
  destruct (is_float_exists (date * 86400 * 1000) ltac:(unfold fits53; lia))
    as (m2 & e2 & F2 & _).
  destruct (is_float_exists (date * 86400) ltac:(unfold fits53; lia))
    as (m1 & e1 & F1 & _).
  replace (date * 86400000) with (date * 86400 * 1000) by lia.
  change 1000%float with (Cnum.double_of_Z 1000). unfold SECS_PER_DAY.
  rewrite (double_div_exact (date * 86400) 1000 _ m2 e2 F2);
    [| unfold fits53; lia | unfold fits53; lia].
  apply (double_div_exact date 86400 _ m1 e1 F1);
    [unfold fits53; lia | unfold fits53; lia].
Qed.

Lemma date_of_microseconds (date : Z) :
  0 < Z.abs date <= 100010957 ->
  (Cnum.double_of_Z (date * 86400000) * 1000 / Cnum.double_of_Z USECS_PER_DAY)%float
  = Cnum.double_of_Z date.
Proof.
  intros H.
  destruct (is_float_scaled (date * 10546875) 13 ltac:(unfold fits53; lia)
              ltac:(lia)) as (s & m & e & F).
  replace (date * 10546875 * 2 ^ 13) with (date * 86400000 * 1000) in F
    by (change (2 ^ 13) with 8192; lia).
  change 1000%float with (Cnum.double_of_Z 1000). unfold USECS_PER_DAY.
  rewrite (double_mul_exact (date * 86400000) 1000 s m e);
    [| unfold fits53; lia | unfold fits53; lia | exact F].
  replace (date * 86400000 * 1000) with (date * 86400000000) in * by lia.
  apply (double_div_exact date 86400000000 s m e);
    [exact F | unfold fits53; lia | unfold fits53; lia].
Qed.

Section DateProofs.

Variable cfg : Config.
Variable pg : Host.
Variable js : Engine.

(** The epoch value of a date: its days as milliseconds, from
    1970-01-01. *)
Lemma DateToEpoch_days (date : Z) :
  Z.abs date <= 100010957 ->
  DateToEpoch cfg date = Cnum.double_of_Z (date * 86400000 + 946684800000).
Proof.
  intros H. unfold DateToEpoch.
  destruct (Z.eq_dec date 0) as [-> | H0].
  - destruct (HAVE_INT64_TIMESTAMP cfg); reflexivity.
  - assert (E : (if HAVE_INT64_TIMESTAMP cfg
                 then (Cnum.double_of_Z date * Cnum.double_of_Z USECS_PER_DAY
                       / 1000)%float
                 else (Cnum.double_of_Z date * Cnum.double_of_Z SECS_PER_DAY
                       * 1000)%float)
                = Cnum.double_of_Z (date * 86400000)).
    { destruct (HAVE_INT64_TIMESTAMP cfg).
      - rewrite date_microseconds by lia. apply date_milliseconds. lia.
      - apply date_seconds. lia. }
    rewrite E, epoch_shift_value.
    destruct (Z.eq_dec date (-10957)) as [-> | H1]; [reflexivity |].
    apply double_add_exact; unfold fits53; lia.
Qed.

Lemma EpochToDate_days (date : Z) :
  -100010957 <= date <= 99989043 ->
  EpochToDate cfg (Cnum.double_of_Z (date * 86400000 + 946684800000))
  = Ok (DateADTGetDatum date).
Proof.
  intros H. unfold EpochToDate.
  rewrite sub_epoch_shift by lia.
  replace (date * 86400000 + 946684800000 - 946684800000)
    with (date * 86400000) by lia.
  assert (E : (if HAVE_INT64_TIMESTAMP cfg
               then (Cnum.double_of_Z (date * 86400000) * 1000
                     / Cnum.double_of_Z USECS_PER_DAY)%float
               else (Cnum.double_of_Z (date * 86400000) / 1000
                     / Cnum.double_of_Z SECS_PER_DAY)%float)
              = Cnum.double_of_Z date).
  { destruct (Z.eq_dec date 0) as [-> | H0].
    - destruct (HAVE_INT64_TIMESTAMP cfg); reflexivity.
    - destruct (HAVE_INT64_TIMESTAMP cfg).
      + apply date_of_microseconds. lia.
      + apply date_of_seconds. lia. }
  rewrite E.
  rewrite cast_double_signed_exact; [reflexivity | lia |].
  change (2 ^ (32 - 1)) with 2147483648. lia.
Qed.

(** X8. A date whose midnight a Date can hold (within a hundred
    million days of 1970-01-01) is read as the Date of that midnight,
    UTC, and that Date is stored as the same date, in builds with
    integer timestamps and in builds without. *)
Theorem date_there_and_back (type : plv8_type) (date : Z) :
  typid type = DATEOID ->
  Ascii.eqb (category type) TYPCATEGORY_COMPOSITE = false ->
  -100010957 <= date <= 99989043 ->
  ToScalarValue cfg pg js (DateADTGetDatum date) false type
  = Ok (VDate (Cnum.double_of_Z (date * 86400000 + 946684800000)))
  /\ ToScalarDatum cfg pg js
       (VDate (Cnum.double_of_Z (date * 86400000 + 946684800000))) type
     = Ok (DateADTGetDatum date, false).
Proof.
  intros Htyp Hcat Hr. split.
  - unfold ToScalarValue. rewrite Htyp.
    cbv beta zeta.
    change (DATEOID =? OIDOID) with false. change (DATEOID =? BOOLOID) with false.
    change (DATEOID =? INT2OID) with false. change (DATEOID =? INT4OID) with false.
    change (DATEOID =? INT8OID) with false.
    change ((DATEOID =? FLOAT4OID) || (DATEOID =? FLOAT8OID)) with false.
    change (DATEOID =? NUMERICOID) with false.
    change (DATEOID =? DATEOID) with true. cbv iota.
    unfold DateADTGetDatum, DatumGetWord. rewrite bind_Ok.
    rewrite wrap_signed_small by (change (2 ^ (32 - 1)) with 2147483648; lia).
    rewrite DateToEpoch_days by lia. unfold Date_New.
    rewrite TimeClip_exact by lia. reflexivity.
  - unfold ToScalarDatum. rewrite Hcat, Htyp.
    cbn [IsUndefined IsNull orb].
    change (scalar_switch cfg pg js
              (VDate (Cnum.double_of_Z (date * 86400000 + 946684800000))) DATEOID)
      with (Some (EpochToDate cfg
                    (Cnum.double_of_Z (date * 86400000 + 946684800000)))).
    rewrite EpochToDate_days by exact Hr. reflexivity.
Qed.

End DateProofs.

Lemma date_there_and_back_witness :
  let type := Sample.scalar_type DATEOID in
  -100010957 <= 7305 <= 99989043
  /\ ToScalarValue Sample.cfg_float_timestamp Sample.pg Sample.js
       (DateADTGetDatum 7305) false type
     = Ok (VDate (Cnum.double_of_Z 1577836800000))
  /\ ToScalarDatum Sample.cfg_float_timestamp Sample.pg Sample.js
       (VDate (Cnum.double_of_Z 1577836800000)) type
     = Ok (DateADTGetDatum 7305, false).
Proof.
  split; [cbv; split; discriminate |].
  apply (date_there_and_back Sample.cfg_float_timestamp Sample.pg Sample.js
           (Sample.scalar_type DATEOID) 7305).
  - reflexivity.
  - reflexivity.
  - cbv. split; discriminate.
Defined.

(** *** Bytes (BYTEAOID) *)

Section BytesProofs.

Variable cfg : Config.
Variable pg : Host.
Variable js : Engine.

Lemma bytea_of_buffer_whole (contents : list byte) (len width : Z) :
  len * width = byte_length contents ->
  bytea_of_buffer contents len width = Ok (DatumVarlena contents).
Proof.
  intros H. unfold bytea_of_buffer. rewrite H, memcpy_whole. reflexivity.
Qed.

Lemma scalar_switch_BYTEAOID (value : Value) :
  scalar_switch cfg pg js value BYTEAOID = case_BYTEAOID cfg pg js value.
Proof. reflexivity. Qed.

(** X11. Stored as [bytea], a typed array of 8-, 16- or 32-bit
    integers whose buffer it covers, and an ArrayBuffer, give exactly
    the bytes of the buffer, whatever database value the typed array
    came from. *)
Theorem bytea_takes_the_bytes_of_the_buffer (type : plv8_type)
  (kind : TypedArrayKind) (contents : list byte) (internal : option Datum) :
  typid type = BYTEAOID ->
  Ascii.eqb (category type) TYPCATEGORY_COMPOSITE = false ->
  bytewise kind = true ->
  byte_length contents mod element_size kind = 0 ->
  ToScalarDatum cfg pg js (VTypedArray kind contents internal) type
  = Ok (DatumVarlena contents, false)
  /\ ToScalarDatum cfg pg js (VArrayBuffer contents) type
     = Ok (DatumVarlena contents, false).
Proof.
  intros Htyp Hcat Hkind Hmod.
  rewrite !(ToScalarDatum_switch cfg pg js), Htyp, !scalar_switch_BYTEAOID
    by (exact Hcat || reflexivity).
  split.
  - assert (L : typed_Length (VTypedArray kind contents internal) * element_size kind
                = byte_length contents).
    { cbn [typed_Length]. apply Z.div_exact in Hmod; [lia |].
      destruct kind; discriminate. }
    unfold case_BYTEAOID.
    destruct kind; try discriminate Hkind; cbn [IsKind kind_eqb orb];
      cbn [typed_contents]; rewrite bytea_of_buffer_whole by exact L;
      reflexivity.
  - unfold case_BYTEAOID. cbn [IsKind kind_eqb orb IsArrayBuffer typed_contents].
    rewrite bytea_of_buffer_whole by lia. reflexivity.
Qed.

Lemma ToScalarValue_BYTEAOID (p : list byte) (isnull : bool) (type : plv8_type) :
  typid type = BYTEAOID ->
  ToScalarValue cfg pg js (DatumVarlena p) isnull type
  = Ok (VTypedArray Uint8Array p (Some (DatumVarlena p))).
Proof.
  intros H.
  transitivity (CreateExternalArray p kExternalUnsignedByteArray (byte_length p)
                  (DatumVarlena p)).
  - unfold ToScalarValue. rewrite H. reflexivity.
  - rewrite CreateExternalArray_view. reflexivity.
Qed.

(** X12. A [bytea] value is read as a Uint8Array over its bytes, and
    what a script leaves in that array is what is stored: writing it
    back unchanged gives the value back, and a change is kept. *)
Theorem bytea_there_and_back (type : plv8_type) (p : list byte) :
  typid type = BYTEAOID ->
  Ascii.eqb (category type) TYPCATEGORY_COMPOSITE = false ->
  ToScalarValue cfg pg js (DatumVarlena p) false type
  = Ok (VTypedArray Uint8Array p (Some (DatumVarlena p)))
  /\ (forall changed : list byte,
         ToScalarDatum cfg pg js
           (VTypedArray Uint8Array changed (Some (DatumVarlena p))) type
         = Ok (DatumVarlena changed, false)).
Proof.
  intros Htyp Hcat. split.
  - apply ToScalarValue_BYTEAOID. exact Htyp.
  - intros changed.
    rewrite (ToScalarDatum_switch cfg pg js), Htyp, scalar_switch_BYTEAOID
      by (exact Hcat || reflexivity).
    unfold case_BYTEAOID. cbn [IsKind kind_eqb orb typed_contents typed_Length].
    rewrite bytea_of_buffer_whole; [reflexivity |].
    cbn [element_size]. rewrite Z.div_1_r. lia.
Qed.

(** X13. The case [BYTEAOID] has no [break]. A value that is neither
    a typed array nor an ArrayBuffer runs on into the case [JSONBOID],
    and in a build with the direct conversion what is returned for the
    [bytea] is the Jsonb tree of the value. A typed array of another
    kind than the byte-wise ones that carries no database value (one a
    script made) does not get that far: [ExtractExternalArrayDatum]
    reads an [External] out of its internal field 0, which holds
    none. *)
Theorem bytea_runs_on_into_jsonb (type : plv8_type) :
  typid type = BYTEAOID ->
  Ascii.eqb (category type) TYPCATEGORY_COMPOSITE = false ->
  90400 <= PG_VERSION_NUM cfg ->
  JSONB_DIRECT_CONVERSION cfg = true ->
  (forall value : Value,
      IsUndefined value || IsNull value = false ->
      IsTypedArray value = false -> IsArrayBuffer value = false ->
      ToScalarDatum cfg pg js value type
      = (obj <- ConvertObject pg js value ;; Ok (DatumJsonb obj, false)))
  /\ (forall (kind : TypedArrayKind) (contents : list byte),
         bytewise kind = false ->
         ToScalarDatum cfg pg js (VTypedArray kind contents None) type
         = Raise (undefined_behaviour "External::Value() of internal field 0")).
Proof.
  intros Htyp Hcat Hver Hdirect.
  assert (V : (90400 <=? PG_VERSION_NUM cfg) = true) by (apply Z.leb_le; exact Hver).
  split.
  - intros value Hnull Hta Hab.
    rewrite (ToScalarDatum_switch cfg pg js), Htyp, scalar_switch_BYTEAOID
      by assumption.
    unfold case_BYTEAOID, case_JSONBOID. rewrite V, Hdirect.
    destruct value as [| | b | d | n | s | y | d | k c i | c | a | props | f];
      try discriminate Hnull; try discriminate Hta; try discriminate Hab;
      cbn [IsKind IsArrayBuffer orb ExtractExternalArrayDatum IsUndefined IsNull];
      unfold Ok; cbv iota; rewrite ?bind_assoc; reflexivity.
  - intros kind contents Hkind.
    rewrite (ToScalarDatum_switch cfg pg js), Htyp, scalar_switch_BYTEAOID
      by (exact Hcat || reflexivity).
    unfold case_BYTEAOID.
    destruct kind; try discriminate Hkind; reflexivity.
Qed.

End BytesProofs.

Lemma bytea_takes_the_bytes_of_the_buffer_witness :
  let type := Sample.scalar_type BYTEAOID in
  let contents := [x01; x02; x03; x04] in
  bytewise Int16Array = true
  /\ byte_length contents mod element_size Int16Array = 0
  /\ ToScalarDatum Sample.cfg Sample.pg Sample.js
       (VTypedArray Int16Array contents None) type
     = Ok (DatumVarlena contents, false)
  /\ ToScalarDatum Sample.cfg Sample.pg Sample.js (VArrayBuffer contents) type
     = Ok (DatumVarlena contents, false).
Proof.
  split; [reflexivity |]. split; [reflexivity |].
  apply (bytea_takes_the_bytes_of_the_buffer Sample.cfg Sample.pg Sample.js
           (Sample.scalar_type BYTEAOID) Int16Array [x01; x02; x03; x04] None);
    reflexivity.
Defined.

Lemma bytea_there_and_back_witness :
  let type := Sample.scalar_type BYTEAOID in
  ToScalarValue Sample.cfg Sample.pg Sample.js (DatumVarlena [x01; x02]) false type
  = Ok (VTypedArray Uint8Array [x01; x02] (Some (DatumVarlena [x01; x02])))
  /\ ToScalarDatum Sample.cfg Sample.pg Sample.js
       (VTypedArray Uint8Array [xff; x02] (Some (DatumVarlena [x01; x02]))) type
     = Ok (DatumVarlena [xff; x02], false).
Proof.
  destruct (bytea_there_and_back Sample.cfg Sample.pg Sample.js
              (Sample.scalar_type BYTEAOID) [x01; x02] eq_refl eq_refl)
    as [Hread Hwrite].
  split; [exact Hread | exact (Hwrite [xff; x02])].
Defined.

Lemma bytea_runs_on_into_jsonb_witness :
  let type := Sample.scalar_type BYTEAOID in
  90400 <= PG_VERSION_NUM Sample.cfg
  /\ JSONB_DIRECT_CONVERSION Sample.cfg = true
  /\ ToScalarDatum Sample.cfg Sample.pg Sample.js (VBoolean true) type
     = Ok (DatumJsonb (jbvArray [jbvBool true]), false)
  /\ ToScalarDatum Sample.cfg Sample.pg Sample.js
       (VTypedArray Float64Array [] None) type
     = Raise (undefined_behaviour "External::Value() of internal field 0").
Proof.
  assert (Hver : 90400 <= PG_VERSION_NUM Sample.cfg) by (cbv; discriminate).
  destruct (bytea_runs_on_into_jsonb Sample.cfg Sample.pg Sample.js
              (Sample.scalar_type BYTEAOID) eq_refl eq_refl Hver eq_refl)
    as [Hrun Hread].
  split; [exact Hver |]. split; [reflexivity |]. split.
  - rewrite (Hrun (VBoolean true) eq_refl eq_refl eq_refl). reflexivity.
  - exact (Hread Float64Array [] eq_refl).
Defined.

(** *** Type descriptors and external arrays (plv8_fill_type, ToValue) *)

Section DescriptorProofs.

Variable cfg : Config.
Variable pg : Host.
Variable js : Engine.

Lemma ToValue_array (datum : Datum) (type : plv8_type) :
  Ascii.eqb (category type) TYPCATEGORY_ARRAY = true ->
  ToValue cfg pg js datum false type = ToArrayValue cfg pg js datum false type.
Proof.
  intros H. destruct datum; cbn [ToValue]; rewrite H; reflexivity.
Qed.

(** X14. A one-dimensional array without nulls of a type with an
    external buffer kind is read as a typed array over the bytes of
    the database array, carrying that array; written back, the array
    it carries is returned as it was, so what a script changed in the
    buffer is not stored. *)
Theorem external_array_changes_are_lost (type : plv8_type)
  (ext : plv8_external_array_type) (a : ArrayType Datum) :
  ext_array type = Some ext -> ext <> kExternalInt64Array ->
  Ascii.eqb (category type) TYPCATEGORY_ARRAY = true ->
  ARR_HASNULL a = false -> ARR_NDIM a = 1 ->
  exists kind : TypedArrayKind,
    ToValue cfg pg js (DatumArray a) false type
    = Ok (VTypedArray kind (ARR_DATA pg a) (Some (DatumArray a)))
    /\ forall changed : list byte,
         ToDatum cfg pg js (VTypedArray kind changed (Some (DatumArray a))) type
         = Ok (DatumArray a, false).
Proof.
  intros Hext Hne Hcat Hnull Hdim.
  destruct (ToArrayValue_external_copy cfg pg js a false type ext Hext Hne Hnull Hdim)
    as [kind Hk].
  exists kind. split.
  - rewrite ToValue_array by exact Hcat. exact Hk.
  - intros changed. unfold ToDatum. rewrite Hcat. reflexivity.
Qed.

(** X15. For a domain under the array category whose name is one of
    the reserved [plv8_int2array], [plv8_int4array],
    [plv8_float4array], [plv8_float8array], [plv8_int8array],
    [plv8_fill_type] keeps the identifier of the domain, looks no
    element type up and records the buffer kind. A one-dimensional
    array without nulls is then read, for the first four names, as an
    Int16Array, Int32Array, Float32Array or Float64Array over a copy of
    its bytes that carries the array; for [plv8_int8array] the decoder
    throws "unexpected array type". *)
Theorem reserved_domain_descriptor_and_view (type : plv8_type)
  (oid : Oid) (typname : string) (ext : plv8_external_array_type)
  (l : Z) (b : bool) (al : ascii) (a : ArrayType Datum) :
  get_typtype pg oid = TYPTYPE_DOMAIN ->
  typname_of pg oid = Some typname ->
  reserved_domain typname = Some ext ->
  get_type_category_preferred pg oid = Ok TYPCATEGORY_ARRAY ->
  get_typlenbyvalalign pg oid = Ok (l, b, al) ->
  ARR_HASNULL a = false -> ARR_NDIM a = 1 ->
  let filled :=
    {| typid := oid; ioparam := ioparam type; len := l;
       byval := b; align := al;
       category := TYPCATEGORY_ARRAY; is_composite := false;
       fn_input := fn_input type; fn_output := fn_output type;
       ext_array := Some ext |} in
  let view (kind : TypedArrayKind) : Result Value :=
    Ok (VTypedArray kind (ARR_DATA pg a) (Some (DatumArray a))) in
  plv8_fill_type pg type oid = Ok filled
  /\ ToValue cfg pg js (DatumArray a) false filled
     = (if String.eqb typname "plv8_int2array" then view Int16Array
        else if String.eqb typname "plv8_int4array" then view Int32Array
        else if String.eqb typname "plv8_float4array" then view Float32Array
        else if String.eqb typname "plv8_float8array" then view Float64Array
        else Raise (js_error "unexpected array type")).
Proof.
  intros Hdom Hname Hres Hcat Hlen Hnull Hdim filled view. split.
  - unfold plv8_fill_type.
    rewrite Hcat, Hlen, Hdom, Hname. cbn [bind Ok]. cbv beta iota.
    change (Ascii.eqb TYPTYPE_DOMAIN TYPTYPE_DOMAIN) with true. cbv iota.
    unfold reserved_domain in Hres. unfold filled.
    repeat match type of Hres with
           | (if ?c then _ else _) = _ => destruct c
           end;
      inversion Hres; subst; reflexivity.
  - rewrite ToValue_array by reflexivity.
    rewrite (ToArrayValue_external_one_dim cfg pg js a false filled ext)
      by (reflexivity || assumption).
    unfold reserved_domain in Hres. unfold view.
    repeat match type of Hres with
           | (if ?c then _ else _) = _ => destruct c
           end;
      inversion Hres; subst; reflexivity.
Qed.

(** X16. A descriptor [plv8_fill_type] has filled carries the
    category of the type it was asked for. Apart from the reserved
    domains, under an array category it names the element type, which
    is valid, with the length, by-value flag and alignment of the
    element; otherwise it names the type itself and is composite
    exactly when the category is. *)
Theorem plv8_fill_type_names_the_element_type (type filled : plv8_type)
  (oid : Oid) :
  plv8_fill_type pg type oid = Ok filled ->
  get_type_category_preferred pg oid = Ok (category filled)
  /\ (ext_array filled = None ->
      if Ascii.eqb (category filled) TYPCATEGORY_ARRAY
      then typid filled = get_element_type pg oid
           /\ typid filled <> InvalidOid
           /\ get_typlenbyvalalign pg (typid filled)
              = Ok (len filled, byval filled,
                    align filled)
      else typid filled = oid
           /\ is_composite filled
              = Ascii.eqb (category filled) TYPCATEGORY_COMPOSITE).
Proof.
  unfold plv8_fill_type. intros H.
  destruct (get_type_category_preferred pg oid) as [e | cat]; [discriminate H |].
  destruct (get_typlenbyvalalign pg oid) as [e | [[l b] al]]; [discriminate H |].
  cbn [bind Ok] in H. cbv beta iota in H.
  set (domain := Ascii.eqb (get_typtype pg oid) TYPTYPE_DOMAIN) in *.
  assert (Tail : forall t : plv8_type,
             category t = cat -> typid t = oid ->
             is_composite t = Ascii.eqb cat TYPCATEGORY_COMPOSITE ->
             (if domain && match ext_array t with Some _ => true | None => false end
              then Ok t
              else if Ascii.eqb cat TYPCATEGORY_ARRAY then
                let elemid := get_element_type pg oid in
                if elemid =? InvalidOid then
                  Raise (ereport_ERROR
                           ("cannot determine element type of array: "
                              ++ Cnum.decimal oid))
                else
                  elemcat <- TypeCategory pg elemid ;;
                  '(len, byval, align) <- get_typlenbyvalalign pg elemid ;;
                  Ok {| typid := elemid; ioparam := ioparam t;
                        len := len; byval := byval;
                        align := align; category := cat;
                        is_composite := Ascii.eqb elemcat TYPCATEGORY_COMPOSITE;
                        fn_input := fn_input t; fn_output := fn_output t;
                        ext_array := ext_array t |}
              else Ok t) = Ok filled ->
             Ok (A := ascii) cat = Ok (category filled)
             /\ (ext_array filled = None ->
                 if Ascii.eqb (category filled) TYPCATEGORY_ARRAY
                 then typid filled = get_element_type pg oid
                      /\ typid filled <> InvalidOid
                      /\ get_typlenbyvalalign pg (typid filled)
                         = Ok (len filled, byval filled,
                               align filled)
                 else typid filled = oid
                      /\ is_composite filled
                         = Ascii.eqb (category filled) TYPCATEGORY_COMPOSITE)).
  { intros t Hc Ht Hi Hr.
    destruct (domain && match ext_array t with Some _ => true | None => false end)
      eqn:Hearly.
    - inversion Hr; subst filled. split; [rewrite Hc; reflexivity |].
      intros Hnone. apply andb_true_iff in Hearly. destruct Hearly as [_ Hsome].
      rewrite Hnone in Hsome. discriminate Hsome.
    - destruct (Ascii.eqb cat TYPCATEGORY_ARRAY) eqn:Harr.
      + cbv zeta in Hr.
        destruct (Z.eqb_spec (get_element_type pg oid) InvalidOid) as [Hinv | Hinv];
          [discriminate Hr |].
        destruct (TypeCategory pg (get_element_type pg oid)) as [e | elemcat];
          [discriminate Hr |].
        destruct (get_typlenbyvalalign pg (get_element_type pg oid))
          as [e | [[l' b'] al']] eqn:Hl; [discriminate Hr |].
        inversion Hr; subst filled. cbn. split; [reflexivity |].
        intros _. rewrite Harr. repeat split; assumption.
      + inversion Hr; subst filled. split; [rewrite Hc; reflexivity |].
        intros _. rewrite Hc, Harr, Ht, Hi. split; reflexivity. }
  destruct domain.
  - destruct (typname_of pg oid) as [typname |]; [| discriminate H].
    cbn [bind Ok] in H. cbv beta iota in H.
    eapply Tail; [| | | exact H]; reflexivity.
  - cbn [bind Ok] in H. cbv beta iota in H.
    eapply Tail; [| | | exact H]; reflexivity.
Qed.

End DescriptorProofs.

Lemma external_array_changes_are_lost_witness :
  let type := Sample.array_type INT4OID (Some kExternalIntArray) in
  let a := Sample.one_dim INT4OID [(DatumWord 1, false); (DatumWord 2, false)] in
  ext_array type = Some kExternalIntArray
  /\ ARR_HASNULL a = false /\ ARR_NDIM a = 1
  /\ exists kind : TypedArrayKind,
       ToValue Sample.cfg Sample.pg Sample.js (DatumArray a) false type
       = Ok (VTypedArray kind (ARR_DATA Sample.pg a) (Some (DatumArray a)))
       /\ forall changed : list byte,
            ToDatum Sample.cfg Sample.pg Sample.js
              (VTypedArray kind changed (Some (DatumArray a))) type
            = Ok (DatumArray a, false).
Proof.
  split; [reflexivity |]. split; [reflexivity |]. split; [reflexivity |].
  apply (external_array_changes_are_lost Sample.cfg Sample.pg Sample.js
           (Sample.array_type INT4OID (Some kExternalIntArray)) kExternalIntArray
           (Sample.one_dim INT4OID [(DatumWord 1, false); (DatumWord 2, false)])).
  - reflexivity.
  - discriminate.
  - reflexivity.
  - reflexivity.
  - reflexivity.
Defined.

Lemma reserved_domain_descriptor_and_view_witness :
  let a := Sample.one_dim INT4OID [(DatumWord 1, false); (DatumWord 2, false)] in
  let filled :=
    {| typid := Demo.INT4DOMAIN; ioparam := 0; len := -1; byval := false;
       align := "i"%char; category := TYPCATEGORY_ARRAY; is_composite := false;
       fn_input := None; fn_output := None;
       ext_array := Some kExternalIntArray |} in
  get_typtype Demo.pg Demo.INT4DOMAIN = TYPTYPE_DOMAIN
  /\ reserved_domain "plv8_int4array" = Some kExternalIntArray
  /\ plv8_fill_type Demo.pg Demo.blank Demo.INT4DOMAIN = Ok filled
  /\ ToValue Sample.cfg Demo.pg Demo.js (DatumArray a) false filled
     = Ok (VTypedArray Int32Array (ARR_DATA Demo.pg a) (Some (DatumArray a))).
Proof.
  split; [reflexivity |]. split; [reflexivity |].
  apply (reserved_domain_descriptor_and_view Sample.cfg Demo.pg Demo.js
           Demo.blank Demo.INT4DOMAIN "plv8_int4array" kExternalIntArray
           (-1) false "i"%char
           (Sample.one_dim INT4OID [(DatumWord 1, false); (DatumWord 2, false)]));
    reflexivity.
Defined.

Lemma plv8_fill_type_names_the_element_type_witness :
  let filled :=
    {| typid := INT4OID; ioparam := 0; len := 4; byval := true;
       align := "i"%char; category := TYPCATEGORY_ARRAY; is_composite := false;
       fn_input := None; fn_output := None; ext_array := None |} in
  plv8_fill_type Demo.pg Demo.blank Demo.INT4ARRAY = Ok filled
  /\ get_type_category_preferred Demo.pg Demo.INT4ARRAY = Ok (category filled)
  /\ (ext_array filled = None ->
      if Ascii.eqb (category filled) TYPCATEGORY_ARRAY
      then typid filled = get_element_type Demo.pg Demo.INT4ARRAY
           /\ typid filled <> InvalidOid
           /\ get_typlenbyvalalign Demo.pg (typid filled)
              = Ok (len filled, byval filled, align filled)
      else typid filled = Demo.INT4ARRAY
           /\ is_composite filled
              = Ascii.eqb (category filled) TYPCATEGORY_COMPOSITE).
Proof.
  split; [reflexivity |].
  apply (plv8_fill_type_names_the_element_type Demo.pg Demo.blank _
           Demo.INT4ARRAY).
  reflexivity.
Defined.

(** *** Text, json and arrays of records *)

Lemma string_of_bytes_of_string (s : string) :
  string_of_bytes (bytes_of_string s) = s.
Proof. apply string_of_list_byte_of_string. Qed.

Section TextProofs.

Variable cfg : Config.
Variable pg : Host.
Variable js : Engine.

Lemma textual_cases (oid : Oid) :
  textual oid = true ->
  oid = TEXTOID \/ oid = VARCHAROID \/ oid = BPCHAROID \/ oid = XMLOID.
Proof.
  unfold textual. intros H.
  repeat (apply orb_true_iff in H; destruct H as [H | H]);
    apply Z.eqb_eq in H; auto.
Qed.

Lemma ToScalarValue_textual (p : list byte) (isnull : bool) (type : plv8_type) :
  textual (typid type) = true ->
  ToScalarValue cfg pg js (DatumVarlena p) isnull type
  = (result <- ToString pg (Some (string_of_bytes p)) (GetDatabaseEncoding pg) ;;
     Ok (VString result)).
Proof.
  intros H. unfold ToScalarValue.
  destruct (textual_cases _ H) as [E | [E | [E | E]]]; rewrite E; reflexivity.
Qed.

Lemma scalar_switch_textual (value : Value) (oid : Oid) :
  textual oid = true -> scalar_switch cfg pg js value oid = None.
Proof.
  intros H.
  destruct (textual_cases _ H) as [E | [E | [E | E]]]; rewrite E; reflexivity.
Qed.


Lemma scalar_switch_JSONOID (value : Value) :
  90200 <= PG_VERSION_NUM cfg ->
  scalar_switch cfg pg js value JSONOID = case_JSONOID pg js value.
Proof.
  intros H. unfold scalar_switch.
  assert (V : (90200 <=? PG_VERSION_NUM cfg) = true) by (apply Z.leb_le; exact H).
  change (JSONOID =? OIDOID) with false. cbn. rewrite V. reflexivity.
Qed.

Lemma ToScalarValue_JSONOID (p : list byte) (isnull : bool) (type : plv8_type) :
  typid type = JSONOID -> 90200 <= PG_VERSION_NUM cfg ->
  ToScalarValue cfg pg js (DatumVarlena p) isnull type
  = (jsonString <- ToString pg (Some (string_of_bytes p))
                     (GetDatabaseEncoding pg) ;;
     Ok (JSON_Parse js (VString jsonString))).
Proof.
  intros Htyp H. unfold ToScalarValue. rewrite Htyp.
  assert (V : (90200 <=? PG_VERSION_NUM cfg) = true) by (apply Z.leb_le; exact H).
  cbn. rewrite V. reflexivity.
Qed.

(** X10. An Object or an Array stored as [json] is stored as the text
    [JSON.stringify] gives, in the encoding of the database, and read
    back through [JSON.parse]: where the conversion from the encoding
    gives the text back and the engine parses it to the value, the
    value comes back. *)
Theorem json_there_and_back (type : plv8_type) (value : Value)
  (text stored : string) :
  typid type = JSONOID -> 90200 <= PG_VERSION_NUM cfg ->
  Ascii.eqb (category type) TYPCATEGORY_COMPOSITE = false ->
  IsObject value || IsArray value = true ->
  Utf8Value js (JSON_Stringify js value) = Some text ->
  ToCString pg (Some text) = Ok (Some stored) ->
  ToString pg (Some stored) (GetDatabaseEncoding pg) = Ok text ->
  JSON_Parse js (VString text) = value ->
  ToScalarDatum cfg pg js value type
  = Ok (DatumVarlena (bytes_of_string stored), false)
  /\ ToScalarValue cfg pg js (DatumVarlena (bytes_of_string stored)) false type
     = Ok value.
Proof.
  intros Htyp Hver Hcat Hobj Hutf Hto Hfrom Hparse.
  assert (Hnull : IsUndefined value || IsNull value = false)
    by (destruct value; try reflexivity; discriminate Hobj).
  split.
  - rewrite (ToScalarDatum_switch cfg pg js), Htyp, scalar_switch_JSONOID by assumption.
    unfold case_JSONOID, CString. rewrite Hobj, Hutf, Hto. reflexivity.
  - rewrite ToScalarValue_JSONOID by assumption.
    rewrite string_of_bytes_of_string, Hfrom, bind_Ok, Hparse. reflexivity.
Qed.

(** X17. The elements of a [record[]] are read as records: the
    element type of its descriptor is [RECORDOID], and every element
    that is not null goes to [ToRecordValue], a null one to [null]. *)
Theorem record_array_elements_are_records (type base : plv8_type)
  (a : ArrayType Datum) :
  typid type = RECORDARRAYOID ->
  ext_array type = None ->
  base_type pg type = Ok base ->
  Ascii.eqb (category base) TYPCATEGORY_ARRAY = false ->
  typid base = RECORDOID
  /\ ToValue cfg pg js (DatumArray a) false type
     = (result <- mapM (fun element : Datum * bool =>
                          if snd element then Ok VNull
                          else ToRecordValue pg js (fst element) false base)
                   (arr_elems a) ;;
        Ok (VArray result)).
Proof.
  intros Htyp Hext Hbase Hcat.
  assert (Hb : typid base = RECORDOID).
  { unfold base_type in Hbase. rewrite Htyp in Hbase.
    change (RECORDARRAYOID =? RECORDARRAYOID) with true in Hbase. cbv iota in Hbase.
    destruct (get_type_category_preferred pg RECORDOID); [discriminate Hbase |].
    destruct (get_typlenbyvalalign pg RECORDOID) as [e | [[l b] al]];
      [discriminate Hbase |].
    inversion Hbase. reflexivity. }
  split; [exact Hb |].
  transitivity (ToArrayValue cfg pg js (DatumArray a) false type).
  - cbn [ToValue]. rewrite Htyp.
    change (RECORDARRAYOID =? RECORDARRAYOID) with true. rewrite orb_true_r.
    reflexivity.
  - rewrite (ToArrayValue_elements cfg pg js a false type base Hext Hbase).
    f_equal. apply mapM_ext. intros [value null]. unfold decode_element.
    cbn [fst snd]. destruct null; [destruct value; reflexivity |].
    destruct value; cbn [ToValue]; rewrite Hcat, Hb;
      change (RECORDOID =? RECORDARRAYOID) with false;
      change (RECORDOID =? RECORDOID) with true;
      rewrite orb_true_r; reflexivity.
Qed.

End TextProofs.

Section ArrayErrorProofs.

Variable cfg : Config.
Variable pg : Host.
Variable js : Engine.

(** X18. Storing an Array stops at the first element that cannot be
    stored: the error of that element is the error of the array, and
    the elements after it are not looked at. *)
Theorem array_fails_at_first_bad_element (type : plv8_type)
  (before after : list Value) (element : Value)
  (converted : list (Datum * bool)) (e : Error) :
  mapM (encode_element cfg pg js type) before = Ok converted ->
  encode_element cfg pg js type element = Raise e ->
  ToArrayDatum cfg pg js (VArray (before ++ element :: after)) type = Raise e.
Proof.
  intros Hbefore Helement. unfold ToArrayDatum.
  cbn [IsUndefined IsNull orb ExtractExternalArrayDatum]. cbv zeta.
  rewrite (mapM_first_failure _ before element after converted e Hbefore Helement).
  reflexivity.
Qed.

End ArrayErrorProofs.

(** *** Errors: what [PG_TRY] catches and what it does not *)

Lemma PG_TRY_never_leaks {A : Type} (body : Result A) (msg : string) :
  PG_TRY body <> Raise (ereport_ERROR msg).
Proof. destruct body as [[] |]; discriminate. Qed.

Lemma caught_PG_TRY {A : Type} (body : Result A) : ~ uncaught (PG_TRY body).
Proof. intros [msg H]. exact (PG_TRY_never_leaks body msg H). Qed.

Lemma caught_bind {A B : Type} (r : Result A) (k : A -> Result B) :
  ~ uncaught r -> (forall a, ~ uncaught (k a)) -> ~ uncaught (bind r k).
Proof.
  intros Hr Hk [msg H]. destruct r as [e | a].
  - apply Hr. exists msg. cbn in H. inversion H. reflexivity.
  - apply (Hk a). exists msg. exact H.
Qed.

Lemma caught_Ok {A : Type} (a : A) : ~ uncaught (Ok a).
Proof. intros [msg H]. discriminate H. Qed.

Lemma caught_undefined {A : Type} (what : string) :
  ~ uncaught (Raise (A := A) (undefined_behaviour what)).
Proof. intros [msg H]. discriminate H. Qed.

Lemma caught_DatumGetWord (what : string) (datum : Datum) :
  ~ uncaught (DatumGetWord what datum).
Proof. destruct datum; intros [msg H]; discriminate H. Qed.

Lemma caught_DatumGetFloat (what : string) (datum : Datum) :
  ~ uncaught (DatumGetFloat what datum).
Proof. destruct datum; intros [msg H]; discriminate H. Qed.

Lemma caught_DatumGetVarlena (what : string) (datum : Datum) :
  (forall msg : string, datum <> DatumToasted (inl msg)) ->
  ~ uncaught (DatumGetVarlena what datum).
Proof.
  intros Hd. destruct datum as [| | | | [failure | payload] | | | |];
    intros [msg H]; try discriminate H.
  exact (Hd failure eq_refl).
Qed.

Lemma caught_cast_double_signed (w : Z) (what : string) (d : float) :
  ~ uncaught (Cnum.cast_double_signed w what d).
Proof.
  unfold Cnum.cast_double_signed. intros [msg H].
  destruct (Cnum.truncate d) as [z |]; [| discriminate H].
  destruct ((- 2 ^ (w - 1) <=? z) && (z <=? 2 ^ (w - 1) - 1)); discriminate H.
Qed.

Section ErrorProofs.

Variable cfg : Config.
Variable pg : Host.
Variable js : Engine.

Lemma caught_ToString (str : option string) (encoding : Z) :
  ~ uncaught (ToString pg str encoding).
Proof.
  destruct str as [s |]; cbn [ToString]; [apply caught_PG_TRY | apply caught_Ok].
Qed.

Lemma caught_ToString_Datum (value : Datum) (type : plv8_type) :
  ~ uncaught (ToString_Datum pg value type).
Proof.
  unfold ToString_Datum. apply caught_bind; [apply caught_PG_TRY |].
  intros str. destruct (GetDatabaseEncoding pg =? PG_UTF8);
    [apply caught_Ok | apply caught_ToString].
Qed.

Lemma caught_ToCString (value : option string) : ~ uncaught (ToCString pg value).
Proof.
  unfold ToCString. destruct value as [s |]; [| apply caught_Ok].
  destruct (GetDatabaseEncoding pg =? PG_UTF8); [apply caught_Ok |].
  apply caught_bind; [apply caught_PG_TRY | intros; apply caught_Ok].
Qed.

Lemma caught_lexical_cast (value : Value) (type : plv8_type) :
  ~ uncaught (lexical_cast pg js value type).
Proof.
  unfold lexical_cast, CString.
  apply caught_bind; [apply caught_ToCString | intros; apply caught_PG_TRY].
Qed.

Lemma caught_CreateExternalArray (data : list byte)
  (ext : plv8_external_array_type) (byte_size : Z) (datum : Datum) :
  ~ uncaught (CreateExternalArray data ext byte_size datum).
Proof.
  unfold CreateExternalArray, ArrayBuffer_New, memcpy. intros [msg H].
  destruct (byte_size <? 0); [discriminate H |]. cbn [bind Ok] in H.
  destruct ext; cbn in H;
    try discriminate H;
    destruct ((0 <=? byte_size) && (byte_size <=? byte_length data)
              && (byte_size <=? byte_length (repeat x00 (Z.to_nat byte_size))));
    discriminate H.
Qed.

Lemma caught_EpochToDate (epoch : float) : ~ uncaught (EpochToDate cfg epoch).
Proof.
  unfold EpochToDate.
  apply caught_bind; [apply caught_cast_double_signed | intros; apply caught_Ok].
Qed.

Lemma caught_EpochToTimestampTz (epoch : float) :
  ~ uncaught (EpochToTimestampTz cfg epoch).
Proof.
  unfold EpochToTimestampTz. destruct (HAVE_INT64_TIMESTAMP cfg); [| apply caught_Ok].
  apply caught_bind; [apply caught_cast_double_signed |].
  intros whole. apply caught_bind; [| intros; apply caught_Ok].
  unfold int64_mul. intros [msg H].
  destruct ((Cnum.INT64_MIN <=? whole * 1000) && (whole * 1000 <=? Cnum.INT64_MAX));
    discriminate H.
Qed.

(** Where the bytes of the value are not fetched, or are fetched
    without an error, no error of the database leaves [ToScalarValue]
    as it was raised. *)
Lemma ToScalarValue_catches (datum : Datum) (isnull : bool) (type : plv8_type) :
  typid type <> NUMERICOID ->
  (typid type = JSONBOID -> 90400 <= PG_VERSION_NUM cfg ->
   JSONB_DIRECT_CONVERSION cfg = false) ->
  (reads_varlena cfg (typid type) = true ->
   forall msg : string, datum <> DatumToasted (inl msg)) ->
  ~ uncaught (ToScalarValue cfg pg js datum isnull type).
Proof.
  intros Hnum Hjsonb Hfetch. unfold ToScalarValue. cbv zeta.
  unfold reads_varlena, textual in Hfetch.
  repeat match goal with
         | |- ~ uncaught (if ?c then _ else _) => destruct c eqn:?
         | |- ~ uncaught (bind (DatumGetWord _ _) _) =>
             apply caught_bind; [apply caught_DatumGetWord | intros ?]
         | |- ~ uncaught (bind (DatumGetFloat _ _) _) =>
             apply caught_bind; [apply caught_DatumGetFloat | intros ?]
         | |- ~ uncaught (bind (DatumGetVarlena _ _) _) =>
             apply caught_bind;
             [apply caught_DatumGetVarlena; apply Hfetch;
              repeat match goal with
                     | H : _ = true |- _ => rewrite H
                     | H : _ = false |- _ => rewrite H
                     end; reflexivity
             | intros ?]
         | |- ~ uncaught (bind (ToString _ _ _) _) =>
             apply caught_bind; [apply caught_ToString | intros ?]
         | |- ~ uncaught (bind (ToString_Datum _ _ _) _) =>
             apply caught_bind; [apply caught_ToString_Datum | intros ?]
         | |- ~ uncaught (Ok _) => apply caught_Ok
         | |- ~ uncaught (CreateExternalArray _ _ _ _) =>
             apply caught_CreateExternalArray
         end.
  - unfold graceful_bigint.
    destruct ((Cnum.INT32_MAX <? Cnum.wrap_signed 64 a)
              || (Cnum.wrap_signed 64 a <? Cnum.INT32_MIN)); [| apply caught_Ok].
    destruct (String.length (Cnum.decimal (Cnum.wrap_signed 64 a)) <? 20)%nat;
      [| apply caught_undefined].
    apply caught_bind; [apply caught_ToString | intros; apply caught_Ok].
  - exfalso. apply Hnum. apply Z.eqb_eq. assumption.
  - unfold DatumGetTimestampTz. destruct (HAVE_INT64_TIMESTAMP cfg).
    + apply caught_bind; [| intros; apply caught_Ok].
      apply caught_bind; [apply caught_DatumGetWord | intros; apply caught_Ok].
    + apply caught_bind; [| intros; apply caught_Ok].
      apply caught_bind; [apply caught_DatumGetFloat | intros; apply caught_Ok].
  - exfalso.
    match goal with
    | H : (_ =? JSONBOID) && (90400 <=? _) = true |- _ =>
        apply andb_true_iff in H; destruct H as [Ht Hv]
    end.
    apply Z.eqb_eq in Ht. apply Z.leb_le in Hv.
    pose proof (Hjsonb Ht Hv). congruence.
Qed.

(** In the cases that fetch the bytes of the value, an error of the
    fetch leaves as it was raised: the fetch is outside [PG_TRY]. *)
Lemma ToScalarValue_failing_fetch (msg : string) (isnull : bool)
  (type : plv8_type) :
  reads_varlena cfg (typid type) = true ->
  ToScalarValue cfg pg js (DatumToasted (inl msg)) isnull type
  = Raise (ereport_ERROR msg).
Proof.
  unfold reads_varlena. intros H.
  apply orb_true_iff in H. destruct H as [H | H];
    [apply orb_true_iff in H; destruct H as [H | H] |].
  - unfold ToScalarValue.
    destruct (textual_cases _ H) as [E | [E | [E | E]]]; rewrite E; reflexivity.
  - apply Z.eqb_eq in H. unfold ToScalarValue. rewrite H. reflexivity.
  - apply andb_true_iff in H. destruct H as [H V]. apply Z.eqb_eq in H.
    unfold ToScalarValue. rewrite H. cbn. rewrite V. reflexivity.
Qed.

(** X20. Reading a scalar lets an error of the database out as it was
    raised in one place only, apart from the case [NUMERICOID] (which
    calls [numeric_float8] directly) and the direct conversion of
    jsonb: where the case of a textual type, of [bytea] or of [json]
    fetches the bytes of a value kept out of line and the fetch fails,
    for [PG_DETOAST_DATUM_PACKED] and [PG_DETOAST_DATUM_COPY] are
    called outside [PG_TRY]. The errors of the output function and of
    the encoding conversion are caught and thrown again as
    [pg_error]. (Failures of an allocation are not represented.) *)
Theorem decode_catches_database_errors (isnull : bool) (type : plv8_type) :
  typid type <> NUMERICOID ->
  (typid type = JSONBOID -> 90400 <= PG_VERSION_NUM cfg ->
   JSONB_DIRECT_CONVERSION cfg = false) ->
  (forall datum : Datum,
      uncaught (ToScalarValue cfg pg js datum isnull type) ->
      reads_varlena cfg (typid type) = true
      /\ exists msg : string, datum = DatumToasted (inl msg))
  /\ (forall msg : string,
         reads_varlena cfg (typid type) = true ->
         ToScalarValue cfg pg js (DatumToasted (inl msg)) isnull type
         = Raise (ereport_ERROR msg)).
Proof.
  intros Hnum Hjsonb. split.
  - intros datum Hraw.
    destruct (reads_varlena cfg (typid type)) eqn:Hreads.
    + split; [reflexivity |].
      destruct datum as [w | d | n | payload | fetched | root | a
                         | tupType tupTypmod attrs | oid repr];
        try (exfalso;
             match type of Hraw with
             | uncaught (ToScalarValue _ _ _ ?stored _ _) =>
                 apply (ToScalarValue_catches stored isnull type Hnum Hjsonb)
             end;
             [intros _ msg; discriminate | exact Hraw]).
      destruct fetched as [failure | fetched].
      * exists failure. reflexivity.
      * exfalso.
        apply (ToScalarValue_catches (DatumToasted (inr fetched)) isnull type
                 Hnum Hjsonb); [intros _ msg; discriminate | exact Hraw].
    + exfalso.
      apply (ToScalarValue_catches datum isnull type Hnum Hjsonb);
        [| exact Hraw].
      rewrite Hreads. discriminate.
  - intros msg Hreads. apply ToScalarValue_failing_fetch. exact Hreads.
Qed.

Lemma caught_CStringGetTextDatum (str : option string) :
  ~ uncaught (CStringGetTextDatum str).
Proof. destruct str; intros [msg H]; discriminate H. Qed.

(** X19. Storing a scalar that is not a record lets no error of the
    database out as it was raised either: the input function and the
    encoding conversion run inside [PG_TRY]. The exceptions are the
    cases that call into the database outside it: [NUMERICOID], the
    checked [INT2OID] and [INT4OID], and [JSONBOID] (which [BYTEAOID]
    runs on into). (Failures of an allocation are not represented.) *)
Theorem encode_catches_database_errors (value : Value) (type : plv8_type) :
  Ascii.eqb (category type) TYPCATEGORY_COMPOSITE = false ->
  typid type <> NUMERICOID -> typid type <> BYTEAOID -> typid type <> JSONBOID ->
  (CHECK_INTEGER_OVERFLOW cfg = true ->
   typid type <> INT2OID /\ typid type <> INT4OID) ->
  ~ uncaught (ToScalarDatum cfg pg js value type).
Proof.
  intros Hcat Hnum Hbytea Hjsonb Hcheck. unfold ToScalarDatum. rewrite Hcat.
  destruct (IsUndefined value || IsNull value); [apply caught_Ok |].
  assert (L : ~ uncaught (datum <- lexical_cast pg js value type ;;
                          Ok (datum, false))).
  { apply caught_bind; [apply caught_lexical_cast | intros; apply caught_Ok]. }
  unfold scalar_switch, case_JSONOID.
  destruct (CHECK_INTEGER_OVERFLOW cfg).
  1: destruct (Hcheck eq_refl) as [H2 H4].
  all: repeat match goal with
         | |- ~ uncaught (match (if ?c then _ else _) with _ => _ end) =>
             destruct c eqn:?
         end.
  all: try exact L.
  all: try solve [ exfalso;
                   match goal with
                   | H : (typid _ =? _) = true |- _ => apply Z.eqb_eq in H
                   | H : (typid _ =? _) && _ = true |- _ =>
                       apply andb_true_iff in H; destruct H as [H _];
                       apply Z.eqb_eq in H
                   end; contradiction ].
  all: apply caught_bind; [| intros; apply caught_Ok].
  all: try apply caught_Ok.
  all: try apply caught_EpochToDate.
  all: try apply caught_EpochToTimestampTz.
  all: apply caught_bind; [| intros; apply caught_CStringGetTextDatum].
  all: unfold CString; apply caught_ToCString.
Qed.

End ErrorProofs.

(** *** Dates as text (TimeAs8601) *)

Lemma string_length_append (a b : string) :
  String.length (a ++ b) = (String.length a + String.length b)%nat.
Proof. induction a as [| c a IH]; [reflexivity |]. cbn. rewrite IH. reflexivity. Qed.

Lemma double_sub_self (z : Z) :
  Z.abs z < 2 ^ 53 ->
  (Cnum.double_of_Z z - Cnum.double_of_Z z)%float = 0%float.
Proof.
  intros Hz. destruct (Z.eq_dec z 0) as [-> | Hne]; [reflexivity |].
  destruct (is_float_exists z ltac:(lia)) as (m & e & F & _).
  apply Prim2SF_inj. rewrite sub_spec, (Prim2SF_double_of_Z _ _ _ _ F).
  unfold SF64sub, SFsub. cbv zeta. rewrite Z.sub_diag. reflexivity.
Qed.

Section TimeProofs.

Variable pg : Host.

(** X21. The text [TimeAs8601] gives for a Date on a whole second is
    what [strftime] printed followed by [.000Z]; when [strftime]
    printed 20 characters or more (a year of five digits), the
    [sprintf] that appends the milliseconds writes past the 25 bytes of
    [buf]. *)
Theorem TimeAs8601_whole_second (k : Z) :
  Z.abs k <= 8640000000000 ->
  TimeAs8601 pg (Cnum.double_of_Z (1000 * k))
  = if (String.length (strftime_gmtime pg k) <? 20)%nat
    then Ok (strftime_gmtime pg k ++ ".000Z")%string
    else Raise (undefined_behaviour "sprintf past the end of buf").
Proof.
  intros Hk. unfold TimeAs8601.
  assert (D : (Cnum.double_of_Z (1000 * k) / 1000)%float = Cnum.double_of_Z k).
  { destruct (Z.eq_dec k 0) as [-> | Hne]; [reflexivity |].
    apply double_div_1000. unfold fits53. lia. }
  rewrite D.
  rewrite cast_double_signed_exact;
    [| lia | change (2 ^ (64 - 1)) with 9223372036854775808; lia].
  rewrite bind_Ok. unfold Cnum.modf_fractional.
  rewrite truncate_exact, double_sub_self by lia.
  change (Cnum.cast_double_signed 32 "(int) (fractional * 1000)" (0 * 1000)%float)
    with (Ok (A := Z) 0).
  rewrite bind_Ok.
  change (format_03d 0) with "000"%string.
  rewrite !string_length_append. cbn [String.length].
  change (1 + (3 + 1))%nat with 5%nat.
  change ("." ++ "000" ++ "Z")%string with ".000Z"%string.
  destruct (Nat.ltb_spec (String.length (strftime_gmtime pg k) + 5) 25) as [L | L];
    destruct (Nat.ltb_spec (String.length (strftime_gmtime pg k)) 20) as [M | M];
    try lia; reflexivity.
Qed.

End TimeProofs.


Lemma json_there_and_back_witness :
  let type := Sample.scalar_type JSONOID in
  90200 <= PG_VERSION_NUM Demo.cfg_json
  /\ ToScalarDatum Demo.cfg_json Demo.pg Demo.js (VObject []) type
     = Ok (DatumVarlena (bytes_of_string "{}"), false)
  /\ ToScalarValue Demo.cfg_json Demo.pg Demo.js
       (DatumVarlena (bytes_of_string "{}")) false type
     = Ok (VObject []).
Proof.
  split; [cbv; discriminate |].
  apply (json_there_and_back Demo.cfg_json Demo.pg Demo.js
           (Sample.scalar_type JSONOID) (VObject []) "{}" "{}").
  - reflexivity.
  - cbv. discriminate.
  - reflexivity.
  - reflexivity.
  - reflexivity.
  - reflexivity.
  - reflexivity.
  - reflexivity.
Defined.

Lemma record_array_elements_are_records_witness :
  let type := Sample.array_type RECORDARRAYOID None in
  let base := Sample.scalar_type RECORDOID in
  let a := Sample.one_dim RECORDOID
             [(DatumHeapTuple RECORDOID (-1) [], false); (Datum0, true)] in
  base_type Sample.pg type = Ok base
  /\ typid base = RECORDOID
  /\ ToValue Sample.cfg Sample.pg Sample.js (DatumArray a) false type
     = (result <- mapM (fun element : Datum * bool =>
                          if snd element then Ok VNull
                          else ToRecordValue Sample.pg Sample.js (fst element)
                                 false base)
                   (arr_elems a) ;;
        Ok (VArray result)).
Proof.
  split; [reflexivity |].
  apply (record_array_elements_are_records Sample.cfg Sample.pg Sample.js
           (Sample.array_type RECORDARRAYOID None)
           (Sample.scalar_type RECORDOID)
           (Sample.one_dim RECORDOID
              [(DatumHeapTuple RECORDOID (-1) [], false); (Datum0, true)]));
    reflexivity.
Defined.

Lemma array_fails_at_first_bad_element_witness :
  ToArrayDatum Demo.cfg_checked Sample.pg Sample.js
    (VArray ([VNumber (Cnum.double_of_Z 1)]
             ++ VNumber (Cnum.double_of_Z 40000) :: [VString "never looked at"]))
    (Sample.array_type INT2OID None)
  = Raise (ereport_ERROR "smallint out of range").
Proof.
  apply (array_fails_at_first_bad_element Demo.cfg_checked Sample.pg Sample.js
           (Sample.array_type INT2OID None)
           [VNumber (Cnum.double_of_Z 1)] [VString "never looked at"]
           (VNumber (Cnum.double_of_Z 40000)) [(DatumWord 1, false)]);
    reflexivity.
Defined.

Lemma encode_catches_database_errors_witness :
  ~ uncaught (ToScalarDatum Demo.cfg_checked Sample.pg_ascii Sample.js
                (VString Sample.snowman) (Sample.scalar_type TEXTOID)).
Proof.
  apply (encode_catches_database_errors Demo.cfg_checked Sample.pg_ascii
           Sample.js (VString Sample.snowman) (Sample.scalar_type TEXTOID)).
  - reflexivity.
  - cbv. discriminate.
  - cbv. discriminate.
  - cbv. discriminate.
  - intros _. split; cbv; discriminate.
Defined.

Lemma decode_catches_database_errors_witness :
  let type := Sample.scalar_type TEXTOID in
  let lost := DatumToasted (inl "missing chunk number 0 for toast value"%string) in
  reads_varlena Sample.cfg_float_timestamp (typid type) = true
  /\ ToScalarValue Sample.cfg_float_timestamp Sample.pg_ascii Sample.js lost
       false type
     = Raise (ereport_ERROR "missing chunk number 0 for toast value")
  /\ ~ uncaught (ToScalarValue Sample.cfg_float_timestamp Sample.pg_ascii
                   Sample.js (DatumVarlena (bytes_of_string Sample.snowman))
                   false type).
Proof.
  assert (Hnum : typid (Sample.scalar_type TEXTOID) <> NUMERICOID)
    by (cbv; discriminate).
  destruct (decode_catches_database_errors Sample.cfg_float_timestamp
              Sample.pg_ascii Sample.js false (Sample.scalar_type TEXTOID)
              Hnum (fun _ _ => eq_refl))
    as [Honly Hfetch].
  split; [reflexivity |]. split.
  - exact (Hfetch _ eq_refl).
  - intros Hraw. destruct (Honly _ Hraw) as [_ [msg Hmsg]]. discriminate Hmsg.
Defined.

Lemma TimeAs8601_whole_second_witness :
  Z.abs 1000000000 <= 8640000000000
  /\ TimeAs8601 Demo.pg (Cnum.double_of_Z (1000 * 1000000000))
     = Ok "2001-09-09T01:46:40.000Z"%string.
Proof.
  split; [cbv; discriminate |].
  apply (TimeAs8601_whole_second Demo.pg 1000000000). cbv. discriminate.
Defined.

(** *** Jsonb trees read as values (JsonbIterate, ConvertJsonb) *)

Lemma jsonb_tokens_array (elems : list JsonbValue) :
  jsonb_tokens (jbvArray elems)
  = (WJB_BEGIN_ARRAY, jbvNull)
      :: List.concat (List.map element_tokens elems) ++ [(WJB_END_ARRAY, jbvNull)].
Proof. reflexivity. Qed.

Lemma jsonb_tokens_object (pairs : list (string * JsonbValue)) :
  jsonb_tokens (jbvObject pairs)
  = (WJB_BEGIN_OBJECT, jbvNull)
      :: List.concat (List.map pair_tokens pairs) ++ [(WJB_END_OBJECT, jbvNull)].
Proof.
  cbn [jsonb_tokens].
  erewrite (map_ext _ pair_tokens); [reflexivity |].
  intros [k v]. destruct v; reflexivity.
Qed.

Lemma set_nth_length (l : list Value) (v : Value) :
  set_nth l (List.length l) v = l ++ [v].
Proof. induction l as [| x rest IH]; simpl; [reflexivity | rewrite IH; reflexivity]. Qed.

Lemma Set_index_append (acc : list Value) (v : Value) :
  Set_index (VArray acc) (Z.of_nat (List.length acc)) v = Ok (VArray (acc ++ [v])).
Proof. unfold Set_index. rewrite Nat2Z.id, set_nth_length. reflexivity. Qed.

Section JsonbDecodeProofs.

Variable pg : Host.

Lemma jsonb_value_array (elems : list JsonbValue) :
  jsonb_value pg (jbvArray elems)
  = (vs <- mapM (jsonb_value pg) elems ;; Ok (VArray vs)).
Proof. reflexivity. Qed.

Lemma jsonb_value_object (pairs : list (string * JsonbValue)) :
  jsonb_value pg (jbvObject pairs)
  = (props <- foldM (member pg) pairs [] ;; Ok (VObject props)).
Proof. reflexivity. Qed.

Ltac shorter :=
  repeat rewrite ?length_app, ?length_cons in *; cbn [List.length] in *; lia.

Lemma JsonbIterate_loop_members (fuel : nat) :
  (forall (elems : list JsonbValue) (acc : list Value) (key : option Value)
          (rest : list (JsonbIteratorToken * JsonbValue)) (x : JsonbValue),
      (List.length (List.concat (List.map element_tokens elems)
                      ++ (WJB_END_ARRAY, x) :: rest) < fuel)%nat ->
      JsonbIterate_loop pg fuel
        (List.concat (List.map element_tokens elems) ++ (WJB_END_ARRAY, x) :: rest)
        (VArray acc) (Z.of_nat (List.length acc)) key
      = (vs <- mapM (jsonb_value pg) elems ;; Ok (VArray (acc ++ vs), rest)))
  /\ (forall (pairs : list (string * JsonbValue)) (props : list (string * Value))
             (count : Z) (key : option Value)
             (rest : list (JsonbIteratorToken * JsonbValue)) (x : JsonbValue),
         (List.length (List.concat (List.map pair_tokens pairs)
                         ++ (WJB_END_OBJECT, x) :: rest) < fuel)%nat ->
         JsonbIterate_loop pg fuel
           (List.concat (List.map pair_tokens pairs) ++ (WJB_END_OBJECT, x) :: rest)
           (VObject props) count key
         = (props' <- foldM (member pg) pairs props ;; Ok (VObject props', rest)))
  /\ (forall (k : string) (v : JsonbValue) (pairs : list (string * JsonbValue))
             (props : list (string * Value)) (count : Z)
             (rest : list (JsonbIteratorToken * JsonbValue)) (x : JsonbValue),
         (List.length (value_tokens v ++ List.concat (List.map pair_tokens pairs)
                         ++ (WJB_END_OBJECT, x) :: rest) < fuel)%nat ->
         JsonbIterate_loop pg fuel
           (value_tokens v ++ List.concat (List.map pair_tokens pairs)
              ++ (WJB_END_OBJECT, x) :: rest)
           (VObject props) count (Some (VString (c_str k)))
         = (props' <- foldM (member pg) ((k, v) :: pairs) props ;;
            Ok (VObject props', rest))).
Proof.
  induction fuel as [| fuel (IHA & IHO & IHV)].
  - repeat split; intros; exfalso; lia.
  - split; [| split].
    + intros elems acc key rest x Hlen.
      destruct elems as [| e es].
      * cbn. rewrite app_nil_r. reflexivity.
      * cbn [List.map List.concat] in *. rewrite <- app_assoc in *.
        rewrite mapM_cons.
        assert (Next : forall v : Value,
                   JsonbIterate_loop pg fuel
                     (List.concat (List.map element_tokens es)
                        ++ (WJB_END_ARRAY, x) :: rest)
                     (VArray (acc ++ [v])) (Z.of_nat (List.length acc) + 1) key
                   = (bs <- mapM (jsonb_value pg) es ;;
                      Ok (VArray (acc ++ v :: bs), rest))).
        { intros v.
          replace (Z.of_nat (List.length acc) + 1)
            with (Z.of_nat (List.length (acc ++ [v])))
            by (rewrite length_app; cbn [List.length]; lia).
          rewrite IHA.
          - destruct (mapM (jsonb_value pg) es) as [err | bs]; [reflexivity |].
            cbn. rewrite <- app_assoc. reflexivity.
          - destruct e; cbn [element_tokens] in Hlen;
              rewrite ?jsonb_tokens_array, ?jsonb_tokens_object in Hlen; shorter. }
        destruct e as [| s | n | b | elems' | pairs'].
        1-4: cbn [element_tokens app JsonbIterate_loop jsonb_value GetJsonbValue];
          try (destruct (numeric_float8 pg n) as [err | d]; [reflexivity |]);
          rewrite ?bind_Ok, Set_index_append, bind_Ok, Next, ?bind_assoc;
          reflexivity.
        -- cbn [element_tokens] in *. rewrite jsonb_tokens_array in *.
           cbn [app] in *. rewrite <- app_assoc in *. cbn [app] in *.
           cbn [JsonbIterate_loop].
           rewrite (IHA elems' [] None) by shorter.
           rewrite jsonb_value_array, !bind_assoc.
           destruct (mapM (jsonb_value pg) elems') as [err | vs']; [reflexivity |].
           rewrite !bind_Ok. cbn [app IsArray fst snd].
           rewrite Set_index_append, bind_Ok. rewrite Next, ?bind_assoc.
           reflexivity.
        -- cbn [element_tokens] in *. rewrite jsonb_tokens_object in *.
           cbn [app] in *. rewrite <- app_assoc in *. cbn [app] in *.
           cbn [JsonbIterate_loop].
           rewrite (IHO pairs' [] 0 None) by shorter.
           rewrite jsonb_value_object, !bind_assoc.
           destruct (foldM (member pg) pairs' []) as [err | props']; [reflexivity |].
           rewrite !bind_Ok. cbn [app IsArray fst snd].
           rewrite Set_index_append, bind_Ok. rewrite Next, ?bind_assoc.
           reflexivity.
    + intros pairs props count key rest x Hlen.
      destruct pairs as [| [k v] ps].
      * cbn. reflexivity.
      * cbn [List.map List.concat] in *.
        change (pair_tokens (k, v))
          with ((WJB_KEY, jbvString k) :: value_tokens v) in *.
        cbn [app] in *. rewrite <- app_assoc in *.
        cbn [JsonbIterate_loop GetJsonbValue]. rewrite ?bind_Ok.
        apply IHV. shorter.
    + intros k v pairs props count rest x Hlen.
      rewrite foldM_cons. cbn [member].
      assert (Next : forall w : Value,
                 JsonbIterate_loop pg fuel
                   (List.concat (List.map pair_tokens pairs)
                      ++ (WJB_END_OBJECT, x) :: rest)
                   (VObject (set_prop props (c_str k) w)) count
                   (Some (VString (c_str k)))
                 = (props' <- foldM (member pg) pairs
                                (set_prop props (c_str k) w) ;;
                    Ok (VObject props', rest))).
      { intros w. apply IHO.
        destruct v; cbn [value_tokens] in Hlen;
          rewrite ?jsonb_tokens_array, ?jsonb_tokens_object in Hlen; shorter. }
      destruct v as [| s | n | b | elems' | pairs'].
      1-4: cbn [value_tokens app JsonbIterate_loop jsonb_value GetJsonbValue];
        try (destruct (numeric_float8 pg n) as [err | d]; [reflexivity |]);
        rewrite ?bind_Ok; cbn [Set_key]; rewrite bind_Ok, Next; reflexivity.
      * cbn [value_tokens] in *. rewrite jsonb_tokens_array in *.
        cbn [app] in *. rewrite <- app_assoc in *. cbn [app] in *.
        cbn [JsonbIterate_loop].
        rewrite (IHA elems' [] None) by shorter.
        rewrite jsonb_value_array, !bind_assoc.
        destruct (mapM (jsonb_value pg) elems') as [err | vs']; [reflexivity |].
        rewrite !bind_Ok. cbn [app IsArray fst snd Set_key].
        rewrite bind_Ok. rewrite Next. reflexivity.
      * cbn [value_tokens] in *. rewrite jsonb_tokens_object in *.
        cbn [app] in *. rewrite <- app_assoc in *. cbn [app] in *.
        cbn [JsonbIterate_loop].
        rewrite (IHO pairs' [] 0 None) by shorter.
        rewrite jsonb_value_object, !bind_assoc.
        destruct (foldM (member pg) pairs' []) as [err | props']; [reflexivity |].
        rewrite !bind_Ok. cbn [app IsArray fst snd Set_key].
        rewrite bind_Ok. rewrite Next. reflexivity.
Qed.

(** The loop of [JsonbIterate], run over the tokens of an array or of
    an object, builds the value the container stands for. *)
Lemma ConvertJsonb_array (elems : list JsonbValue) :
  ConvertJsonb pg (jbvArray elems) = jsonb_value pg (jbvArray elems).
Proof.
  unfold ConvertJsonb. rewrite jsonb_tokens_array.
  destruct (JsonbIterate_loop_members
              (S (List.length (List.concat (List.map element_tokens elems)
                                 ++ [(WJB_END_ARRAY, jbvNull)])))) as (HA & _).
  pose proof (HA elems [] None [] jbvNull ltac:(lia)) as E.
  change (Z.of_nat (List.length (@nil Value))) with 0 in E.
  cbv beta iota zeta. rewrite E.
  rewrite jsonb_value_array, bind_assoc.
  destruct (mapM (jsonb_value pg) elems); reflexivity.
Qed.

Lemma ConvertJsonb_object (pairs : list (string * JsonbValue)) :
  ConvertJsonb pg (jbvObject pairs) = jsonb_value pg (jbvObject pairs).
Proof.
  unfold ConvertJsonb. rewrite jsonb_tokens_object.
  destruct (JsonbIterate_loop_members
              (S (List.length (List.concat (List.map pair_tokens pairs)
                                 ++ [(WJB_END_OBJECT, jbvNull)])))) as (_ & HO & _).
  cbv beta iota zeta. rewrite (HO pairs [] 0 None [] jbvNull) by lia.
  rewrite jsonb_value_object, bind_assoc.
  destruct (foldM (member pg) pairs []); reflexivity.
Qed.

(** X25. The value [ConvertJsonb] builds from the tokens of a tree is
    the value the tree stands for by its structure: the elements of an
    array in their order; the members of an object given to the
    engine's [Set] in the order of the tree, so that a member named
    ["__proto__"] makes no property and the array indices come first;
    every scalar through [GetJsonbValue]; and the first error of a
    scalar as the error of the whole. A scalar at the root is iterated
    as an array of one element and comes out as that array, not as the
    scalar. *)
Theorem ConvertJsonb_by_structure (root : JsonbValue) :
  ConvertJsonb pg root
  = jsonb_value pg match root with
                   | jbvArray _ | jbvObject _ => root
                   | scalar => jbvArray [scalar]
                   end.
Proof.
  destruct root as [| s | n | b | elems | pairs].
  - rewrite <- ConvertJsonb_array. reflexivity.
  - rewrite <- ConvertJsonb_array. reflexivity.
  - rewrite <- ConvertJsonb_array. reflexivity.
  - rewrite <- ConvertJsonb_array. reflexivity.
  - apply ConvertJsonb_array.
  - apply ConvertJsonb_object.
Qed.

End JsonbDecodeProofs.

(** *** Values written as Jsonb trees (ConvertObject and its walkers) *)

(** Induction on a value with the elements of its arrays and the
    values of its properties. *)
Lemma Value_nested_ind (P : Value -> Prop) :
  (forall v : Value,
      match v with VArray _ | VObject _ => False | _ => True end -> P v) ->
  (forall a : list Value, Forall P a -> P (VArray a)) ->
  (forall props : list (string * Value),
      Forall (fun p => P (snd p)) props -> P (VObject props)) ->
  forall v : Value, P v.
Proof.
  intros Hs Ha Ho. fix IH 1.
  intros [| | b | d | n | s | y | d | k c i | c | a | props | f];
    try (apply Hs; exact I).
  - apply Ha.
    exact ((fix go (l : list Value) : Forall P l :=
              match l with
              | [] => Forall_nil P
              | x :: r => Forall_cons x (IH x) (go r)
              end) a).
  - apply Ho.
    exact ((fix go (l : list (string * Value))
            : Forall (fun p => P (snd p)) l :=
              match l with
              | [] => Forall_nil _
              | x :: r => Forall_cons x (IH (snd x)) (go r)
              end) props).
Qed.

Section JsonbEncodeProofs.

Variable pg : Host.
Variable js : Engine.

Lemma JsonbArrayFromArray_VArray (pstate : JsonbParseState) (a : list Value) :
  JsonbArrayFromArray pg js pstate (VArray a)
  = ('(pstate, _) <- pushJsonbValue pstate WJB_BEGIN_ARRAY None ;;
     pstate <- foldM (array_element pg js) a pstate ;;
     pushJsonbValue pstate WJB_END_ARRAY None).
Proof. reflexivity. Qed.

Lemma JsonbFromValue_push (pstate : JsonbParseState) (value : Value)
  (type : JsonbIteratorToken) :
  type <> WJB_KEY ->
  JsonbFromValue pg js pstate value type
  = (val <- JsonbFromValue_val pg js value ;;
     match val with
     | Some v => pushJsonbValue pstate type (Some v)
     | None => Ok (pstate, None)
     end).
Proof.
  intros Ht. unfold JsonbFromValue, JsonbFromValue_val.
  destruct type; try (exfalso; apply Ht; reflexivity);
    repeat match goal with
           | |- context [if ?c then _ else _] => destruct c
           end;
    rewrite ?bind_assoc; try reflexivity;
    (destruct (TimeAs8601 pg (NumberValue value)) as [e | buf];
     [reflexivity | rewrite !bind_Ok, ?bind_assoc; reflexivity]).
Qed.

Lemma jsonb_of_value_VObject (as_property : bool)
  (props : list (string * Value)) :
  jsonb_of_value pg js as_property (VObject props)
  = (pairs <- mapM (jsonb_of_property pg js) props ;;
     Ok (Some (jbvObject (uniqueifyJsonbObject (present_pairs pairs))))).
Proof. reflexivity. Qed.

Lemma jsonb_of_value_VArray (as_property : bool) (a : list Value) :
  jsonb_of_value pg js as_property (VArray a)
  = (elems <- mapM (jsonb_of_value pg js false) a ;;
     Ok (Some (jbvArray (present elems)))).
Proof. reflexivity. Qed.

Lemma jbvString_of_is_string (str : option string) (len : nat)
  (val : JsonbValue) :
  jbvString_of str len = Ok val -> val = jbvString (key_of val).
Proof.
  unfold jbvString_of. destruct str as [s |].
  - destruct (len <=? String.length s)%nat;
      [intros H; inversion H; reflexivity |].
    destruct (len =? S (String.length s))%nat; intros H; inversion H.
    reflexivity.
  - destruct (len =? 0)%nat; intros H; inversion H. reflexivity.
Qed.

Lemma jbvString_of_value_is_string (value : Value) (val : JsonbValue) :
  jbvString_of_value pg js value = Ok val -> val = jbvString (key_of val).
Proof.
  unfold jbvString_of_value.
  destruct (ToCStringCopy pg (Utf8Value js value)) as [e | str];
    [discriminate |].
  rewrite bind_Ok. apply jbvString_of_is_string.
Qed.

Lemma array_element_step (o : Value) (acc : list JsonbValue)
  (next : JsonbParseState) :
  has_typed_array o = false ->
  walkers_agree pg js o ->
  array_element pg js (ArrayUnderway acc :: next) o
  = (x <- jsonb_of_value pg js false o ;;
     Ok (ArrayUnderway (acc ++ present [x]) :: next)).
Proof.
  intros Hta Hw. unfold array_element.
  destruct o as [| | b | d | n | s | y | d | k c i | c | a | props | f];
    try discriminate Hta;
    cbn [IsArray IsObject];
    try (rewrite JsonbFromValue_push by discriminate;
         cbn [jsonb_of_value]; rewrite !bind_assoc;
         destruct (JsonbFromValue_val pg js _) as [e | [v |]];
         [reflexivity | | cbn; rewrite app_nil_r; reflexivity];
         reflexivity);
    try reflexivity.
  - rewrite (Hw (ArrayUnderway acc :: next)), jsonb_of_value_VArray, !bind_assoc.
    destruct (mapM (jsonb_of_value pg js false) a); reflexivity.
  - rewrite (Hw (ArrayUnderway acc :: next)), jsonb_of_value_VObject, !bind_assoc.
    destruct (mapM (jsonb_of_property pg js) props); reflexivity.
Qed.

Lemma JsonbFromValue_KEY (pstate : JsonbParseState) (value : Value) :
  JsonbFromValue pg js pstate value WJB_KEY
  = (val <- jbvString_of_value pg js value ;;
     pushJsonbValue pstate WJB_KEY (Some val)).
Proof. reflexivity. Qed.

Lemma object_property_step (k : string) (o : Value)
  (acc : list (string * JsonbValue)) (key : option string)
  (next : JsonbParseState) :
  has_typed_array o = false ->
  walkers_agree pg js o ->
  object_property pg js (ObjectUnderway acc key :: next) (k, o)
  = (p <- jsonb_of_property pg js (k, o) ;;
     Ok (match snd p with
         | Some j => ObjectUnderway (acc ++ [(fst p, j)]) None :: next
         | None => ObjectUnderway acc (Some (fst p)) :: next
         end)).
Proof.
  intros Hta Hw. unfold object_property, jsonb_of_property. cbn [fst snd].
  rewrite JsonbFromValue_KEY, !bind_assoc.
  destruct (jbvString_of_value pg js (VString k)) as [e | keyv] eqn:Hkey;
    [reflexivity |].
  pose proof (jbvString_of_value_is_string _ _ Hkey) as E.
  destruct keyv as [| s | | | |]; try discriminate E. clear E.
  cbn [key_of]. rewrite !bind_Ok.
  cbn [pushJsonbValue appendKey]. rewrite !bind_Ok.
  destruct o as [| | b | d | n | y | y | d | kd c i | c | a | props | f];
    try discriminate Hta;
    cbn [IsDate IsArray IsObject];
    try (rewrite JsonbFromValue_push by discriminate;
         cbn [jsonb_of_value]; rewrite !bind_assoc;
         destruct (JsonbFromValue_val pg js _) as [e | [v |]];
         reflexivity);
    try reflexivity.
  - rewrite (Hw (ObjectUnderway acc (Some s) :: next)), jsonb_of_value_VArray,
      !bind_assoc.
    destruct (mapM (jsonb_of_value pg js false) a); reflexivity.
  - rewrite (Hw (ObjectUnderway acc (Some s) :: next)), jsonb_of_value_VObject,
      !bind_assoc.
    destruct (mapM (jsonb_of_property pg js) props); reflexivity.
Qed.

Lemma walkers_by_structure (o : Value) :
  has_typed_array o = false -> walkers_agree pg js o.
Proof.
  induction o as [v Hv | a IH | props IH] using Value_nested_ind; intros Hta.
  - unfold walkers_agree. intros pstate. destruct v; try exact I; contradiction.
  - intros pstate. rewrite JsonbArrayFromArray_VArray.
    cbn [pushJsonbValue]. rewrite bind_Ok.
    cbn [has_typed_array] in Hta.
    assert (L : forall acc : list JsonbValue,
               foldM (array_element pg js) a (ArrayUnderway acc :: pstate)
               = (elems <- mapM (jsonb_of_value pg js false) a ;;
                  Ok (ArrayUnderway (acc ++ present elems) :: pstate))).
    { induction a as [| o rest IHrest]; intros acc.
      - cbn. rewrite app_nil_r. reflexivity.
      - cbn [existsb] in Hta. apply orb_false_iff in Hta. destruct Hta as [Ho Hrest].
        inversion IH as [| ? ? Po Prest]; subst.
        rewrite foldM_cons, mapM_cons, (array_element_step o acc pstate Ho (Po Ho)).
        rewrite !bind_assoc.
        destruct (jsonb_of_value pg js false o) as [e | x]; [reflexivity |].
        rewrite !bind_Ok, (IHrest Prest Hrest), !bind_assoc.
        destruct (mapM (jsonb_of_value pg js false) rest) as [e | xs];
          [reflexivity |].
        destruct x; unfold Ok, present; cbn [bind flat_map app];
          rewrite <- ?app_assoc, ?app_nil_r; reflexivity. }
    rewrite (L []), !bind_assoc.
    destruct (mapM (jsonb_of_value pg js false) a); reflexivity.
  - intros pstate. rewrite JsonbObjectFromObject_VObject.
    cbn [pushJsonbValue]. rewrite bind_Ok.
    cbn [has_typed_array] in Hta.
    assert (L : forall (acc : list (string * JsonbValue)) (key : option string),
               (st <- foldM (object_property pg js) props
                        (ObjectUnderway acc key :: pstate) ;;
                pushJsonbValue st WJB_END_OBJECT None)
               = (pairs <- mapM (jsonb_of_property pg js) props ;;
                  closeContainer
                    (jbvObject (uniqueifyJsonbObject (acc ++ present_pairs pairs)))
                    pstate)).
    { induction props as [| [k o] rest IHrest]; intros acc key.
      - cbn. rewrite app_nil_r. reflexivity.
      - cbn [existsb snd] in Hta. apply orb_false_iff in Hta.
        destruct Hta as [Ho Hrest].
        inversion IH as [| ? ? Po Prest]; subst. cbn [snd] in Po.
        rewrite foldM_cons, mapM_cons,
          (object_property_step k o acc key pstate Ho (Po Ho)).
        rewrite !bind_assoc.
        destruct (jsonb_of_property pg js (k, o)) as [e | [s x]]; [reflexivity |].
        rewrite !bind_Ok. cbn [fst snd].
        destruct x as [j |]; rewrite (IHrest Prest Hrest), !bind_assoc;
          destruct (mapM (jsonb_of_property pg js) rest) as [e | ps];
          try reflexivity;
          unfold Ok, present_pairs; cbn [bind flat_map fst snd app];
          rewrite <- ?app_assoc; reflexivity. }
    apply (L [] None).
Qed.

(** [ConvertObject] on an Array, on an Object, and on a value that is
    neither. *)
Lemma ConvertObject_VArray (a : list Value) :
  has_typed_array (VArray a) = false ->
  ConvertObject pg js (VArray a)
  = (elems <- mapM (jsonb_of_value pg js false) a ;;
     Ok (jbvArray (present elems))).
Proof.
  intros Hta. unfold ConvertObject. cbn [IsArray].
  rewrite (walkers_by_structure (VArray a) Hta []), !bind_assoc.
  destruct (mapM (jsonb_of_value pg js false) a); reflexivity.
Qed.

Lemma ConvertObject_VObject (props : list (string * Value)) :
  has_typed_array (VObject props) = false ->
  ConvertObject pg js (VObject props)
  = (pairs <- mapM (jsonb_of_property pg js) props ;;
     Ok (jbvObject (uniqueifyJsonbObject (present_pairs pairs)))).
Proof.
  intros Hta. unfold ConvertObject. cbn [IsArray IsObject].
  rewrite (walkers_by_structure (VObject props) Hta []), !bind_assoc.
  destruct (mapM (jsonb_of_property pg js) props); reflexivity.
Qed.

Lemma ConvertObject_scalar (v : Value) :
  IsArray v || IsObject v = false ->
  ConvertObject pg js v
  = (val <- JsonbFromValue_val pg js v ;; Ok (jbvArray (present [val]))).
Proof.
  intros Hs. unfold ConvertObject.
  apply orb_false_iff in Hs. destruct Hs as [Ha Ho]. rewrite Ha, Ho.
  change (pushJsonbValue [] WJB_BEGIN_ARRAY None)
    with (Ok (A := JsonbParseState * option JsonbValue)
            ([ArrayUnderway []], Some (jbvArray []))).
  rewrite !bind_Ok, JsonbFromValue_push by discriminate.
  rewrite !bind_assoc.
  destruct (JsonbFromValue_val pg js v) as [e | [j |]]; reflexivity.
Qed.

(** X22. The tree [ConvertObject] builds for a value without typed
    arrays is the tree of the value by its structure: the elements of
    an array in their order and the properties of an object sorted and
    made unique by key, those that are Undefined left out; every
    scalar as [JsonbFromValue] writes it, a Date that is the value of
    a property among them (the 24 bytes found where [TimeAs8601]
    printed its text); any other Date, like a Function or an
    ArrayBuffer, as an empty object. The first error of a member is
    the error of the whole. A value that is neither an Array nor an
    Object is written as an array of that one element. *)
Theorem ConvertObject_by_structure (object : Value) :
  has_typed_array object = false ->
  ConvertObject pg js object
  = (x <- jsonb_of_value pg js false
            (if IsArray object || IsObject object then object
             else VArray [object]) ;;
     match x with
     | Some root => Ok root
     | None => Raise (undefined_behaviour "JsonbValueToJsonb(NULL)")
     end).
Proof.
  intros Hta.
  destruct (IsArray object || IsObject object) eqn:Hs.
  - destruct object as [| | b | d | n | s | y | d | k c i | c | a | props | f];
      try discriminate Hs; try discriminate Hta.
    + reflexivity.
    + reflexivity.
    + rewrite (ConvertObject_VArray a Hta), jsonb_of_value_VArray, bind_assoc.
      destruct (mapM (jsonb_of_value pg js false) a); reflexivity.
    + rewrite (ConvertObject_VObject props Hta), jsonb_of_value_VObject,
        bind_assoc.
      destruct (mapM (jsonb_of_property pg js) props); reflexivity.
    + reflexivity.
  - rewrite (ConvertObject_scalar object Hs), jsonb_of_value_VArray.
    cbn [mapM]. rewrite !bind_assoc.
    assert (E : jsonb_of_value pg js false object
                = JsonbFromValue_val pg js object)
      by (destruct object; try discriminate Hs; reflexivity).
    rewrite E.
    destruct (JsonbFromValue_val pg js object) as [e | val]; reflexivity.
Qed.

End JsonbEncodeProofs.

Lemma ConvertObject_by_structure_witness :
  ConvertObject Sample.pg Sample.js
    (VArray [VUndefined; VBoolean true;
             VObject [("b"%string, VNull); ("a"%string, VUndefined)]])
  = Ok (jbvArray [jbvBool true; jbvObject [("b"%string, jbvNull)]]).
Proof.
  rewrite (ConvertObject_by_structure Sample.pg Sample.js
             (VArray [VUndefined; VBoolean true;
                      VObject [("b"%string, VNull); ("a"%string, VUndefined)]])
             eq_refl).
  reflexivity.
Defined.

(** *** What the walkers leave out and what comes back *)

Section JsonbMoreProofs.

Variable pg : Host.
Variable js : Engine.

Lemma array_element_undefined (pstate : JsonbParseState) :
  array_element pg js pstate VUndefined = Ok pstate.
Proof. reflexivity. Qed.

Lemma foldM_defined_elements (a : list Value) (pstate : JsonbParseState) :
  foldM (array_element pg js) (defined_elements a) pstate
  = foldM (array_element pg js) a pstate.
Proof.
  revert pstate. induction a as [| o rest IH]; intros pstate; [reflexivity |].
  unfold defined_elements. cbn [filter]. fold (defined_elements rest).
  destruct (IsUndefined o) eqn:Hu; cbn [negb].
  - apply IsUndefined_true in Hu. subst o.
    rewrite foldM_cons, array_element_undefined, bind_Ok. apply IH.
  - rewrite !foldM_cons.
    destruct (array_element pg js pstate o) as [e | st]; [reflexivity |].
    rewrite !bind_Ok. apply IH.
Qed.

(** X23. An element of an Array that is Undefined is left out of the
    tree, in every Array the walker comes to and at the top: the
    elements after it move up, and the array that is stored is as much
    shorter. *)
Theorem undefined_elements_are_dropped (a : list Value) :
  (forall pstate : JsonbParseState,
      JsonbArrayFromArray pg js pstate (VArray a)
      = JsonbArrayFromArray pg js pstate (VArray (defined_elements a)))
  /\ ConvertObject pg js (VArray a)
     = ConvertObject pg js (VArray (defined_elements a))
  /\ (List.length (defined_elements a) <= List.length a)%nat.
Proof.
  assert (W : forall pstate : JsonbParseState,
             JsonbArrayFromArray pg js pstate (VArray a)
             = JsonbArrayFromArray pg js pstate (VArray (defined_elements a))).
  { intros pstate. rewrite !JsonbArrayFromArray_VArray.
    destruct (pushJsonbValue pstate WJB_BEGIN_ARRAY None) as [e | [st r]];
      [reflexivity |].
    rewrite !bind_Ok. rewrite foldM_defined_elements. reflexivity. }
  split; [exact W | split].
  - unfold ConvertObject. cbn [IsArray]. rewrite W. reflexivity.
  - apply filter_length_le.
Qed.

Lemma array_element_Date (pstate : JsonbParseState) (t : float) :
  array_element pg js pstate (VDate t) = array_element pg js pstate (VObject []).
Proof. reflexivity. Qed.

(** X24. A Date that is an element of an Array, or the value to
    convert itself, is walked as an object and has no property to
    show: it is written as the empty object, whatever its time value
    (a Date that is the value of a property is written by
    [JsonbFromValue], as its text). *)
Theorem date_in_array_is_empty_object (t : float) :
  (forall a b : list Value,
      ConvertObject pg js (VArray (a ++ VDate t :: b))
      = ConvertObject pg js (VArray (a ++ VObject [] :: b)))
  /\ ConvertObject pg js (VDate t) = Ok (jbvObject [])
  /\ ConvertObject pg js (VArray [VDate t]) = Ok (jbvArray [jbvObject []]).
Proof.
  assert (W : forall (a b : list Value) (pstate : JsonbParseState),
             JsonbArrayFromArray pg js pstate (VArray (a ++ VDate t :: b))
             = JsonbArrayFromArray pg js pstate (VArray (a ++ VObject [] :: b))).
  { intros a b pstate. rewrite !JsonbArrayFromArray_VArray.
    destruct (pushJsonbValue pstate WJB_BEGIN_ARRAY None) as [e | [st r]];
      [reflexivity |].
    rewrite !bind_Ok, !foldM_app.
    destruct (foldM (array_element pg js) a st) as [e | st']; [reflexivity |].
    rewrite !bind_Ok, !foldM_cons, array_element_Date. reflexivity. }
  split; [| split].
  - intros a b. unfold ConvertObject. cbn [IsArray]. rewrite W. reflexivity.
  - reflexivity.
  - reflexivity.
Qed.

End JsonbMoreProofs.

Lemma substring_whole (s : string) : String.substring 0 (String.length s) s = s.
Proof. induction s as [| c s IH]; [reflexivity |]. cbn. rewrite IH. reflexivity. Qed.

Lemma lengthCompare_refl (k : string) : lengthCompareJsonbStringValue k k = Eq.
Proof.
  unfold lengthCompareJsonbStringValue. rewrite Nat.compare_refl.
  pose proof (String.compare_antisym k k) as H.
  destruct (String.compare k k); try reflexivity; discriminate H.
Qed.

Lemma keys_ascending_app (acc : list string) (k : string) (rest : list string) :
  keys_ascending (acc ++ k :: rest) = true ->
  Forall (fun q => lengthCompareJsonbStringValue k q = Gt) acc.
Proof.
  induction acc as [| a acc IH]; intros H; [constructor |].
  cbn [app keys_ascending] in H. apply andb_true_iff in H. destruct H as [Ha Hr].
  constructor; [| apply IH; exact Hr].
  rewrite forallb_forall in Ha.
  specialize (Ha k ltac:(apply in_or_app; right; left; reflexivity)).
  destruct (lengthCompareJsonbStringValue k a); try discriminate Ha; reflexivity.
Qed.

Lemma insert_pair_last (p : string * JsonbValue)
  (sorted : list (string * JsonbValue)) :
  Forall (fun q => lengthCompareJsonbStringValue (fst p) q = Gt)
    (List.map fst sorted) ->
  insert_pair p sorted = sorted ++ [p].
Proof.
  induction sorted as [| q rest IH]; intros H; [reflexivity |].
  cbn [List.map] in H. inversion H as [| ? ? Hq Hrest]; subst.
  cbn [insert_pair app]. rewrite Hq, (IH Hrest). reflexivity.
Qed.

Lemma uniqueifyJsonbObject_ascending (pairs : list (string * JsonbValue)) :
  keys_ascending (List.map fst pairs) = true ->
  uniqueifyJsonbObject pairs = pairs.
Proof.
  unfold uniqueifyJsonbObject.
  assert (G : forall acc : list (string * JsonbValue),
             keys_ascending (List.map fst (acc ++ pairs)) = true ->
             fold_left (fun sorted p => insert_pair p sorted) pairs acc
             = acc ++ pairs).
  { induction pairs as [| p rest IH]; intros acc H.
    - cbn. rewrite app_nil_r. reflexivity.
    - cbn [fold_left]. rewrite insert_pair_last.
      + rewrite IH; rewrite <- app_assoc; [reflexivity | exact H].
      + rewrite map_app in H. cbn [List.map] in H.
        apply (keys_ascending_app _ _ _ H). }
  intros H. apply (G [] H).
Qed.

Lemma c_str_no_nul (s : string) : no_nul s = true -> c_str s = s.
Proof. unfold no_nul. intros H. apply String.eqb_eq. exact H. Qed.

Lemma plain_key_inv (k : string) :
  plain_key k = true ->
  c_str k = k /\ String.eqb k "__proto__" = false /\ array_index k = None.
Proof.
  unfold plain_key. intros H.
  apply andb_true_iff in H. destruct H as [H Hi].
  apply andb_true_iff in H. destruct H as [Hn Hp].
  split; [apply c_str_no_nul; exact Hn | split].
  - apply negb_true_iff. exact Hp.
  - destruct (array_index k); [discriminate Hi | reflexivity].
Qed.

(** A name that is new to the object and is neither ["__proto__"] nor
    an array index is put last. *)
Lemma set_prop_last (props : list (string * Value)) (k : string) (v : Value) :
  Forall (fun q => lengthCompareJsonbStringValue k q = Gt) (List.map fst props) ->
  String.eqb k "__proto__" = false -> array_index k = None ->
  set_prop props k v = props ++ [(k, v)].
Proof.
  intros H Hp Hi. unfold set_prop.
  assert (E : existsb (fun p => String.eqb k (fst p)) props = false).
  { induction props as [| [k' v'] rest IH]; [reflexivity |].
    cbn [List.map fst] in H. inversion H as [| ? ? Hq Hrest]; subst.
    cbn [existsb fst]. rewrite (IH Hrest), orb_false_r.
    destruct (String.eqb_spec k k') as [-> | Hne]; [| reflexivity].
    rewrite lengthCompare_refl in Hq. discriminate Hq. }
  rewrite E, Hp, Hi. reflexivity.
Qed.

Lemma SFeqb_finite_inv (x : spec_float) (s : bool) (m : positive) (e : Z) :
  SFeqb x (S754_finite s m e) = true -> x = S754_finite s m e.
Proof.
  unfold SFeqb, SFcompare.
  destruct x as [s0 | s0 | | s0 m0 e0]; try destruct s0; try destruct s;
    try discriminate.
  - destruct (Z.compare_spec e0 e) as [-> | |]; try discriminate.
    intros H. destruct (Pos.compare_cont Eq m0 m) eqn:C; try discriminate H.
    apply Pcompare_Eq_eq in C. subst. reflexivity.
  - destruct (Z.compare_spec e0 e) as [-> | |]; try discriminate.
    intros H. destruct (Pos.compare_cont Eq m0 m) eqn:C; try discriminate H.
    apply Pcompare_Eq_eq in C. subst. reflexivity.
Qed.

(** A Number that the engine takes for an integer of a range is the
    double of that integer. *)
Lemma is_integral_in_inv (lo hi : Z) (d : float) :
  Cnum.is_integral_in lo hi d = true ->
  - 2 ^ 53 < lo -> hi < 2 ^ 53 ->
  exists z : Z, d = Cnum.double_of_Z z /\ lo <= z <= hi.
Proof.
  unfold Cnum.is_integral_in. intros H Hlo Hhi.
  destruct (Cnum.truncate d) as [z |]; [| discriminate H].
  apply andb_true_iff in H. destruct H as [H Hz2]. apply Z.leb_le in Hz2.
  apply andb_true_iff in H. destruct H as [H Hz1]. apply Z.leb_le in Hz1.
  apply andb_true_iff in H. destruct H as [He Hn].
  exists z. split; [| lia].
  apply Prim2SF_inj. rewrite eqb_spec in He.
  destruct (Z.eq_dec z 0) as [-> | Hne].
  - change (Prim2SF (Cnum.double_of_Z 0)) with (S754_zero false) in *.
    unfold Cnum.is_negative_zero in Hn.
    destruct (Prim2SF d) as [s0 | s0 | | s0 m0 e0]; try destruct s0;
      try discriminate He; try discriminate Hn; reflexivity.
  - destruct (is_float_exists z ltac:(lia)) as (m & e & F & _).
    rewrite (Prim2SF_double_of_Z _ _ _ _ F) in *.
    apply SFeqb_finite_inv. exact He.
Qed.

Section JsonbRoundTrip.

Variable pg : Host.
Variable js : Engine.

(** The engine encodes a String as its text, and the database keeps
    its text in UTF-8, so that no text is changed on the way. *)
Hypothesis Utf8Value_String : forall s : string, Utf8Value js (VString s) = Some s.
Hypothesis conversion_keeps :
  forall s : string,
    pg_do_encoding_conversion pg s PG_UTF8 (GetDatabaseEncoding pg) = Ok s.

(** The database reads the decimal text of a whole number back as the
    double of that number. *)
Hypothesis numeric_reads_back :
  forall z : Z,
    - 2 ^ 31 <= z <= 2 ^ 32 - 1 ->
    numeric_float8 pg (int_numeric z) = Ok (Cnum.double_of_Z z).

Lemma whole_number (d : float) :
  IsInt32 (VNumber d) || IsUint32 (VNumber d) = true ->
  exists z : Z, d = Cnum.double_of_Z z /\ - 2 ^ 31 <= z <= 2 ^ 32 - 1.
Proof.
  intros H. apply orb_true_iff in H. cbn [IsInt32 IsUint32] in H.
  destruct H as [H | H]; apply is_integral_in_inv in H;
    try (unfold Cnum.INT32_MIN, Cnum.INT32_MAX; lia);
    destruct H as (z & -> & Hz); exists z; split; try reflexivity;
    unfold Cnum.INT32_MIN, Cnum.INT32_MAX in *; lia.
Qed.

Lemma JsonbFromValue_val_whole (z : Z) :
  - 2 ^ 31 <= z <= 2 ^ 32 - 1 ->
  JsonbFromValue_val pg js (VNumber (Cnum.double_of_Z z))
  = Ok (Some (jbvNumeric (int_numeric z))).
Proof.
  intros Hz. unfold JsonbFromValue_val.
  cbn [IsBoolean IsNull IsUndefined IsString IsNumber IsInt32 IsUint32].
  rewrite !is_integral_in_double_of_Z by lia.
  unfold Int32Value, Uint32Value. cbn [NumberValue].
  rewrite ToInt32_double_of_Z, ToUint32_double_of_Z by lia.
  unfold Cnum.INT32_MIN, Cnum.INT32_MAX.
  destruct (Z.leb_spec (- 2 ^ 31) z) as [A | A]; [| lia].
  destruct (Z.leb_spec z (2 ^ 31 - 1)) as [B | B]; cbn [andb].
  - rewrite wrap_signed_small by lia. reflexivity.
  - destruct (Z.leb_spec 0 z) as [C | C]; [| lia].
    destruct (Z.leb_spec z (2 ^ 32 - 1)) as [D | D]; [| lia]. cbn [andb].
    unfold Cnum.wrap_unsigned. rewrite Z.mod_small by lia. reflexivity.
Qed.

Lemma jbvString_of_value_String (s : string) :
  no_nul s = true ->
  jbvString_of_value pg js (VString s) = Ok (jbvString s).
Proof.
  intros Hs. unfold jbvString_of_value, ToCStringCopy.
  rewrite Utf8Value_String, (c_str_no_nul s Hs), conversion_keeps.
  unfold PG_TRY, Ok. cbn [bind]. rewrite (c_str_no_nul s Hs).
  unfold jbvString_of. rewrite Nat.leb_refl, substring_whole. reflexivity.
Qed.

Lemma jsonb_of_value_plain (v : Value) :
  plain_json v = true ->
  forall as_property : bool,
    jsonb_of_value pg js as_property v = Ok (Some (plain_tree v)).
Proof.
  induction v as [v Hv | a IH | props IH] using Value_nested_ind;
    intros Ht as_property.
  - destruct v; try discriminate Ht; try contradiction; try reflexivity.
    + cbn [plain_json] in Ht. destruct (whole_number d Ht) as (z & -> & Hz).
      cbn [jsonb_of_value plain_tree].
      rewrite JsonbFromValue_val_whole, IntegerValue_double_of_Z by lia.
      reflexivity.
    + cbn [jsonb_of_value plain_tree]. unfold JsonbFromValue_val.
      cbn [IsBoolean IsNull IsUndefined IsString].
      rewrite jbvString_of_value_String by exact Ht. reflexivity.
  - rewrite jsonb_of_value_VArray. cbn [plain_json plain_tree] in *.
    assert (M : mapM (jsonb_of_value pg js false) a
                = Ok (List.map (fun o => Some (plain_tree o)) a)).
    { induction a as [| o rest IHrest]; [reflexivity |].
      cbn [forallb] in Ht. apply andb_true_iff in Ht. destruct Ht as [Ho Hrest].
      inversion IH as [| ? ? Po Prest]; subst.
      rewrite mapM_cons, (Po Ho false), bind_Ok, (IHrest Prest Hrest).
      reflexivity. }
    rewrite M, bind_Ok. do 3 f_equal.
    unfold present. clear. induction a as [| o rest IHrest]; [reflexivity |].
    cbn [List.map flat_map app]. rewrite IHrest. reflexivity.
  - rewrite jsonb_of_value_VObject. cbn [plain_json plain_tree] in *.
    apply andb_true_iff in Ht. destruct Ht as [Ht Hv].
    apply andb_true_iff in Ht. destruct Ht as [Hp Hk].
    assert (M : mapM (jsonb_of_property pg js) props
                = Ok (List.map (fun p => (fst p, Some (plain_tree (snd p)))) props)).
    { clear Hk. induction props as [| [k o] rest IHrest]; [reflexivity |].
      cbn [forallb snd] in Hv. apply andb_true_iff in Hv. destruct Hv as [Ho Hrest].
      cbn [List.map forallb fst] in Hp. apply andb_true_iff in Hp.
      destruct Hp as [Hkey Hkeys].
      inversion IH as [| ? ? Po Prest]; subst. cbn [snd] in Po.
      rewrite mapM_cons. unfold jsonb_of_property at 1. cbn [fst snd].
      rewrite jbvString_of_value_String, bind_Ok, (Po Ho true), bind_Ok.
      - cbn [key_of]. rewrite bind_Ok, (IHrest Prest Hkeys Hrest). reflexivity.
      - unfold plain_key in Hkey. apply andb_true_iff in Hkey.
        destruct Hkey as [Hkey _]. apply andb_true_iff in Hkey.
        destruct Hkey as [Hkey _]. exact Hkey. }
    rewrite M, bind_Ok. do 3 f_equal.
    assert (P : present_pairs
                  (List.map (fun p => (fst p, Some (plain_tree (snd p)))) props)
                = List.map (fun p => (fst p, plain_tree (snd p))) props).
    { unfold present_pairs. clear.
      induction props as [| p rest IHrest]; [reflexivity |].
      cbn [List.map flat_map app fst snd]. rewrite IHrest. reflexivity. }
    rewrite P. apply uniqueifyJsonbObject_ascending.
    rewrite map_map. cbn [fst]. exact Hk.
Qed.

Lemma jsonb_value_plain (v : Value) :
  plain_json v = true -> jsonb_value pg (plain_tree v) = Ok v.
Proof.
  induction v as [v Hv | a IH | props IH] using Value_nested_ind; intros Ht.
  - destruct v; try discriminate Ht; try contradiction; try reflexivity.
    + cbn [plain_json] in Ht. destruct (whole_number d Ht) as (z & -> & Hz).
      cbn [plain_tree jsonb_value GetJsonbValue].
      rewrite IntegerValue_double_of_Z, numeric_reads_back by lia. reflexivity.
    + cbn [plain_tree jsonb_value GetJsonbValue].
      rewrite (c_str_no_nul s Ht). reflexivity.
  - cbn [plain_json plain_tree] in *. rewrite jsonb_value_array.
    assert (M : mapM (jsonb_value pg) (List.map plain_tree a) = Ok a).
    { induction a as [| o rest IHrest]; [reflexivity |].
      cbn [forallb] in Ht. apply andb_true_iff in Ht. destruct Ht as [Ho Hrest].
      inversion IH as [| ? ? Po Prest]; subst.
      cbn [List.map]. rewrite mapM_cons, (Po Ho), bind_Ok, (IHrest Prest Hrest).
      reflexivity. }
    rewrite M. reflexivity.
  - cbn [plain_json plain_tree] in *. rewrite jsonb_value_object.
    apply andb_true_iff in Ht. destruct Ht as [Ht Hv].
    apply andb_true_iff in Ht. destruct Ht as [Hp Hk].
    assert (G : forall acc : list (string * Value),
               keys_ascending (List.map fst (acc ++ props)) = true ->
               foldM (member pg)
                 (List.map (fun p => (fst p, plain_tree (snd p))) props) acc
               = Ok (acc ++ props)).
    { clear Hk. induction props as [| [k o] rest IHrest]; intros acc H.
      - cbn. rewrite app_nil_r. reflexivity.
      - cbn [forallb snd] in Hv. apply andb_true_iff in Hv.
        destruct Hv as [Ho Hrest].
        cbn [List.map forallb fst] in Hp. apply andb_true_iff in Hp.
        destruct Hp as [Hkey Hkeys].
        destruct (plain_key_inv k Hkey) as (Hc & Hproto & Hindex).
        inversion IH as [| ? ? Po Prest]; subst. cbn [snd] in Po.
        cbn [List.map fst snd]. rewrite foldM_cons. cbn [member].
        rewrite (Po Ho), !bind_Ok, Hc. rewrite set_prop_last.
        + rewrite (IHrest Prest Hkeys Hrest); rewrite <- app_assoc;
            [reflexivity | exact H].
        + rewrite map_app in H. cbn [List.map fst] in H.
          apply (keys_ascending_app _ _ _ H).
        + exact Hproto.
        + exact Hindex. }
    rewrite (G [] Hk). reflexivity.
Qed.

End JsonbRoundTrip.

(** X26. In a database in UTF-8 whose [numeric_float8] reads a whole
    number back exactly, a value made of null, Booleans, whole Numbers
    of the 32-bit ranges, Strings without a NUL, Arrays of such values
    and Objects of them is written by [ConvertObject] as a tree that
    [ConvertJsonb] reads back as the same value, provided that the
    names of the Objects hold no NUL, are neither ["__proto__"] nor an
    array index, and stand in the order the database sorts keys in. A
    value that is neither an Array nor an Object comes back as the
    Array of that one element. *)
Theorem jsonb_there_and_back (pg : Host) (js : Engine) (v : Value) :
  (forall s : string, Utf8Value js (VString s) = Some s) ->
  (forall s : string,
      pg_do_encoding_conversion pg s PG_UTF8 (GetDatabaseEncoding pg) = Ok s) ->
  (forall z : Z,
      - 2 ^ 31 <= z <= 2 ^ 32 - 1 ->
      numeric_float8 pg (int_numeric z) = Ok (Cnum.double_of_Z z)) ->
  plain_json v = true ->
  let shape := if IsArray v || IsObject v then v else VArray [v] in
  ConvertObject pg js v = Ok (plain_tree shape)
  /\ ConvertJsonb pg (plain_tree shape) = Ok shape.
Proof.
  intros H1 H2 H3 Ht shape.
  assert (Hs : plain_json shape = true).
  { unfold shape. destruct (IsArray v || IsObject v); [exact Ht |].
    cbn [plain_json forallb]. rewrite Ht. reflexivity. }
  assert (Hta : forall o : Value, plain_json o = true -> has_typed_array o = false).
  { clear. intros o.
    induction o as [o Ho | a IH | props IH] using Value_nested_ind; intros Ht.
    - destruct o; try discriminate Ht; try contradiction; reflexivity.
    - cbn [plain_json has_typed_array] in *.
      induction a as [| o rest IHrest]; [reflexivity |].
      cbn [forallb existsb] in *. apply andb_true_iff in Ht.
      destruct Ht as [Ho Hrest]. inversion IH as [| ? ? Po Prest]; subst.
      rewrite (Po Ho), (IHrest Prest Hrest). reflexivity.
    - cbn [plain_json has_typed_array] in *.
      apply andb_true_iff in Ht. destruct Ht as [_ Ht].
      induction props as [| p rest IHrest]; [reflexivity |].
      cbn [forallb existsb] in *. apply andb_true_iff in Ht.
      destruct Ht as [Ho Hrest]. inversion IH as [| ? ? Po Prest]; subst.
      rewrite (Po Ho), (IHrest Prest Hrest). reflexivity. }
  split.
  - unfold shape.
    destruct v as [| | b | d | n | s | y | d | k c i | c | a | props | f];
      try discriminate Ht; cbn [IsArray IsObject orb].
    1-4: rewrite ConvertObject_scalar by reflexivity;
      match goal with
      | |- context [JsonbFromValue_val _ _ ?o] =>
          pose proof (jsonb_of_value_plain pg js H1 H2 o Ht false) as E
      end;
      cbn [jsonb_of_value] in E; rewrite E; reflexivity.
    + rewrite (ConvertObject_VArray pg js a (Hta _ Ht)).
      pose proof (jsonb_of_value_plain pg js H1 H2 (VArray a) Ht false) as E.
      rewrite jsonb_of_value_VArray in E.
      destruct (mapM (jsonb_of_value pg js false) a) as [e | elems];
        [discriminate E |].
      rewrite bind_Ok. inversion E as [E']. cbn [plain_tree]. rewrite E'.
      reflexivity.
    + rewrite (ConvertObject_VObject pg js props (Hta _ Ht)).
      pose proof (jsonb_of_value_plain pg js H1 H2 (VObject props) Ht false) as E.
      rewrite jsonb_of_value_VObject in E.
      destruct (mapM (jsonb_of_property pg js) props) as [e | pairs];
        [discriminate E |].
      rewrite bind_Ok. inversion E as [E']. cbn [plain_tree]. rewrite E'.
      reflexivity.
  - assert (E : ConvertJsonb pg (plain_tree shape)
                = jsonb_value pg (plain_tree shape)).
    { unfold shape. destruct v; try discriminate Ht;
        cbn [IsArray IsObject orb plain_tree];
        first [apply ConvertJsonb_array | apply ConvertJsonb_object]. }
    rewrite E. apply (jsonb_value_plain pg H3 shape Hs).
Qed.

Lemma undefined_elements_are_dropped_witness :
  ConvertObject Sample.pg Sample.js (VArray [VUndefined; VNull; VUndefined])
  = ConvertObject Sample.pg Sample.js (VArray [VNull]).
Proof.
  exact (proj1 (proj2 (undefined_elements_are_dropped
                         Sample.pg Sample.js [VUndefined; VNull; VUndefined]))).
Defined.

Lemma date_in_array_is_empty_object_witness :
  ConvertObject Sample.pg Sample.js (VArray [VNull; VDate 0%float])
  = Ok (jbvArray [jbvNull; jbvObject []]).
Proof.
  transitivity
    (ConvertObject Sample.pg Sample.js (VArray ([VNull] ++ VObject [] :: []))).
  - exact (proj1 (date_in_array_is_empty_object Sample.pg Sample.js 0%float)
             [VNull] []).
  - reflexivity.
Defined.

(** The decimal text of a whole number read back. *)
Lemma decimal_float8_decimal (z : Z) :
  Demo.decimal_float8 (int_numeric z) = Ok (Cnum.double_of_Z z).
Proof.
  unfold Demo.decimal_float8, int_numeric, Cnum.decimal.
  rewrite NilZero.isi.
  - rewrite DecimalZ.of_to. reflexivity.
  - destruct z as [| p | p]; cbn; try discriminate.
    intros H. injection H as H. exact (DecimalPos.Unsigned.to_uint_nonnil p H).
  - destruct z as [| p | p]; cbn; try discriminate.
    intros H. injection H as H. exact (DecimalPos.Unsigned.to_uint_nonnil p H).
Qed.

Lemma jsonb_there_and_back_witness :
  plain_json Demo.document = true
  /\ ConvertObject Demo.pg Demo.js Demo.document = Ok (plain_tree Demo.document)
  /\ ConvertJsonb Demo.pg (plain_tree Demo.document) = Ok Demo.document.
Proof.
  split; [reflexivity |].
  apply (jsonb_there_and_back Demo.pg Demo.js Demo.document).
  - intros s. reflexivity.
  - intros s. reflexivity.
  - intros z _. apply decimal_float8_decimal.
  - reflexivity.
Defined.
